(** * advok8s-secrets-manager: selectors and the secret copier

    A shallow embedding of the namespace selectors
    ([pkg/selectors], [internal/selectors]) and of the SecretCopier
    controller ([internal/controller/secretcopier_controller.go]),
    followed by the properties of the specification checked against them.

    Go strings are byte strings: they are modelled by [string], whose
    characters are the 8-bit [ascii] values.  A Go map can be [nil] or
    allocated; both are kept apart ([gomap]) because the controller's
    equality helpers tell them apart. *)

From Stdlib Require Import ZArith Bool Ascii String List Lia.
From stdpp Require Import base option list gmap strings fin_maps.

Local Open Scope string_scope.
Local Open Scope Z_scope.

(** ** Go strings *)

Definition byte_val (c : ascii) : Z := Z.of_N (N_of_ascii c).

Definition len (s : string) : nat := String.length s.

(** [s[n:]] for [n <= len s]. *)
Fixpoint string_drop (n : nat) (s : string) : string :=
  match n, s with
  | O, _ => s
  | S n', String _ s' => string_drop n' s'
  | S _, EmptyString => EmptyString
  end.

(** [s[:n]] for [n <= len s]. *)
Fixpoint string_take (n : nat) (s : string) : string :=
  match n, s with
  | O, _ => EmptyString
  | S n', String c s' => String c (string_take n' s')
  | S _, EmptyString => EmptyString
  end.

Definition is_empty (s : string) : bool :=
  match s with EmptyString => true | _ => false end.

(** [strings.HasPrefix(s, "!")] *)
Definition HasPrefix_bang (s : string) : bool :=
  match s with
  | String c _ => Ascii.eqb c "!"
  | EmptyString => false
  end.

(** [strings.Contains(s, string(Separator))] on a Unix build. *)
Fixpoint contains_separator (s : string) : bool :=
  match s with
  | EmptyString => false
  | String c s' => Ascii.eqb c "/" || contains_separator s'
  end.

(** ** unicode/utf8 (Go standard library) *)

Module utf8.

Definition RuneError : Z := 0xFFFD.

(** The [first] table: information about the first byte of an encoding.
    [0xF0] is ASCII ([as]), [0xF1] is invalid ([xx]); otherwise the low
    three bits give the size and the high four the accept range. *)
Definition first (b : Z) : Z :=
  if b <? 0x80 then 0xF0
  else if b <? 0xC2 then 0xF1
  else if b <? 0xE0 then 0x02
  else if b =? 0xE0 then 0x13
  else if b <? 0xED then 0x03
  else if b =? 0xED then 0x23
  else if b <? 0xF0 then 0x03
  else if b =? 0xF0 then 0x34
  else if b <? 0xF4 then 0x04
  else if b =? 0xF4 then 0x44
  else 0xF1.

Definition acceptRanges (i : Z) : Z * Z :=
  if i =? 1 then (0xA0, 0xBF)
  else if i =? 2 then (0x80, 0x9F)
  else if i =? 3 then (0x90, 0xBF)
  else if i =? 4 then (0x80, 0x8F)
  else (0x80, 0xBF).

Definition locb : Z := 0x80.
Definition hicb : Z := 0xBF.
Definition maskx : Z := 0x3F.
Definition mask2 : Z := 0x1F.
Definition mask3 : Z := 0x0F.
Definition mask4 : Z := 0x07.

(** [utf8.DecodeRuneInString]: the rune and the number of bytes read. *)
Definition DecodeRuneInString (s : string) : Z * nat :=
  match s with
  | EmptyString => (RuneError, 0%nat)
  | String c0 t0 =>
    let s0 := byte_val c0 in
    let x := first s0 in
    if x >=? 0xF0 then
      ((if Z.testbit x 0 then RuneError else s0), 1%nat)
    else
      let sz := Z.land x 7 in
      let '(lo, hi) := acceptRanges (Z.shiftr x 4) in
      if Z.of_nat (len s) <? sz then (RuneError, 1%nat)
      else
        match t0 with
        | EmptyString => (RuneError, 1%nat)
        | String c1 t1 =>
          let s1 := byte_val c1 in
          if (s1 <? lo) || (hi <? s1) then (RuneError, 1%nat)
          else if sz <=? 2 then
            (Z.lor (Z.shiftl (Z.land s0 mask2) 6) (Z.land s1 maskx), 2%nat)
          else
            match t1 with
            | EmptyString => (RuneError, 1%nat)
            | String c2 t2 =>
              let s2 := byte_val c2 in
              if (s2 <? locb) || (hicb <? s2) then (RuneError, 1%nat)
              else if sz <=? 3 then
                (Z.lor (Z.lor (Z.shiftl (Z.land s0 mask3) 12)
                              (Z.shiftl (Z.land s1 maskx) 6))
                       (Z.land s2 maskx), 3%nat)
              else
                match t2 with
                | EmptyString => (RuneError, 1%nat)
                | String c3 _ =>
                  let s3 := byte_val c3 in
                  if (s3 <? locb) || (hicb <? s3) then (RuneError, 1%nat)
                  else
                    (Z.lor (Z.lor (Z.lor (Z.shiftl (Z.land s0 mask4) 18)
                                         (Z.shiftl (Z.land s1 maskx) 12))
                                  (Z.shiftl (Z.land s2 maskx) 6))
                           (Z.land s3 maskx), 4%nat)
                end
            end
        end
  end.

End utf8.

(** ** path/filepath.Match (Go standard library, Unix build)

    Both selectors call [filepath.Match(pattern, name)] and drop the error
    it returns.  The matcher is embedded as the library writes it: the
    pattern is cut into chunks separated by stars, each chunk is matched
    by [matchChunk], which keeps reading the chunk after a mismatch only
    to report a malformed pattern. *)

Module filepath.

Inductive error := ErrBadPattern.

Definition Separator : ascii := "/"%char.

(** [len(s) > 0 && s[0] == c] *)
Definition head_is (c : ascii) (s : string) : bool :=
  match s with
  | String c' _ => Ascii.eqb c' c
  | EmptyString => false
  end.

(** The leading stars of [scanChunk]. *)
Fixpoint skipStars (pattern : string) : bool * string :=
  match pattern with
  | String c p =>
    if Ascii.eqb c "*" then (true, snd (skipStars p)) else (false, pattern)
  | EmptyString => (false, pattern)
  end.

(** The [Scan] loop of [scanChunk]: the index at which it stops. *)
Fixpoint scanIndex (pattern : string) (inrange : bool) : nat :=
  match pattern with
  | EmptyString => O
  | String c p =>
    if Ascii.eqb c "\" then
      match p with
      | EmptyString => 1%nat
      | String _ p' => S (S (scanIndex p' inrange))
      end
    else if Ascii.eqb c "[" then S (scanIndex p true)
    else if Ascii.eqb c "]" then S (scanIndex p false)
    else if Ascii.eqb c "*" then
      if inrange then S (scanIndex p inrange) else O
    else S (scanIndex p inrange)
  end.

Definition scanChunk (pattern : string) : bool * string * string :=
  let '(star, pattern) := skipStars pattern in
  let i := scanIndex pattern false in
  (star, string_take i pattern, string_drop i pattern).

(** [getEsc]: one character of a class, possibly escaped. *)
Definition getEsc (chunk : string) : Z * string * option error :=
  match chunk with
  | EmptyString => (0, EmptyString, Some ErrBadPattern)
  | String c rest =>
    if Ascii.eqb c "-" || Ascii.eqb c "]" then
      (0, EmptyString, Some ErrBadPattern)
    else if Ascii.eqb c "\" && is_empty rest then
      (0, EmptyString, Some ErrBadPattern)
    else
      let chunk := if Ascii.eqb c "\" then rest else chunk in
      let '(r, n) := utf8.DecodeRuneInString chunk in
      let err := if (r =? utf8.RuneError) && Nat.eqb n 1
                 then Some ErrBadPattern else None in
      let nchunk := string_drop n chunk in
      let err := if is_empty nchunk then Some ErrBadPattern else err in
      (r, nchunk, err)
  end.

(** The loop of [matchChunk] over the ranges of one character class.
    [inl] is the early [return "", false, err]; [inr] carries [match]
    and the chunk left after the closing bracket. *)
Fixpoint parseRanges (fuel : nat) (chunk : string) (r : Z)
    (matched : bool) (nrange : nat) : option (error + bool * string) :=
  match fuel with
  | O => None
  | S fuel' =>
    if head_is "]" chunk && Nat.ltb 0 nrange then
      Some (inr (matched, string_drop 1 chunk))
    else
      match getEsc chunk with
      | (_, _, Some e) => Some (inl e)
      | (lo, chunk, None) =>
        if head_is "-" chunk then
          match getEsc (string_drop 1 chunk) with
          | (_, _, Some e) => Some (inl e)
          | (hi, chunk, None) =>
            parseRanges fuel' chunk r
              (if (lo <=? r) && (r <=? hi) then true else matched)
              (S nrange)
          end
        else
          parseRanges fuel' chunk r
            (if (lo <=? r) && (r <=? lo) then true else matched)
            (S nrange)
      end
  end.

(** The loop of [matchChunk]; [failed] records a mismatch, after which
    the chunk is still read but [s] no longer is. *)
Fixpoint matchChunk_loop (fuel : nat) (chunk s : string) (failed : bool)
    : option (string * bool * option error) :=
  match chunk with
  | EmptyString =>
    Some (if failed then (EmptyString, false, None) else (s, true, None))
  | String c0 chunk1 =>
    match fuel with
    | O => None
    | S fuel' =>
      let failed := if negb failed && is_empty s then true else failed in
      if Ascii.eqb c0 "[" then
        let '(r, s) :=
          if negb failed
          then let '(r, n) := utf8.DecodeRuneInString s in
               (r, string_drop n s)
          else (0, s) in
        let negated := head_is "^" chunk1 in
        let chunk := if negated then string_drop 1 chunk1 else chunk1 in
        match parseRanges (S (len chunk)) chunk r false O with
        | None => None
        | Some (inl e) => Some (EmptyString, false, Some e)
        | Some (inr (matched, chunk)) =>
          let failed := if Bool.eqb matched negated then true else failed in
          matchChunk_loop fuel' chunk s failed
        end
      else if Ascii.eqb c0 "?" then
        let '(failed, s) :=
          if negb failed then
            let failed := if head_is Separator s then true else failed in
            let '(_, n) := utf8.DecodeRuneInString s in
            (failed, string_drop n s)
          else (failed, s) in
        matchChunk_loop fuel' chunk1 s failed
      else
        (* a backslash drops itself, then falls through to the default *)
        let chunk := if Ascii.eqb c0 "\" then chunk1 else chunk in
        match chunk with
        | EmptyString => Some (EmptyString, false, Some ErrBadPattern)
        | String c chunk' =>
          let '(failed, s) :=
            if negb failed then
              ((if head_is c s then failed else true), string_drop 1 s)
            else (failed, s) in
          matchChunk_loop fuel' chunk' s failed
        end
    end
  end.

Definition matchChunk_opt (chunk s : string)
    : option (string * bool * option error) :=
  matchChunk_loop (len chunk) chunk s false.

Definition matchChunk (chunk s : string) : string * bool * option error :=
  default (EmptyString, false, None) (matchChunk_opt chunk s).

(** The result of the loop of [Match] that skips bytes after a star. *)
Inductive star_result :=
| StarFound (t : string)
| StarErr (e : error)
| StarNone.

Fixpoint starLoop (chunk : string) (last : bool) (name : string)
    : star_result :=
  match name with
  | EmptyString => StarNone
  | String c name' =>
    if Ascii.eqb c Separator then StarNone
    else
      match matchChunk chunk name' with
      | (t, true, _) =>
        if last && negb (is_empty t)
        then starLoop chunk last name'
        else StarFound t
      | (_, false, Some e) => StarErr e
      | (_, false, None) => starLoop chunk last name'
      end
  end.

(** The [Pattern] loop.  When a chunk matches neither at the current
    position nor, after a star, further on, the answer is [false, nil]:
    the chunks that follow are not looked at. *)
Fixpoint Match_loop (fuel : nat) (pattern name : string)
    : option (bool * option error) :=
  match pattern with
  | EmptyString => Some (is_empty name, None)
  | _ =>
    match fuel with
    | O => None
    | S fuel' =>
      let '(star, chunk, pattern) := scanChunk pattern in
      if star && is_empty chunk then
        Some (negb (contains_separator name), None)
      else
        let '(t, ok, err) := matchChunk chunk name in
        if ok && (is_empty t || negb (is_empty pattern)) then
          Match_loop fuel' pattern t
        else
          match err with
          | Some e => Some (false, Some e)
          | None =>
            match (if star then starLoop chunk (is_empty pattern) name
                   else StarNone) with
            | StarFound t => Match_loop fuel' pattern t
            | StarErr e => Some (false, Some e)
            | StarNone => Some (false, None)
            end
          end
    end
  end.

Definition Match_opt (pattern name : string) : option (bool * option error) :=
  Match_loop (len pattern) pattern name.

(** [filepath.Match]: [(matched, err)]. *)
Definition Match (pattern name : string) : bool * option error :=
  default (false, None) (Match_opt pattern name).

End filepath.

(** ** Go maps

    [None] is the nil map, [Some m] an allocated one.  Reading a nil map
    behaves like reading an empty one; only a comparison with [nil] sees
    the difference. *)

Abbreviation gomap V := (option (gmap string V)).

Definition golen {V} (m : gomap V) : nat :=
  match m with
  | None => O
  | Some g => size g
  end.

(** [v, ok := m[k]] *)
Definition goget {V} (m : gomap V) (k : string) : option V :=
  match m with
  | None => None
  | Some g => g !! k
  end.

(** [m[k]] for a map of strings: the zero value when the key is absent. *)
Definition goindex (m : gomap string) (k : string) : string :=
  default EmptyString (goget m k).

(** The entries visited by [for k, v := range m].  Go leaves the order
    unspecified; every loop below is insensitive to it. *)
Definition goentries {V} (m : gomap V) : list (string * V) :=
  match m with
  | None => []
  | Some g => map_to_list g
  end.

(** ** k8s.io/apimachinery/pkg/apis/meta/v1 (the fields the program reads) *)

Module metav1.

Module OwnerReference.
Record t := Build {
  APIVersion : string;
  Kind : string;
  Name : string;
  UID : string;
  Controller : option bool;
  BlockOwnerDeletion : option bool;
}.
End OwnerReference.

Module TypeMeta.
Record t := Build { Kind : string; APIVersion : string }.
End TypeMeta.

Module ObjectMeta.
Record t := Build {
  Name : string;
  Namespace : string;
  UID : string;
  Labels : gomap string;
  Annotations : gomap string;
  OwnerReferences : list OwnerReference.t;
}.
End ObjectMeta.

Record LabelSelectorRequirement := {
  Key : string;
  Operator : string;
  Values : list string;
}.

End metav1.

(** ** k8s.io/api/core/v1 *)

Module corev1.

Definition NamespaceTerminating : string := "Terminating".

Module Namespace.
Record t := Build {
  ObjectMeta : metav1.ObjectMeta.t;
  Phase : string;              (* Status.Phase *)
}.
Definition Name (n : t) : string := metav1.ObjectMeta.Name (ObjectMeta n).
Definition GetUID (n : t) : string := metav1.ObjectMeta.UID (ObjectMeta n).
Definition GetLabels (n : t) : gomap string :=
  metav1.ObjectMeta.Labels (ObjectMeta n).
Definition GetOwnerReferences (n : t) : list metav1.OwnerReference.t :=
  metav1.ObjectMeta.OwnerReferences (ObjectMeta n).
End Namespace.

Module Secret.
Record t := Build {
  ObjectMeta : metav1.ObjectMeta.t;
  Type' : string;         (* Type *)
  Data : gomap string;         (* map[string][]byte *)
}.
Definition Labels (s : t) : gomap string :=
  metav1.ObjectMeta.Labels (ObjectMeta s).
Definition Annotations (s : t) : gomap string :=
  metav1.ObjectMeta.Annotations (ObjectMeta s).
End Secret.

End corev1.

(** ** package selectors *)

Module selectors.

(** The closure [globMatchName] / [globMatchLabel] of both selectors:
    the error of [filepath.Match] is dropped. *)
Fixpoint globMatch (name : string) (items : list string) : bool :=
  match items with
  | [] => false
  | item :: items' =>
    if fst (filepath.Match item name) then true else globMatch name items'
  end.

Module NameSelector.

Record t := Build { MatchNames : list string }.

Definition IsEmpty (s : t) : bool := Nat.eqb (length (MatchNames s)) 0.

(** The loop that splits the names into exclude and include lists. *)
Fixpoint splitNames (names matchExcludeNames matchIncludeNames : list string)
    : list string * list string :=
  match names with
  | [] => (matchExcludeNames, matchIncludeNames)
  | name :: names' =>
    if HasPrefix_bang name
    then splitNames names' (matchExcludeNames ++ [string_drop 1 name])
                    matchIncludeNames
    else splitNames names' matchExcludeNames (matchIncludeNames ++ [name])
  end.

Definition Matches (s : t) (name : string) : bool :=
  if Nat.eqb (length (MatchNames s)) 0 then false
  else
    let '(matchExcludeNames, matchIncludeNames) :=
      splitNames (MatchNames s) [] [] in
    if Nat.ltb 0 (length matchIncludeNames)
       && negb (globMatch name matchIncludeNames) then false
    else if Nat.ltb 0 (length matchExcludeNames)
            && globMatch name matchExcludeNames then false
    else true.

End NameSelector.

Module UIDSelector.

Record t := Build { MatchUids : list string }.

Definition IsEmpty (s : t) : bool := Nat.eqb (length (MatchUids s)) 0.

Fixpoint matchLoop (uids : list string) (uid : string) : bool :=
  match uids with
  | [] => false
  | name :: uids' => if String.eqb name uid then true else matchLoop uids' uid
  end.

Definition Matches (s : t) (uid : string) : bool := matchLoop (MatchUids s) uid.

End UIDSelector.

Module OwnerReference.
Record t := Build {
  APIVersion : string;
  Kind : string;
  Name : string;
  UID : string;
}.
End OwnerReference.

Module OwnerSelector.

Record t := Build { MatchOwners : list OwnerReference.t }.

Definition IsEmpty (s : t) : bool := Nat.eqb (length (MatchOwners s)) 0.

Fixpoint innerLoop (matchOwners : list OwnerReference.t)
    (ownerReference : metav1.OwnerReference.t) : bool :=
  match matchOwners with
  | [] => false
  | matchOwner :: rest =>
    if String.eqb (OwnerReference.APIVersion matchOwner)
                  (metav1.OwnerReference.APIVersion ownerReference)
       && String.eqb (OwnerReference.Kind matchOwner)
                     (metav1.OwnerReference.Kind ownerReference)
       && String.eqb (OwnerReference.Name matchOwner)
                     (metav1.OwnerReference.Name ownerReference)
       && String.eqb (OwnerReference.UID matchOwner)
                     (metav1.OwnerReference.UID ownerReference)
    then true
    else innerLoop rest ownerReference
  end.

Fixpoint outerLoop (matchOwners : list OwnerReference.t)
    (ownerReferences : list metav1.OwnerReference.t) : bool :=
  match ownerReferences with
  | [] => false
  | ownerReference :: rest =>
    if innerLoop matchOwners ownerReference then true
    else outerLoop matchOwners rest
  end.

Definition Matches (s : t) (ownerReferences : list metav1.OwnerReference.t)
    : bool :=
  outerLoop (MatchOwners s) ownerReferences.

End OwnerSelector.

Module LabelSelector.

Record t := Build {
  MatchLabels : gomap string;
  MatchExpressions : list metav1.LabelSelectorRequirement;
}.

Definition IsEmpty (s : t) : bool :=
  Nat.eqb (golen (MatchLabels s)) 0
  && Nat.eqb (length (MatchExpressions s)) 0.

(** [for key, value := range s.MatchLabels] *)
Fixpoint matchLabelsLoop (entries : list (string * string))
    (labels : gomap string) : bool :=
  match entries with
  | [] => true
  | (key, value) :: rest =>
    match goget labels key with
    | Some label =>
      if negb (String.eqb label value) then false
      else matchLabelsLoop rest labels
    | None => false
    end
  end.

(** [for _, matchExpression := range s.MatchExpressions]; an operator
    met by no [case] of a [switch] falls out of it. *)
Fixpoint matchExpressionsLoop
    (exprs : list metav1.LabelSelectorRequirement)
    (labels : gomap string) : bool :=
  match exprs with
  | [] => true
  | matchExpression :: rest =>
    let op := metav1.Operator matchExpression in
    match goget labels (metav1.Key matchExpression) with
    | Some label =>
      if String.eqb op "In" then
        if negb (globMatch label (metav1.Values matchExpression))
        then false else matchExpressionsLoop rest labels
      else if String.eqb op "NotIn" then
        if globMatch label (metav1.Values matchExpression)
        then false else matchExpressionsLoop rest labels
      else if String.eqb op "Exists" then matchExpressionsLoop rest labels
      else if String.eqb op "DoesNotExist" then false
      else matchExpressionsLoop rest labels
    | None =>
      if String.eqb op "In" then false
      else if String.eqb op "NotIn" then matchExpressionsLoop rest labels
      else if String.eqb op "Exists" then false
      else if String.eqb op "DoesNotExist" then
        matchExpressionsLoop rest labels
      else matchExpressionsLoop rest labels
    end
  end.

Definition Matches (s : t) (labels : gomap string) : bool :=
  if Nat.eqb (golen (MatchLabels s)) 0
     && Nat.eqb (length (MatchExpressions s)) 0 then false
  else if negb (matchLabelsLoop (goentries (MatchLabels s)) labels)
  then false
  else matchExpressionsLoop (MatchExpressions s) labels.

End LabelSelector.

Module TargetNamespaces.

Record t := Build {
  NameSelector : NameSelector.t;
  UIDSelector : UIDSelector.t;
  OwnerSelector : OwnerSelector.t;
  LabelSelector : LabelSelector.t;
}.

Definition Matches (s : t) (namespace : corev1.Namespace.t) : bool :=
  if (if NameSelector.IsEmpty (NameSelector s)
      then negb (NameSelector.Matches (NameSelector.Build ["!kube-*"])
                                      (corev1.Namespace.Name namespace))
      else negb (NameSelector.Matches (NameSelector s)
                                      (corev1.Namespace.Name namespace)))
  then false
  else if negb (UIDSelector.IsEmpty (UIDSelector s))
          && negb (UIDSelector.Matches (UIDSelector s)
                                       (corev1.Namespace.GetUID namespace))
  then false
  else if negb (OwnerSelector.IsEmpty (OwnerSelector s))
          && negb (OwnerSelector.Matches (OwnerSelector s)
                     (corev1.Namespace.GetOwnerReferences namespace))
  then false
  else if negb (LabelSelector.IsEmpty (LabelSelector s))
          && negb (LabelSelector.Matches (LabelSelector s)
                     (corev1.Namespace.GetLabels namespace))
  then false
  else true.

End TargetNamespaces.

End selectors.

(** ** api/v1beta1 *)

Module v1beta1.

Module SourceSecret.
Record t := Build { Name : string; Namespace : string }.
End SourceSecret.

Module TargetSecret.
Record t := Build { Name : string; Labels : gomap string }.
End TargetSecret.

Definition ReclaimDelete : string := "Delete".
Definition ReclaimRetain : string := "Retain".

Module SecretCopierRule.
Record t := Build {
  SourceSecret : SourceSecret.t;
  TargetNamespaces : selectors.TargetNamespaces.t;
  TargetSecret : TargetSecret.t;
  ReclaimPolicy : string;
}.
End SecretCopierRule.

Module SecretCopierSpec.
Record t := Build {
  Rules : list SecretCopierRule.t;
  SyncPeriod : Z;              (* metav1.Duration, in nanoseconds *)
}.
End SecretCopierSpec.

Module SecretCopier.
Record t := Build {
  TypeMeta : metav1.TypeMeta.t;
  ObjectMeta : metav1.ObjectMeta.t;
  Spec : SecretCopierSpec.t;
}.
Definition Name (c : t) : string := metav1.ObjectMeta.Name (ObjectMeta c).
Definition UID (c : t) : string := metav1.ObjectMeta.UID (ObjectMeta c).
Definition APIVersion (c : t) : string :=
  metav1.TypeMeta.APIVersion (TypeMeta c).
Definition Kind (c : t) : string := metav1.TypeMeta.Kind (TypeMeta c).
End SecretCopier.

End v1beta1.

(** ** The API client

    The reconciler embeds a [client.Client].  The cluster it talks to is a
    store of secrets keyed by (namespace, name), as the test environment
    provides, in which a read or a write of a key may also fail; every
    [Create] and [Update] sent is recorded in [issued]. *)

Module client.

Inductive error := NotFound | AlreadyExists | Failure.

(** [client.IgnoreNotFound(err)] *)
Definition IgnoreNotFound (e : error) : option error :=
  match e with
  | NotFound => None
  | _ => Some e
  end.

(** [client.ObjectKey{Namespace, Name}] *)
Abbreviation ObjectKey := (string * string)%type.

Inductive call :=
| CreateCall (obj : corev1.Secret.t)
| UpdateCall (obj : corev1.Secret.t).

Record World := BuildWorld {
  secrets : gmap (string * string) corev1.Secret.t;
  secretCopiers : gmap string v1beta1.SecretCopier.t;
  namespaces : error + list corev1.Namespace.t;
  unavailable : string * string -> bool;
  rejected : string * string -> bool;
  issued : list call;
}.

Definition keyOf (obj : corev1.Secret.t) : string * string :=
  (metav1.ObjectMeta.Namespace (corev1.Secret.ObjectMeta obj),
   metav1.ObjectMeta.Name (corev1.Secret.ObjectMeta obj)).

Definition record (c : call) (w : World) : World :=
  BuildWorld (secrets w) (secretCopiers w) (namespaces w)
             (unavailable w) (rejected w) (issued w ++ [c]).

Definition store (obj : corev1.Secret.t) (w : World) : World :=
  BuildWorld (<[keyOf obj := obj]> (secrets w)) (secretCopiers w)
             (namespaces w) (unavailable w) (rejected w) (issued w).

Definition Get (key : string * string) (w : World)
    : error + corev1.Secret.t :=
  if unavailable w key then inl Failure
  else match secrets w !! key with
       | Some obj => inr obj
       | None => inl NotFound
       end.

Definition Create (obj : corev1.Secret.t) (w : World)
    : option error * World :=
  let w := record (CreateCall obj) w in
  if rejected w (keyOf obj) then (Some Failure, w)
  else match secrets w !! keyOf obj with
       | Some _ => (Some AlreadyExists, w)
       | None => (None, store obj w)
       end.

Definition Update (obj : corev1.Secret.t) (w : World)
    : option error * World :=
  let w := record (UpdateCall obj) w in
  if rejected w (keyOf obj) then (Some Failure, w)
  else match secrets w !! keyOf obj with
       | Some _ => (None, store obj w)
       | None => (Some NotFound, w)
       end.

Definition GetSecretCopier (name : string) (w : World)
    : error + v1beta1.SecretCopier.t :=
  match secretCopiers w !! name with
  | Some c => inr c
  | None => inl NotFound
  end.

End client.

(** ** internal/controller *)

Module controller.
Import client.

Definition annotationSecretCopier : string :=
  "secrets-manager.advok8s.io/secret-copier".
Definition annotationSecretName : string :=
  "secrets-manager.advok8s.io/secret-name".

(** [for key, value := range src { dst[key] = value }] *)
Definition copyLabels (src : gomap string) (dst : gmap string string)
    : gmap string string :=
  foldl (fun m kv => <[fst kv := snd kv]> m) dst (goentries src).

(** The labels of a copy: those of the source secret overlaid with the
    labels the rule gives to the target secret. *)
Definition targetSecretLabels (rule : v1beta1.SecretCopierRule.t)
    (secret : corev1.Secret.t) : gmap string string :=
  copyLabels
    (v1beta1.TargetSecret.Labels (v1beta1.SecretCopierRule.TargetSecret rule))
    (copyLabels (corev1.Secret.Labels secret) ∅).

Definition sourceSecretName (rule : v1beta1.SecretCopierRule.t) : string :=
  v1beta1.SourceSecret.Namespace (v1beta1.SecretCopierRule.SourceSecret rule)
  ++ "/" ++
  v1beta1.SourceSecret.Name (v1beta1.SecretCopierRule.SourceSecret rule).

Definition targetSecretManagedBySecretCopier
    (secretCopier : v1beta1.SecretCopier.t)
    (rule : v1beta1.SecretCopierRule.t)
    (targetSecret : corev1.Secret.t) : bool :=
  if negb (String.eqb
             (goindex (corev1.Secret.Annotations targetSecret)
                      annotationSecretCopier)
             (v1beta1.SecretCopier.Name secretCopier))
  then false
  else if negb (String.eqb
                  (goindex (corev1.Secret.Annotations targetSecret)
                           annotationSecretName)
                  (sourceSecretName rule))
  then false
  else true.

Definition isnil {V} (m : gomap V) : bool :=
  match m with None => true | Some _ => false end.

(** [for key, valueA := range a]: [b] must hold an equal value. *)
Fixpoint mapEqualLoop (entries : list (string * string)) (b : gomap string)
    : bool :=
  match entries with
  | [] => true
  | (key, valueA) :: rest =>
    match goget b key with
    | Some valueB =>
      if negb (String.eqb valueA valueB) then false
      else mapEqualLoop rest b
    | None => false
    end
  end.

Definition mapStringBytesEqual (a b : gomap string) : bool :=
  if isnil a && isnil b then true
  else if isnil a || isnil b then false
  else if negb (Nat.eqb (golen a) (golen b)) then false
  else mapEqualLoop (goentries a) b.

Definition mapStringStringEqual (a b : gomap string) : bool :=
  if isnil a && isnil b then true
  else if isnil a || isnil b then false
  else if negb (Nat.eqb (golen a) (golen b)) then false
  else mapEqualLoop (goentries a) b.

Definition sourceSecretHasBeenUpdated (rule : v1beta1.SecretCopierRule.t)
    (sourceSecret targetSecret : corev1.Secret.t) : bool :=
  if negb (String.eqb (corev1.Secret.Type' sourceSecret)
                      (corev1.Secret.Type' targetSecret))
  then true
  else if negb (mapStringBytesEqual (corev1.Secret.Data sourceSecret)
                                    (corev1.Secret.Data targetSecret))
  then true
  else
    let targetSecretLabels := targetSecretLabels rule sourceSecret in
    if negb (mapStringStringEqual (corev1.Secret.Labels sourceSecret)
                                  (Some targetSecretLabels))
    then true
    else false.

Definition ownerReferencesFor (secretCopier : v1beta1.SecretCopier.t)
    (rule : v1beta1.SecretCopierRule.t) : list metav1.OwnerReference.t :=
  if String.eqb (v1beta1.SecretCopierRule.ReclaimPolicy rule)
                v1beta1.ReclaimDelete
  then [] ++ [metav1.OwnerReference.Build
                (v1beta1.SecretCopier.APIVersion secretCopier)
                (v1beta1.SecretCopier.Kind secretCopier)
                (v1beta1.SecretCopier.Name secretCopier)
                (v1beta1.SecretCopier.UID secretCopier)
                (Some true) (Some true)]
  else [].

(** The secret built when the target does not exist. *)
Definition newTargetSecret (secretCopier : v1beta1.SecretCopier.t)
    (rule : v1beta1.SecretCopierRule.t)
    (targetSecretName targetNamespace : string)
    (secret : corev1.Secret.t) : corev1.Secret.t :=
  corev1.Secret.Build
    (metav1.ObjectMeta.Build
       targetSecretName
       targetNamespace
       EmptyString
       (Some (targetSecretLabels rule secret))
       (Some (<[annotationSecretName := sourceSecretName rule]>
                (<[annotationSecretCopier :=
                     v1beta1.SecretCopier.Name secretCopier]> ∅)))
       (ownerReferencesFor secretCopier rule))
    (corev1.Secret.Type' secret)
    (corev1.Secret.Data secret).

(** The target secret with labels, data and type overwritten in place. *)
Definition updatedTargetSecret (rule : v1beta1.SecretCopierRule.t)
    (secret targetSecret : corev1.Secret.t) : corev1.Secret.t :=
  let meta := corev1.Secret.ObjectMeta targetSecret in
  corev1.Secret.Build
    (metav1.ObjectMeta.Build
       (metav1.ObjectMeta.Name meta)
       (metav1.ObjectMeta.Namespace meta)
       (metav1.ObjectMeta.UID meta)
       (Some (targetSecretLabels rule secret))
       (metav1.ObjectMeta.Annotations meta)
       (metav1.ObjectMeta.OwnerReferences meta))
    (corev1.Secret.Type' secret)
    (corev1.Secret.Data secret).

Definition copySecretToNamespace (secretCopier : v1beta1.SecretCopier.t)
    (rule : v1beta1.SecretCopierRule.t) (targetNamespace : string)
    (w : World) : World :=
  let sourceSecret := v1beta1.SecretCopierRule.SourceSecret rule in
  if String.eqb (v1beta1.SourceSecret.Namespace sourceSecret) targetNamespace
  then w
  else
    let targetSecretName :=
      if String.eqb
           (v1beta1.TargetSecret.Name
              (v1beta1.SecretCopierRule.TargetSecret rule)) EmptyString
      then v1beta1.SourceSecret.Name sourceSecret
      else v1beta1.TargetSecret.Name
             (v1beta1.SecretCopierRule.TargetSecret rule) in
    match Get (v1beta1.SourceSecret.Namespace sourceSecret,
               v1beta1.SourceSecret.Name sourceSecret) w with
    | inl _ => w
    | inr secret =>
      match Get (targetNamespace, targetSecretName) w with
      | inl err =>
        match IgnoreNotFound err with
        | Some _ => w
        | None =>
          snd (Create (newTargetSecret secretCopier rule targetSecretName
                                       targetNamespace secret) w)
        end
      | inr targetSecret =>
        if negb (targetSecretManagedBySecretCopier secretCopier rule
                                                   targetSecret)
        then w
        else if sourceSecretHasBeenUpdated rule secret targetSecret
        then snd (Update (updatedTargetSecret rule secret targetSecret) w)
        else w
      end
    end.

(** The namespaces of a listing that are not terminating. *)
Fixpoint activeNamespacesOf (items : list corev1.Namespace.t)
    : list corev1.Namespace.t :=
  match items with
  | [] => []
  | namespace :: rest =>
    if negb (String.eqb (corev1.Namespace.Phase namespace)
                        corev1.NamespaceTerminating)
    then namespace :: activeNamespacesOf rest
    else activeNamespacesOf rest
  end.

(** The names of the active namespaces a rule targets. *)
Fixpoint targetNamespacesOf (rule : v1beta1.SecretCopierRule.t)
    (activeNamespaces : list corev1.Namespace.t) : list string :=
  match activeNamespaces with
  | [] => []
  | namespace :: rest =>
    if negb (String.eqb (corev1.Namespace.Name namespace)
               (v1beta1.SourceSecret.Namespace
                  (v1beta1.SecretCopierRule.SourceSecret rule)))
       && selectors.TargetNamespaces.Matches
            (v1beta1.SecretCopierRule.TargetNamespaces rule) namespace
    then corev1.Namespace.Name namespace :: targetNamespacesOf rule rest
    else targetNamespacesOf rule rest
  end.

(** The loop of [Reconcile] over the rules, for any copy operation
    [copy] acting on a state [S]; [Reconcile] runs it with
    [copySecretToNamespace] on the cluster. *)
Definition reconcileRules {S : Type}
    (copy : v1beta1.SecretCopier.t -> v1beta1.SecretCopierRule.t ->
            string -> S -> S)
    (secretCopier : v1beta1.SecretCopier.t)
    (activeNamespaces : list corev1.Namespace.t) (s : S) : S :=
  foldl
    (fun s rule =>
       let targetNamespaces := targetNamespacesOf rule activeNamespaces in
       if Nat.eqb (length targetNamespaces) 0 then s
       else
         foldl
           (fun s targetNamespace =>
              if negb (String.eqb targetNamespace
                         (v1beta1.SourceSecret.Namespace
                            (v1beta1.SecretCopierRule.SourceSecret rule)))
              then copy secretCopier rule targetNamespace s
              else s)
           s targetNamespaces)
    s
    (v1beta1.SecretCopierSpec.Rules (v1beta1.SecretCopier.Spec secretCopier)).

(** [ctrl.Result{RequeueAfter}] and the error returned. *)
Definition Reconcile (req : string) (w : World)
    : (Z * option error) * World :=
  match GetSecretCopier req w with
  | inl err =>
    match IgnoreNotFound err with
    | None => ((0, None), w)
    | Some e => ((0, Some e), w)
    end
  | inr secretCopier =>
    let spec := v1beta1.SecretCopier.Spec secretCopier in
    if Nat.eqb (length (v1beta1.SecretCopierSpec.Rules spec)) 0
    then ((0, None), w)
    else
      match namespaces w with
      | inl err => ((0, Some err), w)
      | inr items =>
        let w := reconcileRules copySecretToNamespace secretCopier
                                (activeNamespacesOf items) w in
        if 0 <? v1beta1.SecretCopierSpec.SyncPeriod spec
        then ((v1beta1.SecretCopierSpec.SyncPeriod spec, None), w)
        else ((0, None), w)
      end
  end.

End controller.

(** ** The watch handlers of the controller

    [SetupWithManager] maps a changed secret or namespace to the
    SecretCopiers to reconcile.  The handlers list the SecretCopiers
    themselves; the result of that [List] call is their argument
    [listing]. *)

Module handlers.
Import client.

(** The [client.Object] a watch hands over. *)
Inductive Object :=
| SecretObject (obj : corev1.Secret.t)
| NamespaceObject (obj : corev1.Namespace.t).

Definition GetName (object : Object) : string :=
  match object with
  | SecretObject obj =>
    metav1.ObjectMeta.Name (corev1.Secret.ObjectMeta obj)
  | NamespaceObject obj =>
    metav1.ObjectMeta.Name (corev1.Namespace.ObjectMeta obj)
  end.

Definition GetNamespace (object : Object) : string :=
  match object with
  | SecretObject obj =>
    metav1.ObjectMeta.Namespace (corev1.Secret.ObjectMeta obj)
  | NamespaceObject obj =>
    metav1.ObjectMeta.Namespace (corev1.Namespace.ObjectMeta obj)
  end.

(** [reconcile.Request{NamespacedName: client.ObjectKeyFromObject(&secretCopier)}] *)
Definition requestFor (secretCopier : v1beta1.SecretCopier.t)
    : string * string :=
  (metav1.ObjectMeta.Namespace (v1beta1.SecretCopier.ObjectMeta secretCopier),
   metav1.ObjectMeta.Name (v1beta1.SecretCopier.ObjectMeta secretCopier)).

(** The loop over the rules of one SecretCopier, left by [break] at the
    first rule whose source is the secret. *)
Fixpoint sourceRulesLoop (rules : list v1beta1.SecretCopierRule.t)
    (secretCopier : v1beta1.SecretCopier.t) (secret : Object)
    (requests : list (string * string)) : list (string * string) :=
  match rules with
  | [] => requests
  | rule :: rest =>
    if String.eqb
         (v1beta1.SourceSecret.Name (v1beta1.SecretCopierRule.SourceSecret rule))
         (GetName secret)
       && String.eqb
            (v1beta1.SourceSecret.Namespace
               (v1beta1.SecretCopierRule.SourceSecret rule))
            (GetNamespace secret)
    then requests ++ [requestFor secretCopier]
    else sourceRulesLoop rest secretCopier secret requests
  end.

Definition findSecretCopiersMatchingSourceSecret
    (listing : error + list v1beta1.SecretCopier.t) (secret : Object)
    : list (string * string) :=
  match listing with
  | inl _ => []
  | inr items =>
    foldl
      (fun requests secretCopier =>
         sourceRulesLoop
           (v1beta1.SecretCopierSpec.Rules
              (v1beta1.SecretCopier.Spec secretCopier))
           secretCopier secret requests)
      [] items
  end.

(** The loop over the rules of one SecretCopier, left by [break] at the
    first rule that targets the namespace from another namespace. *)
Fixpoint targetRulesLoop (rules : list v1beta1.SecretCopierRule.t)
    (secretCopier : v1beta1.SecretCopier.t) (namespace : corev1.Namespace.t)
    (requests : list (string * string)) : list (string * string) :=
  match rules with
  | [] => requests
  | rule :: rest =>
    if negb (String.eqb
               (v1beta1.SourceSecret.Namespace
                  (v1beta1.SecretCopierRule.SourceSecret rule))
               (corev1.Namespace.Name namespace))
       && selectors.TargetNamespaces.Matches
            (v1beta1.SecretCopierRule.TargetNamespaces rule) namespace
    then requests ++ [requestFor secretCopier]
    else targetRulesLoop rest secretCopier namespace requests
  end.

Definition findSecretCopiersMatchingTargetNamespace
    (listing : error + list v1beta1.SecretCopier.t) (object : Object)
    : list (string * string) :=
  match object with
  | NamespaceObject namespace =>
    match listing with
    | inl _ => []
    | inr items =>
      foldl
        (fun requests secretCopier =>
           targetRulesLoop
             (v1beta1.SecretCopierSpec.Rules
                (v1beta1.SecretCopier.Spec secretCopier))
             secretCopier namespace requests)
        [] items
    end
  | _ => []
  end.

End handlers.

(** * Vocabulary of the statements

    The notions the specification speaks with, written over the embedding,
    and a small cluster on which the statements are exercised. *)

Section Vocabulary.
Import selectors client controller.

(** [pattern] glob-matches [name]: what is left of [filepath.Match] once
    its error is dropped. *)
Definition globMatches (pattern name : string) : Prop :=
  fst (filepath.Match pattern name) = true.

(** [filepath.Match] reports [pattern] malformed when matching [name]. *)
Definition badPatternOn (pattern name : string) : Prop :=
  snd (filepath.Match pattern name) = Some filepath.ErrBadPattern.

(** [pattern] is malformed: [filepath.Match] answers [ErrBadPattern] for
    it on some name.  It need not on every name: the chunks after one
    that fails to match are not looked at, so a syntax error in them is
    reported only for the names that reach it. *)
Definition badPattern (pattern : string) : Prop :=
  exists name, badPatternOn pattern name.

(** The include patterns of a list of names, in the words of the
    specification: those without the [!] prefix. *)
Definition includePatterns (names : list string) : list string :=
  List.filter (fun name => negb (HasPrefix_bang name)) names.

(** The exclude patterns: those with the [!] prefix, prefix stripped. *)
Definition excludePatterns (names : list string) : list string :=
  List.map (string_drop 1) (List.filter HasPrefix_bang names).

(** The four operators of a label selector requirement. *)
Definition knownOperator (op : string) : Prop :=
  op = "In" \/ op = "NotIn" \/ op = "Exists" \/ op = "DoesNotExist".

(** When an expression holds, in the words of the specification. *)
Definition expressionHolds (labels : gomap string)
    (e : metav1.LabelSelectorRequirement) : Prop :=
  match goget labels (metav1.Key e) with
  | Some v =>
    (metav1.Operator e = "In" /\
     exists p, In p (metav1.Values e) /\ globMatches p v) \/
    (metav1.Operator e = "NotIn" /\
     forall p, In p (metav1.Values e) -> ~ globMatches p v) \/
    metav1.Operator e = "Exists"
  | None =>
    metav1.Operator e = "NotIn" \/ metav1.Operator e = "DoesNotExist"
  end.

(** Every [matchLabels] entry is present with an equal value. *)
Definition matchLabelsHold (matchLabels labels : gomap string) : Prop :=
  forall key value,
    goget matchLabels key = Some value -> goget labels key = Some value.

(** A namespace of the given name with nothing else set. *)
Definition namespaceNamed (name : string) : corev1.Namespace.t :=
  corev1.Namespace.Build
    (metav1.ObjectMeta.Build name EmptyString EmptyString None None [])
    "Active".

(** The name of the copy: the rule's target name, by default the name of
    the source secret. *)
Definition targetSecretNameOf (rule : v1beta1.SecretCopierRule.t) : string :=
  if String.eqb (v1beta1.TargetSecret.Name
                   (v1beta1.SecretCopierRule.TargetSecret rule)) EmptyString
  then v1beta1.SourceSecret.Name (v1beta1.SecretCopierRule.SourceSecret rule)
  else v1beta1.TargetSecret.Name (v1beta1.SecretCopierRule.TargetSecret rule).

(** The namespace of the rule's source secret. *)
Definition sourceNamespaceOf (rule : v1beta1.SecretCopierRule.t) : string :=
  v1beta1.SourceSecret.Namespace (v1beta1.SecretCopierRule.SourceSecret rule).

(** The key under which the source secret is read. *)
Definition sourceKeyOf (rule : v1beta1.SecretCopierRule.t) : string * string :=
  (sourceNamespaceOf rule,
   v1beta1.SourceSecret.Name (v1beta1.SecretCopierRule.SourceSecret rule)).

(** Both ownership annotations of a secret carry the values of this
    SecretCopier and rule; an absent annotation reads as the empty
    string, as indexing a Go map does. *)
Definition ownershipAnnotationsMatch (secretCopier : v1beta1.SecretCopier.t)
    (rule : v1beta1.SecretCopierRule.t) (targetSecret : corev1.Secret.t)
    : Prop :=
  goindex (corev1.Secret.Annotations targetSecret) annotationSecretCopier
  = v1beta1.SecretCopier.Name secretCopier /\
  goindex (corev1.Secret.Annotations targetSecret) annotationSecretName
  = sourceSecretName rule.

(** The copy operation that only writes down what it is asked to do. *)
Definition traceCopy (_ : v1beta1.SecretCopier.t)
    (rule : v1beta1.SecretCopierRule.t) (targetNamespace : string)
    (trace : list (v1beta1.SecretCopierRule.t * string))
    : list (v1beta1.SecretCopierRule.t * string) :=
  (trace ++ [(rule, targetNamespace)])%list.

(** The calls of one rule: its target namespaces other than its own. *)
Definition callsOfRule (activeNamespaces : list corev1.Namespace.t)
    (rule : v1beta1.SecretCopierRule.t)
    : list (v1beta1.SecretCopierRule.t * string) :=
  List.map (pair rule)
    (List.filter
       (fun targetNamespace =>
          negb (String.eqb targetNamespace (sourceNamespaceOf rule)))
       (targetNamespacesOf rule activeNamespaces)).

(** Every stored secret sits under its own namespace and name. *)
Definition wellKeyed (w : World) : Prop :=
  forall key obj, secrets w !! key = Some obj -> keyOf obj = key.

(** A byte that stands for itself in a pattern. *)
Definition literalByte (c : ascii) : bool :=
  negb (Ascii.eqb c "*" || Ascii.eqb c "?" || Ascii.eqb c "["
        || Ascii.eqb c "\").

(** A pattern without metacharacter. *)
Fixpoint literalPattern (pattern : string) : bool :=
  match pattern with
  | EmptyString => true
  | String c rest => literalByte c && literalPattern rest
  end.

(** What is left of [s] after the prefix [prefix], if it starts with it. *)
Fixpoint stripPrefix (prefix s : string) : option string :=
  match prefix, s with
  | EmptyString, _ => Some s
  | String c prefix', String c' s' =>
    if Ascii.eqb c' c then stripPrefix prefix' s' else None
  | String _ _, EmptyString => None
  end.

(** An owner reference of a namespace is the owner a selector lists. *)
Definition sameOwner (matchOwner : selectors.OwnerReference.t)
    (ownerReference : metav1.OwnerReference.t) : Prop :=
  selectors.OwnerReference.APIVersion matchOwner
  = metav1.OwnerReference.APIVersion ownerReference /\
  selectors.OwnerReference.Kind matchOwner
  = metav1.OwnerReference.Kind ownerReference /\
  selectors.OwnerReference.Name matchOwner
  = metav1.OwnerReference.Name ownerReference /\
  selectors.OwnerReference.UID matchOwner
  = metav1.OwnerReference.UID ownerReference.

(** The keys a label selector reads. *)
Definition selectorReads (s : selectors.LabelSelector.t) (key : string) : Prop :=
  is_Some (goget (selectors.LabelSelector.MatchLabels s) key) \/
  exists e, In e (selectors.LabelSelector.MatchExpressions s) /\
            metav1.Key e = key.

(** The key a call writes to. *)
Definition callKey (c : call) : string * string :=
  match c with
  | CreateCall obj => keyOf obj
  | UpdateCall obj => keyOf obj
  end.

Definition callObject (c : call) : corev1.Secret.t :=
  match c with
  | CreateCall obj => obj
  | UpdateCall obj => obj
  end.

(** A rule of the SecretCopier has the secret as its source. *)
Definition hasSourceRule (secretCopier : v1beta1.SecretCopier.t)
    (name namespace : string) : Prop :=
  exists rule,
    In rule (v1beta1.SecretCopierSpec.Rules
               (v1beta1.SecretCopier.Spec secretCopier)) /\
    v1beta1.SourceSecret.Name (v1beta1.SecretCopierRule.SourceSecret rule)
    = name /\
    v1beta1.SourceSecret.Namespace (v1beta1.SecretCopierRule.SourceSecret rule)
    = namespace.

(** A rule of the SecretCopier targets the namespace from another one. *)
Definition hasTargetRule (secretCopier : v1beta1.SecretCopier.t)
    (namespace : corev1.Namespace.t) : Prop :=
  exists rule,
    In rule (v1beta1.SecretCopierSpec.Rules
               (v1beta1.SecretCopier.Spec secretCopier)) /\
    sourceNamespaceOf rule <> corev1.Namespace.Name namespace /\
    selectors.TargetNamespaces.Matches
      (v1beta1.SecretCopierRule.TargetNamespaces rule) namespace = true.

End Vocabulary.

(** ** A small cluster, used to exercise the statements *)

Module Scenario.

Definition noSelector : selectors.TargetNamespaces.t :=
  selectors.TargetNamespaces.Build
    (selectors.NameSelector.Build ["ns-dst"])
    (selectors.UIDSelector.Build [])
    (selectors.OwnerSelector.Build [])
    (selectors.LabelSelector.Build None []).

Definition rule : v1beta1.SecretCopierRule.t :=
  v1beta1.SecretCopierRule.Build
    (v1beta1.SourceSecret.Build "db" "ns-src")
    noSelector
    (v1beta1.TargetSecret.Build EmptyString None)
    v1beta1.ReclaimDelete.

Definition copier : v1beta1.SecretCopier.t :=
  v1beta1.SecretCopier.Build
    (metav1.TypeMeta.Build "SecretCopier" "secrets-manager.advok8s.io/v1beta1")
    (metav1.ObjectMeta.Build "copier-1" EmptyString "uid-1" None None [])
    (v1beta1.SecretCopierSpec.Build [rule] 60000000000).

Definition secretOf (namespace name : string)
    (labels annotations : gomap string) (data : gomap string)
    : corev1.Secret.t :=
  corev1.Secret.Build
    (metav1.ObjectMeta.Build name namespace EmptyString labels annotations [])
    "Opaque" data.

(** The source secret, without labels. *)
Definition source : corev1.Secret.t :=
  secretOf "ns-src" "db" None None (Some {[ "k" := "v" ]}).

(** A secret somebody created by hand where the copy would go. *)
Definition manual : corev1.Secret.t :=
  secretOf "ns-dst" "db" None None (Some {[ "k" := "mine" ]}).

Definition worldOf (objs : list corev1.Secret.t) : client.World :=
  client.BuildWorld
    (list_to_map (List.map (fun obj => (client.keyOf obj, obj)) objs))
    {[ "copier-1" := copier ]}
    (inr [namespaceNamed "ns-src"; namespaceNamed "ns-dst"])
    (fun _ => false) (fun _ => false) [].

End Scenario.

Module Stale.

(** The source secret now carries the label [app=v2]. *)
Definition source : corev1.Secret.t :=
  Scenario.secretOf "ns-src" "db" (Some {[ "app" := "v2" ]}) None
                    (Some {[ "k" := "v" ]}).

(** Its managed copy still carries [app=v1]. *)
Definition target : corev1.Secret.t :=
  Scenario.secretOf "ns-dst" "db" (Some {[ "app" := "v1" ]})
    (Some (<[ controller.annotationSecretName := "ns-src/db" ]>
             {[ controller.annotationSecretCopier := "copier-1" ]}))
    (Some {[ "k" := "v" ]}).

Definition world : client.World := Scenario.worldOf [source; target].

End Stale.

(** * Properties *)

(** ** The glob matcher *)

(** Shell-style matching over the whole name, on cases of the library's
    own test table and of the selectors' tests. *)
Example Match_examples :
  filepath.Match "abc" "abc" = (true, None) /\
  filepath.Match "*" "abc" = (true, None) /\
  filepath.Match "*c" "abc" = (true, None) /\
  filepath.Match "a*" "a" = (true, None) /\
  filepath.Match "a*" "ab/c" = (false, None) /\
  filepath.Match "a*/b" "abc/b" = (true, None) /\
  filepath.Match "a*b*c*d*e*/f" "axbxcxdxexxx/f" = (true, None) /\
  filepath.Match "a*b*c*d*e*/f" "axbxcxdxe/xxx/f" = (false, None) /\
  filepath.Match "a*b?c*x" "abxbbxdbxebxczzx" = (true, None) /\
  filepath.Match "a*b?c*x" "abxbbxdbxebxczzy" = (false, None) /\
  filepath.Match "ab[b-d]" "abc" = (true, None) /\
  filepath.Match "ab[e-g]" "abc" = (false, None) /\
  filepath.Match "ab[^b-d]" "abc" = (false, None) /\
  filepath.Match "ab[^e-g]" "abc" = (true, None) /\
  filepath.Match "a\*b" "a*b" = (true, None) /\
  filepath.Match "a\*b" "ab" = (false, None) /\
  filepath.Match "a?b" "a/b" = (false, None) /\
  filepath.Match "[\]a]" "]" = (true, None) /\
  filepath.Match "[x\-]" "-" = (true, None) /\
  filepath.Match "*x" "xxx" = (true, None) /\
  filepath.Match "foo-*" "foo-suffix" = (true, None) /\
  filepath.Match "kube-*" "kube-system" = (true, None) /\
  filepath.Match "kube-*" "kube" = (false, None) /\
  filepath.Match "foo" "foobar" = (false, None) /\
  filepath.Match "oo" "foo" = (false, None) /\
  filepath.Match "[]a]" "]" = (false, Some filepath.ErrBadPattern) /\
  filepath.Match "[-]" "-" = (false, Some filepath.ErrBadPattern) /\
  filepath.Match "[x-]" "x" = (false, Some filepath.ErrBadPattern) /\
  filepath.Match "[a-b-c]" "a" = (false, Some filepath.ErrBadPattern) /\
  filepath.Match "\" "a" = (false, Some filepath.ErrBadPattern) /\
  filepath.Match "[" "a" = (false, Some filepath.ErrBadPattern) /\
  filepath.Match "[^bc" "a" = (false, Some filepath.ErrBadPattern) /\
  filepath.Match "a[" "x" = (false, Some filepath.ErrBadPattern) /\
  filepath.Match "a/b[" "x" = (false, Some filepath.ErrBadPattern).
Proof. vm_compute. repeat split. Qed.

(** A syntax error in a later chunk is reported only when the chunks
    before it match: the error depends on the name, the verdict on a
    malformed pattern does not. *)
Example Match_error_depends_on_name :
  filepath.Match "a*[" "ab" = (false, Some filepath.ErrBadPattern) /\
  filepath.Match "a*[" "a" = (false, Some filepath.ErrBadPattern) /\
  filepath.Match "a*[" "x" = (false, None) /\
  filepath.Match "a*[" "" = (false, None) /\
  filepath.Match "x*y*[" "xz" = (false, None).
Proof. vm_compute. repeat split. Qed.

(** ** The matcher is total: the fuel given by the pattern's length is enough *)

Section MatchTotal.
Import filepath.

Lemma len_string_drop n s : len (string_drop n s) = (len s - n)%nat.
Proof.
  revert s; induction n as [|n IH]; intros [|c s]; simpl; auto.
Qed.

Lemma is_empty_len s : is_empty s = true <-> len s = O.
Proof. destruct s; simpl; split; congruence. Qed.

Lemma head_is_len c s : head_is c s = true -> (1 <= len s)%nat.
Proof. destruct s; simpl; [discriminate | lia]. Qed.

Lemma decode_size_pos c s :
  (1 <= snd (utf8.DecodeRuneInString (String c s)))%nat.
Proof.
  unfold utf8.DecodeRuneInString.
  repeat match goal with
         | |- context [if ?b then _ else _] => destruct b
         | |- context [let '(_, _) := ?p in _] => destruct p
         | |- context [match ?t with EmptyString => _ | String _ _ => _ end] =>
           destruct t
         end; simpl; lia.
Qed.

Lemma getEsc_shorter chunk r chunk' :
  getEsc chunk = (r, chunk', None) -> (len chunk' < len chunk)%nat.
Proof.
  unfold getEsc. destruct chunk as [|c rest]; [discriminate|].
  destruct (Ascii.eqb c "-" || Ascii.eqb c "]"); [discriminate|].
  destruct (Ascii.eqb c "\") eqn:Hb; simpl andb.
  - destruct rest as [|c' rest']; simpl is_empty; cbv iota; [discriminate|].
    pose proof (decode_size_pos c' rest') as Hn.
    destruct (utf8.DecodeRuneInString (String c' rest')) as [r0 n].
    simpl in Hn.
    destruct (is_empty (string_drop n (String c' rest'))); [discriminate|].
    destruct ((r0 =? utf8.RuneError) && Nat.eqb n 1); [discriminate|].
    intros [= _ <-]. rewrite len_string_drop. simpl. lia.
  - pose proof (decode_size_pos c rest) as Hn.
    destruct (utf8.DecodeRuneInString (String c rest)) as [r0 n].
    simpl in Hn.
    destruct (is_empty (string_drop n (String c rest))); [discriminate|].
    destruct ((r0 =? utf8.RuneError) && Nat.eqb n 1); [discriminate|].
    intros [= _ <-]. rewrite len_string_drop. simpl. lia.
Qed.

Lemma parseRanges_total fuel : forall chunk r matched nrange,
  (len chunk < fuel)%nat ->
  exists res, parseRanges fuel chunk r matched nrange = Some res /\
    forall m c, res = inr (m, c) -> (len c < len chunk)%nat.
Proof.
  induction fuel as [|fuel IH]; intros chunk r matched nrange Hlen; [lia|].
  cbn [parseRanges].
  destruct (head_is "]" chunk && Nat.ltb 0 nrange) eqn:Hclose.
  { eexists; split; [reflexivity|]. intros m c [= _ <-].
    apply andb_true_iff in Hclose as [Hhead _].
    destruct chunk; [discriminate Hhead | simpl; lia]. }
  destruct (getEsc chunk) as [[lo chunk0] [e|]] eqn:He.
  { eexists; split; [reflexivity|]. intros; discriminate. }
  apply getEsc_shorter in He.
  destruct (head_is "-" chunk0) eqn:Hdash.
  - destruct (getEsc (string_drop 1 chunk0)) as [[hi chunk1] [e|]] eqn:He'.
    { eexists; split; [reflexivity|]. intros; discriminate. }
    apply getEsc_shorter in He'. rewrite len_string_drop in He'.
    destruct (IH chunk1 r (if (lo <=? r) && (r <=? hi) then true else matched)
                 (S nrange)) as (res & -> & Hres); [lia|].
    eexists; split; [reflexivity|]. intros m c ->.
    specialize (Hres m c eq_refl). lia.
  - destruct (IH chunk0 r (if (lo <=? r) && (r <=? lo) then true else matched)
                 (S nrange)) as (res & -> & Hres); [lia|].
    eexists; split; [reflexivity|]. intros m c ->.
    specialize (Hres m c eq_refl). lia.
Qed.

Lemma class_body_len chunk1 :
  (len (if head_is "^" chunk1 then string_drop 1 chunk1 else chunk1)
   <= len chunk1)%nat.
Proof. destruct (head_is "^" chunk1); rewrite ?len_string_drop; lia. Qed.

Lemma matchChunk_loop_total fuel : forall chunk s failed,
  (len chunk <= fuel)%nat ->
  is_Some (matchChunk_loop fuel chunk s failed).
Proof.
  induction fuel as [|fuel IH]; intros chunk s failed Hlen.
  - destruct chunk; [simpl; eauto | simpl in Hlen; lia].
  - destruct chunk as [|c0 chunk1]; [simpl; eauto|].
    simpl in Hlen. cbn [matchChunk_loop].
    set (failed0 := if negb failed && is_empty s then true else failed).
    destruct (Ascii.eqb c0 "[").
    + destruct (if negb failed0
                then let '(r, n) := utf8.DecodeRuneInString s in
                     (r, string_drop n s)
                else (0, s)) as [r s1].
      pose proof (class_body_len chunk1) as Hle.
      set (body := if head_is "^" chunk1 then string_drop 1 chunk1 else chunk1)
        in *.
      destruct (parseRanges_total (S (len body)) body r false O)
        as (res & -> & Hres); [lia|].
      destruct res as [e|[matched chunk3]]; [eauto|].
      apply IH. specialize (Hres _ _ eq_refl). lia.
    + destruct (Ascii.eqb c0 "?").
      * destruct (if negb failed0 then _ else _) as [f1 s1].
        apply IH. lia.
      * destruct (Ascii.eqb c0 "\").
        -- destruct chunk1 as [|c chunk']; [eauto|].
           destruct (if negb failed0 then _ else _) as [f1 s1].
           apply IH. simpl in Hlen. lia.
        -- destruct (if negb failed0 then _ else _) as [f1 s1].
           apply IH. lia.
Qed.

Lemma matchChunk_opt_total chunk s :
  matchChunk_opt chunk s = Some (matchChunk chunk s).
Proof.
  unfold matchChunk.
  destruct (matchChunk_loop_total (len chunk) chunk s false) as [r Hr];
    [lia|].
  unfold matchChunk_opt. rewrite Hr. reflexivity.
Qed.

Lemma skipStars_spec pattern :
  (len (snd (skipStars pattern)) <= len pattern)%nat /\
  (fst (skipStars pattern) = false -> snd (skipStars pattern) = pattern) /\
  head_is "*" (snd (skipStars pattern)) = false.
Proof.
  induction pattern as [|c p IH].
  - simpl. repeat split; auto.
  - cbn [skipStars].
    destruct (Ascii.eqb c "*") eqn:Hc; cbn [fst snd].
    + destruct IH as (H1 & _ & H3). repeat split.
      * simpl. lia.
      * discriminate.
      * exact H3.
    + repeat split; auto.
Qed.

Lemma scanIndex_pos c p :
  Ascii.eqb c "*" = false -> (1 <= scanIndex (String c p) false)%nat.
Proof.
  intros Hne. simpl.
  destruct (Ascii.eqb c "\"); [destruct p; lia|].
  destruct (Ascii.eqb c "["); [lia|].
  destruct (Ascii.eqb c "]"); [lia|].
  rewrite Hne. lia.
Qed.

Lemma scanChunk_shorter c p star chunk rest :
  scanChunk (String c p) = (star, chunk, rest) ->
  (len rest < len (String c p))%nat.
Proof.
  unfold scanChunk.
  pose proof (skipStars_spec (String c p)) as (H1 & H2 & H3).
  destruct (skipStars (String c p)) as [st p'].
  simpl in H1, H2, H3. intros [= _ _ <-].
  rewrite len_string_drop.
  destruct p' as [|c' p''].
  - destruct st; [simpl; lia|]. specialize (H2 eq_refl). discriminate.
  - pose proof (scanIndex_pos c' p'' H3). simpl in *. lia.
Qed.

Lemma Match_loop_total fuel : forall pattern name,
  (len pattern <= fuel)%nat -> is_Some (Match_loop fuel pattern name).
Proof.
  induction fuel as [|fuel IH]; intros [|c p] name Hlen; simpl in Hlen;
    try (simpl; eauto; fail); try lia.
  cbn [Match_loop].
  destruct (scanChunk (String c p)) as [[st chunk] rest] eqn:Hs.
  apply scanChunk_shorter in Hs. simpl in Hs.
  destruct (st && is_empty chunk); [eauto|].
  destruct (matchChunk chunk name) as [[t ok] err].
  destruct (ok && (is_empty t || negb (is_empty rest))); [apply IH; lia|].
  destruct err as [e|]; [eauto|].
  destruct (if st then starLoop chunk (is_empty rest) name else StarNone);
    [apply IH; lia | eauto | eauto].
Qed.

(** [filepath.Match] always returns: the default of [Match] is never used. *)
Lemma Match_opt_total pattern name :
  Match_opt pattern name = Some (Match pattern name).
Proof.
  unfold Match.
  destruct (Match_loop_total (len pattern) pattern name) as [r Hr]; [lia|].
  unfold Match_opt. rewrite Hr. reflexivity.
Qed.

Lemma Match_loop_err_false fuel : forall pattern name b e,
  Match_loop fuel pattern name = Some (b, Some e) -> b = false.
Proof.
  induction fuel as [|fuel IH]; intros [|c p] name b e; simpl;
    try congruence.
  destruct (scanChunk (String c p)) as [[st chunk] rest].
  destruct (st && is_empty chunk); [congruence|].
  destruct (matchChunk chunk name) as [[t ok] err].
  destruct (ok && (is_empty t || negb (is_empty rest))); [apply IH|].
  destruct err as [e'|]; [congruence|].
  destruct (if st then starLoop chunk (is_empty rest) name else StarNone);
    [apply IH | congruence | congruence].
Qed.

(** Every error return of [filepath.Match] is [return false, err]. *)
Lemma Match_err_false pattern name e :
  snd (Match pattern name) = Some e -> fst (Match pattern name) = false.
Proof.
  pose proof (Match_opt_total pattern name) as Ht.
  destruct (Match pattern name) as [b err]. simpl. intros ->.
  eapply Match_loop_err_false. exact Ht.
Qed.

(** A lone opening bracket is malformed whatever the name is. *)
Lemma Match_open_bracket name :
  Match "[" name = (false, Some ErrBadPattern).
Proof.
  unfold Match, Match_opt. cbn [len String.length Match_loop].
  change (scanChunk "[") with (false, "[", EmptyString).
  cbn [andb is_empty].
  assert (Hc : matchChunk "[" name = (EmptyString, false, Some ErrBadPattern)).
  { unfold matchChunk, matchChunk_opt. cbn [len String.length matchChunk_loop].
    change (Ascii.eqb "[" "[") with true. cbv iota.
    destruct (if negb _ then _ else _) as [r s1].
    reflexivity. }
  rewrite Hc. reflexivity.
Qed.

End MatchTotal.

(** ** A pattern reported malformed on one name matches no name *)

Section MatchErrors.
Import filepath.

(** The class parser stops at the same place, or fails, whatever rune it
    is looking for. *)
Lemma parseRanges_indep fuel : forall chunk r m n r' m',
  match parseRanges fuel chunk r m n with
  | None => parseRanges fuel chunk r' m' n = None
  | Some (inl e) => parseRanges fuel chunk r' m' n = Some (inl e)
  | Some (inr (_, c)) =>
    exists m2, parseRanges fuel chunk r' m' n = Some (inr (m2, c))
  end.
Proof.
  induction fuel as [|fuel IH]; intros chunk r m n r' m'; cbn [parseRanges];
    [reflexivity|].
  destruct (head_is "]" chunk && Nat.ltb 0 n); [eauto|].
  destruct (getEsc chunk) as [[lo chunk0] [e|]]; [reflexivity|].
  destruct (head_is "-" chunk0); [|apply IH].
  destruct (getEsc (string_drop 1 chunk0)) as [[hi chunk1] [e|]];
    [reflexivity | apply IH].
Qed.

Lemma matchChunk_loop_err_indep fuel : forall chunk s f s' f',
  snd <$> matchChunk_loop fuel chunk s f
  = snd <$> matchChunk_loop fuel chunk s' f'.
Proof.
  induction fuel as [|fuel IH]; intros [|c0 chunk1] s f s' f';
    cbn [matchChunk_loop]; try reflexivity;
    try (destruct f, f'; reflexivity).
  set (failed0 := if negb f && is_empty s then true else f).
  set (failed0' := if negb f' && is_empty s' then true else f').
  destruct (Ascii.eqb c0 "[").
  - destruct (if negb failed0 then _ else _) as [r s1].
    destruct (if negb failed0' then _ else _) as [r' s1'].
    set (body := if head_is "^" chunk1 then string_drop 1 chunk1 else chunk1).
    pose proof (parseRanges_indep (S (len body)) body r false O r' false)
      as Hind.
    destruct (parseRanges (S (len body)) body r false O)
      as [[e|[m c]]|].
    + rewrite Hind. reflexivity.
    + destruct Hind as [m2 ->]. apply IH.
    + rewrite Hind. reflexivity.
  - destruct (Ascii.eqb c0 "?").
    + destruct (if negb failed0 then _ else _) as [f1 s1].
      destruct (if negb failed0' then _ else _) as [f1' s1'].
      apply IH.
    + destruct (if Ascii.eqb c0 "\" then chunk1 else String c0 chunk1)
        as [|c chunk']; [reflexivity|].
      destruct (if negb failed0 then _ else _) as [f1 s1].
      destruct (if negb failed0' then _ else _) as [f1' s1'].
      apply IH.
Qed.

(** The error of [matchChunk] is a property of the chunk. *)
Lemma matchChunk_err_indep chunk s s' :
  snd (matchChunk chunk s) = snd (matchChunk chunk s').
Proof.
  pose proof (matchChunk_loop_err_indep (len chunk) chunk s false s' false)
    as H.
  fold (matchChunk_opt chunk s) in H. fold (matchChunk_opt chunk s') in H.
  rewrite !matchChunk_opt_total in H. simpl in H. congruence.
Qed.

Lemma matchChunk_loop_ok fuel : forall chunk s f t err,
  matchChunk_loop fuel chunk s f = Some (t, true, err) -> err = None.
Proof.
  induction fuel as [|fuel IH]; intros [|c0 chunk1] s f t err;
    cbn [matchChunk_loop]; try discriminate;
    try (destruct f; intros [= _ <-]; reflexivity; fail);
    try (destruct f; discriminate).
  set (failed0 := if negb f && is_empty s then true else f).
  destruct (Ascii.eqb c0 "[").
  - destruct (if negb failed0 then _ else _) as [r s1].
    destruct (parseRanges _ _ r false O) as [[e|[m c]]|];
      [discriminate | apply IH | discriminate].
  - destruct (Ascii.eqb c0 "?").
    + destruct (if negb failed0 then _ else _) as [f1 s1]. apply IH.
    + destruct (if Ascii.eqb c0 "\" then chunk1 else String c0 chunk1)
        as [|c chunk']; [discriminate|].
      destruct (if negb failed0 then _ else _) as [f1 s1]. apply IH.
Qed.

Lemma matchChunk_ok chunk s t err :
  matchChunk chunk s = (t, true, err) -> err = None.
Proof.
  intros H. pose proof (matchChunk_opt_total chunk s) as Ht. rewrite H in Ht.
  exact (matchChunk_loop_ok _ _ _ _ _ _ Ht).
Qed.

Lemma starLoop_err chunk last name e :
  starLoop chunk last name = StarErr e ->
  snd (matchChunk chunk EmptyString) = Some e.
Proof.
  induction name as [|c name IH]; simpl; [discriminate|].
  destruct (Ascii.eqb c Separator); [discriminate|].
  pose proof (matchChunk_err_indep chunk name EmptyString) as Hind.
  destruct (matchChunk chunk name) as [[t [|]] [e'|]]; simpl in Hind.
  - destruct (last && negb (is_empty t)); [exact IH | discriminate].
  - destruct (last && negb (is_empty t)); [exact IH | discriminate].
  - intros _. destruct e, e'. symmetry. exact Hind.
  - exact IH.
Qed.

Lemma scanChunk_empty_chunk pattern star rest :
  scanChunk pattern = (star, EmptyString, rest) -> rest = EmptyString.
Proof.
  unfold scanChunk.
  pose proof (skipStars_spec pattern) as (_ & _ & Hstar).
  destruct (skipStars pattern) as [st p']. simpl in Hstar.
  destruct p' as [|c' p'']; [intros [= _ <-]; reflexivity|].
  pose proof (scanIndex_pos c' p'' Hstar) as Hpos.
  destruct (scanIndex (String c' p'') false); [lia | discriminate].
Qed.

(** A pattern on which the loop fails with an error for one name is
    matched by no name: the chunks are scanned in the same order whatever
    the name, the error of a chunk belongs to the chunk, and a chunk with
    an error is never matched. *)
Lemma Match_loop_err_no_match fuel : forall pattern name b e name' err',
  Match_loop fuel pattern name = Some (b, Some e) ->
  Match_loop fuel pattern name' <> Some (true, err').
Proof.
  induction fuel as [|fuel IH]; intros [|c p] name b e name' err';
    cbn [Match_loop]; try discriminate.
  destruct (scanChunk (String c p)) as [[st chunk] rest].
  destruct (st && is_empty chunk); [discriminate|].
  pose proof (matchChunk_err_indep chunk name name') as Hind.
  pose proof (matchChunk_err_indep chunk name EmptyString) as Hind0.
  destruct (matchChunk chunk name) as [[t ok] err] eqn:Hm.
  destruct (matchChunk chunk name') as [[t' ok'] err1] eqn:Hm'.
  simpl in Hind, Hind0. subst err1.
  assert (Hcont : forall t0 t0',
    Match_loop fuel rest t0 = Some (b, Some e) ->
    match (if st then starLoop chunk (is_empty rest) name' else StarNone) with
    | StarFound t1 => Match_loop fuel rest t1
    | StarErr e1 => Some (false, Some e1)
    | StarNone => Some (false, None)
    end <> Some (true, err') /\
    Match_loop fuel rest t0' <> Some (true, err')).
  { intros t0 t0' H0. split; [|exact (IH _ _ _ _ _ _ H0)].
    destruct (if st then starLoop chunk (is_empty rest) name' else StarNone);
      [exact (IH _ _ _ _ _ _ H0) | discriminate | discriminate]. }
  destruct (ok && (is_empty t || negb (is_empty rest))) eqn:Hok.
  { apply andb_true_iff in Hok as [-> _].
    pose proof (matchChunk_ok _ _ _ _ Hm) as ->.
    intros H0. destruct (Hcont t t' H0) as [Hstar Hnext].
    destruct (ok' && (is_empty t' || negb (is_empty rest))); assumption. }
  destruct err as [e0|].
  { intros _.
    destruct ok'; [pose proof (matchChunk_ok _ _ _ _ Hm'); discriminate|].
    discriminate. }
  destruct (if st then starLoop chunk (is_empty rest) name else StarNone)
    as [t1|e1|] eqn:Hstar.
  - intros H0. destruct (Hcont t1 t' H0) as [Hstar' Hnext].
    destruct (ok' && (is_empty t' || negb (is_empty rest))); assumption.
  - destruct st; [|discriminate].
    apply starLoop_err in Hstar. rewrite <- Hind0 in Hstar. discriminate.
  - discriminate.
Qed.

(** The same of [filepath.Match]. *)
Lemma Match_err_no_match pattern name e name' :
  snd (Match pattern name) = Some e -> fst (Match pattern name') = false.
Proof.
  pose proof (Match_opt_total pattern name) as Ht.
  pose proof (Match_opt_total pattern name') as Ht'.
  destruct (Match pattern name) as [b err].
  destruct (Match pattern name') as [[|] err']; [|reflexivity].
  simpl. intros ->.
  destruct (Match_loop_err_no_match _ _ _ _ _ _ _ Ht Ht').
Qed.

End MatchErrors.

(** ** Glob matching as the selectors see it *)

Lemma badPatternOn_not_globMatches pattern name :
  badPatternOn pattern name -> ~ globMatches pattern name.
Proof.
  unfold badPatternOn, globMatches. intros Hbad Hm.
  apply Match_err_false in Hbad. congruence.
Qed.

(** A pattern malformed on some name matches no name at all. *)
Lemma badPattern_not_globMatches pattern name :
  badPattern pattern -> ~ globMatches pattern name.
Proof.
  unfold badPattern, badPatternOn, globMatches. intros [name0 Hbad] Hm.
  apply (Match_err_no_match _ _ _ name) in Hbad. congruence.
Qed.

Lemma globMatch_true name items :
  selectors.globMatch name items = true <->
  exists item, In item items /\ globMatches item name.
Proof.
  unfold globMatches. induction items as [|item items IH]; simpl.
  - split; [discriminate | intros (? & [] & _)].
  - destruct (fst (filepath.Match item name)) eqn:Hm.
    + split; [|reflexivity]. intros _. exists item. auto.
    + rewrite IH. split.
      * intros (p & Hin & Hp). exists p. auto.
      * intros (p & [->|Hin] & Hp); [congruence|]. exists p. auto.
Qed.

Lemma globMatch_false name items :
  selectors.globMatch name items = false <->
  forall item, In item items -> ~ globMatches item name.
Proof.
  rewrite <- not_true_iff_false, globMatch_true. split.
  - intros Hn item Hin Hm. apply Hn. exists item. auto.
  - intros Hall (item & Hin & Hm). exact (Hall item Hin Hm).
Qed.

Lemma globMatch_app name l1 l2 :
  selectors.globMatch name (l1 ++ l2) =
  selectors.globMatch name l1 || selectors.globMatch name l2.
Proof.
  induction l1 as [|p l1 IH]; simpl; [reflexivity|].
  destruct (fst (filepath.Match p name)); [reflexivity | exact IH].
Qed.

Lemma globMatch_all_bad name items :
  Forall badPattern items ->
  selectors.globMatch name items = false.
Proof.
  intros Hall. apply globMatch_false. intros item Hin.
  apply badPattern_not_globMatches.
  rewrite Forall_forall in Hall. apply Hall. apply list_elem_of_In. exact Hin.
Qed.

(** ** Name selector *)

Section NameSelectorFacts.
Import selectors.

Lemma splitNames_partition names : forall excl incl,
  NameSelector.splitNames names excl incl =
  ((excl ++ excludePatterns names)%list,
   (incl ++ includePatterns names)%list).
Proof.
  unfold excludePatterns, includePatterns.
  induction names as [|name names IH]; intros excl incl; simpl.
  - rewrite !app_nil_r. reflexivity.
  - destruct (HasPrefix_bang name); simpl; rewrite IH, <- app_assoc;
      reflexivity.
Qed.

Lemma length_pos_bool {A} (l : list A) :
  Nat.ltb 0 (length l) = negb (Nat.eqb (length l) 0).
Proof. destruct l; reflexivity. Qed.

Lemma length_zero_bool {A} (l : list A) :
  Nat.eqb (length l) 0 = true <-> l = [].
Proof. destruct l; simpl; split; congruence. Qed.

(** [Matches] written with the two pattern lists. *)
Lemma NameSelector_Matches_unfold s name :
  NameSelector.Matches s name =
  negb (Nat.eqb (length (NameSelector.MatchNames s)) 0)
  && (Nat.eqb (length (includePatterns (NameSelector.MatchNames s))) 0
      || globMatch name (includePatterns (NameSelector.MatchNames s)))
  && (Nat.eqb (length (excludePatterns (NameSelector.MatchNames s))) 0
      || negb (globMatch name (excludePatterns (NameSelector.MatchNames s)))).
Proof.
  unfold NameSelector.Matches.
  rewrite splitNames_partition. simpl app.
  rewrite !length_pos_bool.
  destruct (Nat.eqb (length (NameSelector.MatchNames s)) 0); [reflexivity|].
  destruct (Nat.eqb (length (includePatterns _)) 0),
           (globMatch name (includePatterns _)),
           (Nat.eqb (length (excludePatterns _)) 0),
           (globMatch name (excludePatterns _)); reflexivity.
Qed.

End NameSelectorFacts.

(** C4. A name selector with no pattern matches nothing.  Otherwise a
    candidate matches exactly when the include patterns (those without
    the [!] prefix) are absent or one of them glob-matches it, and the
    exclude patterns (prefix stripped) are absent or none of them
    glob-matches it. *)
Theorem NameSelector_Matches_spec (s : selectors.NameSelector.t) (name : string) :
  selectors.NameSelector.Matches s name = true <->
  selectors.NameSelector.MatchNames s <> [] /\
  (includePatterns (selectors.NameSelector.MatchNames s) = [] \/
   exists p, In p (includePatterns (selectors.NameSelector.MatchNames s)) /\
             globMatches p name) /\
  (excludePatterns (selectors.NameSelector.MatchNames s) = [] \/
   forall p, In p (excludePatterns (selectors.NameSelector.MatchNames s)) ->
             ~ globMatches p name).
Proof.
  rewrite NameSelector_Matches_unfold, !andb_true_iff, !orb_true_iff.
  rewrite negb_true_iff, <- not_true_iff_false, !length_zero_bool.
  rewrite globMatch_true, negb_true_iff, globMatch_false.
  tauto.
Qed.

(** Whole-string, shell-style matching on the examples of the selector's
    tests. *)
Example NameSelector_examples :
  selectors.NameSelector.Matches (selectors.NameSelector.Build []) "foo" = false /\
  selectors.NameSelector.Matches (selectors.NameSelector.Build ["foo"]) "foo" = true /\
  selectors.NameSelector.Matches (selectors.NameSelector.Build ["foo"]) "foobar" = false /\
  selectors.NameSelector.Matches (selectors.NameSelector.Build ["foo"; "bar"; "baz"]) "qux" = false /\
  selectors.NameSelector.Matches (selectors.NameSelector.Build ["!foo"]) "foo" = false /\
  selectors.NameSelector.Matches (selectors.NameSelector.Build ["!foo"; "!bar"]) "qux" = true /\
  selectors.NameSelector.Matches (selectors.NameSelector.Build ["foo"; "!bar"; "baz"]) "bar" = false /\
  selectors.NameSelector.Matches (selectors.NameSelector.Build ["!foo"; "bar"; "!baz"]) "bar" = true /\
  selectors.NameSelector.Matches (selectors.NameSelector.Build ["foo-*"]) "foo-suffix" = true /\
  selectors.NameSelector.Matches (selectors.NameSelector.Build ["!foo-*"]) "foo-suffix" = false /\
  selectors.NameSelector.Matches (selectors.NameSelector.Build ["f?o"; "[a-c]*"]) "bar" = true.
Proof. vm_compute. repeat split. Qed.

(** ** Label selector *)

Section LabelSelectorFacts.
Import selectors.

Lemma goentries_In {V} (m : gomap V) key (value : V) :
  In (key, value) (goentries m) <-> goget m key = Some value.
Proof.
  destruct m as [g|]; simpl.
  - rewrite <- list_elem_of_In. apply elem_of_map_to_list.
  - split; [contradiction | discriminate].
Qed.

Lemma matchLabelsLoop_true entries labels :
  LabelSelector.matchLabelsLoop entries labels = true <->
  forall key value, In (key, value) entries -> goget labels key = Some value.
Proof.
  induction entries as [|[k v] entries IH]; simpl.
  - split; [intros _ ? ? [] | reflexivity].
  - destruct (goget labels k) as [label|] eqn:Hk.
    + destruct (String.eqb_spec label v) as [->|Hne]; simpl.
      * rewrite IH. split.
        -- intros H key value [[= <- <-]|Hin]; auto.
        -- intros H key value Hin. apply H. auto.
      * split; [discriminate|]. intros H.
        specialize (H k v (or_introl eq_refl)). congruence.
    + split; [discriminate|]. intros H.
      specialize (H k v (or_introl eq_refl)). congruence.
Qed.

Lemma matchLabelsLoop_goentries matchLabels labels :
  LabelSelector.matchLabelsLoop (goentries matchLabels) labels = true <->
  matchLabelsHold matchLabels labels.
Proof.
  rewrite matchLabelsLoop_true. unfold matchLabelsHold.
  split; intros H key value Hin; apply H, goentries_In, Hin.
Qed.

(** One turn of the loop over the expressions. *)
Lemma matchExpressionsLoop_cons_known e rest labels :
  knownOperator (metav1.Operator e) ->
  (LabelSelector.matchExpressionsLoop (e :: rest) labels = true <->
   expressionHolds labels e /\
   LabelSelector.matchExpressionsLoop rest labels = true).
Proof.
  intros Hop. unfold expressionHolds. cbn [LabelSelector.matchExpressionsLoop].
  destruct (goget labels (metav1.Key e)) as [label|];
    destruct Hop as [-> | [-> | [-> | ->]]]; cbn [String.eqb Ascii.eqb Bool.eqb].
  - destruct (globMatch label (metav1.Values e)) eqn:Hg; simpl.
    + apply globMatch_true in Hg. intuition (eauto; discriminate).
    + rewrite globMatch_false in Hg. split; [discriminate|].
      intros [[(_ & p & Hin & Hp) | [(? & _) | ?]] _]; try discriminate.
      exfalso. eapply Hg; eauto.
  - destruct (globMatch label (metav1.Values e)) eqn:Hg; simpl.
    + apply globMatch_true in Hg. destruct Hg as (p & Hin & Hp).
      split; [discriminate|].
      intros [[(? & _) | [(_ & Hall) | ?]] _]; try discriminate.
      exfalso. eapply Hall; eauto.
    + rewrite globMatch_false in Hg. intuition (eauto; discriminate).
  - intuition (eauto; discriminate).
  - split; [discriminate|].
    intros [[(? & _) | [(? & _) | ?]] _]; discriminate.
  - split; [discriminate|]. intros [[?|?] _]; discriminate.
  - intuition (eauto; discriminate).
  - split; [discriminate|]. intros [[?|?] _]; discriminate.
  - intuition (eauto; discriminate).
Qed.

Lemma matchExpressionsLoop_known exprs labels :
  Forall (fun e => knownOperator (metav1.Operator e)) exprs ->
  (LabelSelector.matchExpressionsLoop exprs labels = true <->
   Forall (expressionHolds labels) exprs).
Proof.
  induction 1 as [|e rest Hop _ IH].
  - simpl. split; [constructor | reflexivity].
  - rewrite (matchExpressionsLoop_cons_known _ _ _ Hop), IH.
    rewrite Forall_cons. reflexivity.
Qed.

Lemma unknown_operator_eqb op :
  ~ knownOperator op ->
  String.eqb op "In" = false /\ String.eqb op "NotIn" = false /\
  String.eqb op "Exists" = false /\ String.eqb op "DoesNotExist" = false.
Proof.
  unfold knownOperator. intros Hn.
  repeat split; apply String.eqb_neq; intros ->; tauto.
Qed.

(** An expression whose operator no [case] names is skipped. *)
Lemma matchExpressionsLoop_cons_unknown e rest labels :
  ~ knownOperator (metav1.Operator e) ->
  LabelSelector.matchExpressionsLoop (e :: rest) labels =
  LabelSelector.matchExpressionsLoop rest labels.
Proof.
  intros Hop. apply unknown_operator_eqb in Hop.
  destruct Hop as (H1 & H2 & H3 & H4).
  cbn [LabelSelector.matchExpressionsLoop]. rewrite H1, H2, H3, H4.
  destruct (goget labels (metav1.Key e)); reflexivity.
Qed.

Lemma matchExpressionsLoop_app l1 l2 labels :
  LabelSelector.matchExpressionsLoop (l1 ++ l2) labels =
  LabelSelector.matchExpressionsLoop l1 labels
  && LabelSelector.matchExpressionsLoop l2 labels.
Proof.
  induction l1 as [|e l1 IH]; [reflexivity|].
  cbn [app LabelSelector.matchExpressionsLoop]. rewrite IH.
  destruct (goget labels (metav1.Key e));
    repeat match goal with
           | |- context [if ?b then _ else _] => destruct b
           end; reflexivity.
Qed.

Lemma LabelSelector_Matches_unfold s labels :
  LabelSelector.Matches s labels =
  negb (LabelSelector.IsEmpty s)
  && LabelSelector.matchLabelsLoop (goentries (LabelSelector.MatchLabels s))
                                   labels
  && LabelSelector.matchExpressionsLoop (LabelSelector.MatchExpressions s)
                                        labels.
Proof.
  unfold LabelSelector.Matches, LabelSelector.IsEmpty.
  destruct (Nat.eqb (golen _) 0 && Nat.eqb (length _) 0); [reflexivity|].
  destruct (LabelSelector.matchLabelsLoop _ labels); reflexivity.
Qed.

Lemma LabelSelector_IsEmpty_false s :
  LabelSelector.IsEmpty s = false <->
  golen (LabelSelector.MatchLabels s) <> O \/
  LabelSelector.MatchExpressions s <> [].
Proof.
  unfold LabelSelector.IsEmpty. rewrite andb_false_iff.
  rewrite <- !not_true_iff_false, length_zero_bool, Nat.eqb_eq. tauto.
Qed.

End LabelSelectorFacts.

(** C5. A label selector with neither a [matchLabels] entry nor an
    expression matches nothing.  Otherwise, with the four operators
    [In], [NotIn], [Exists] and [DoesNotExist], it matches exactly when
    every [matchLabels] entry is present with an equal value and every
    expression holds: on a present key [In] needs a glob match with some
    value, [NotIn] none, [Exists] passes and [DoesNotExist] fails; on an
    absent key [NotIn] and [DoesNotExist] pass, [In] and [Exists] fail. *)
Theorem LabelSelector_Matches_spec
    (s : selectors.LabelSelector.t) (labels : gomap string)
    (Hops : Forall (fun e => knownOperator (metav1.Operator e))
                   (selectors.LabelSelector.MatchExpressions s)) :
  selectors.LabelSelector.Matches s labels = true <->
  (golen (selectors.LabelSelector.MatchLabels s) <> O \/
   selectors.LabelSelector.MatchExpressions s <> []) /\
  matchLabelsHold (selectors.LabelSelector.MatchLabels s) labels /\
  Forall (expressionHolds labels) (selectors.LabelSelector.MatchExpressions s).
Proof.
  rewrite LabelSelector_Matches_unfold, !andb_true_iff, negb_true_iff.
  rewrite LabelSelector_IsEmpty_false, matchLabelsLoop_goentries.
  rewrite (matchExpressionsLoop_known _ _ Hops). tauto.
Qed.

(** C9. An expression whose operator is none of [In], [NotIn], [Exists],
    [DoesNotExist] imposes no constraint: wherever it stands among the
    expressions and whether or not its key is a label, the selector
    matches exactly when the [matchLabels] entries and the other
    expressions do. *)
Theorem LabelSelector_unknown_operator
    (matchLabels labels : gomap string)
    (before after : list metav1.LabelSelectorRequirement)
    (e : metav1.LabelSelectorRequirement)
    (Hop : ~ knownOperator (metav1.Operator e)) :
  selectors.LabelSelector.matchExpressionsLoop [e] labels = true /\
  (selectors.LabelSelector.Matches
     (selectors.LabelSelector.Build matchLabels (before ++ e :: after)) labels
   = true <->
   matchLabelsHold matchLabels labels /\
   selectors.LabelSelector.matchExpressionsLoop (before ++ after) labels = true).
Proof.
  split.
  - rewrite (matchExpressionsLoop_cons_unknown _ _ _ Hop). reflexivity.
  - rewrite LabelSelector_Matches_unfold.
    unfold selectors.LabelSelector.IsEmpty.
    cbn [selectors.LabelSelector.MatchLabels
         selectors.LabelSelector.MatchExpressions].
    assert (Hne : Nat.eqb (golen matchLabels) 0
                  && Nat.eqb (length (before ++ e :: after)) 0 = false).
    { rewrite length_app. simpl. apply andb_false_iff. right.
      apply Nat.eqb_neq. lia. }
    rewrite Hne. cbn [negb andb].
    rewrite !matchExpressionsLoop_app.
    rewrite (matchExpressionsLoop_cons_unknown _ _ _ Hop).
    rewrite !andb_true_iff, matchLabelsLoop_goentries. tauto.
Qed.

(** The statement on a selector with one label and one [In] expression. *)
Lemma LabelSelector_Matches_spec_witness :
  let s := selectors.LabelSelector.Build
             (Some {[ "app" := "web" ]})
             [ {| metav1.Key := "tier"; metav1.Operator := "In";
                  metav1.Values := ["front*"] |} ] in
  let labels : gomap string :=
    Some (<[ "app" := "web" ]> {[ "tier" := "frontend" ]}) in
  Forall (fun e => knownOperator (metav1.Operator e))
         (selectors.LabelSelector.MatchExpressions s) /\
  (selectors.LabelSelector.Matches s labels = true <->
   (golen (selectors.LabelSelector.MatchLabels s) <> O \/
    selectors.LabelSelector.MatchExpressions s <> []) /\
   matchLabelsHold (selectors.LabelSelector.MatchLabels s) labels /\
   Forall (expressionHolds labels) (selectors.LabelSelector.MatchExpressions s)).
Proof.
  intros s labels.
  assert (Hops : Forall (fun e => knownOperator (metav1.Operator e))
                        (selectors.LabelSelector.MatchExpressions s)).
  { repeat constructor. }
  split; [exact Hops | exact (LabelSelector_Matches_spec s labels Hops)].
Defined.

(** A selector made of one expression with the operator [Gt] matches a
    namespace without labels. *)
Lemma LabelSelector_unknown_operator_witness :
  let e := {| metav1.Key := "tier"; metav1.Operator := "Gt";
              metav1.Values := ["3"] |} in
  ~ knownOperator (metav1.Operator e) /\
  selectors.LabelSelector.Matches
    (selectors.LabelSelector.Build None ([] ++ e :: [])) None = true.
Proof.
  intros e.
  assert (Hop : ~ knownOperator (metav1.Operator e)).
  { unfold knownOperator. simpl. intros [H | [H | [H | H]]]; discriminate H. }
  split; [exact Hop|].
  apply (LabelSelector_unknown_operator None None [] [] e Hop).
  split; [intros key value H; discriminate H | reflexivity].
Defined.

(** ** Malformed patterns *)

Section MalformedPatterns.
Import selectors.

Lemma includePatterns_app l1 l2 :
  includePatterns (l1 ++ l2) = (includePatterns l1 ++ includePatterns l2)%list.
Proof. unfold includePatterns. apply List.filter_app. Qed.

Lemma excludePatterns_app l1 l2 :
  excludePatterns (l1 ++ l2) = (excludePatterns l1 ++ excludePatterns l2)%list.
Proof.
  unfold excludePatterns. rewrite List.filter_app. apply List.map_app.
Qed.

Lemma globMatch_skip_bad name l1 p l2 :
  badPattern p ->
  globMatch name (l1 ++ p :: l2) = globMatch name (l1 ++ l2).
Proof.
  intros Hbad. rewrite !globMatch_app. simpl.
  apply (badPattern_not_globMatches _ name), not_true_is_false in Hbad.
  unfold globMatches in Hbad. rewrite Hbad. reflexivity.
Qed.

Lemma empty_or_glob name l :
  Nat.eqb (length l) 0 || negb (globMatch name l) = negb (globMatch name l).
Proof. destruct l; reflexivity. Qed.

Lemma includes_only_id names :
  Forall (fun p => HasPrefix_bang p = false) names ->
  includePatterns names = names.
Proof.
  unfold includePatterns. induction 1 as [|p l Hp _ IH]; simpl; [reflexivity|].
  rewrite Hp. simpl. rewrite IH. reflexivity.
Qed.

End MalformedPatterns.

(** C10. The error of [filepath.Match] is dropped and counts as no
    match.  A malformed pattern, such as [[], matches no candidate; a
    list of includes made only of malformed patterns admits no candidate;
    a malformed exclude pattern excludes none, the selector answering as
    it does without it; and on a present label, [In] over malformed
    values fails while [NotIn] over them passes. *)
Theorem malformed_pattern_never_matches :
  badPattern "[" /\
  (forall pattern name, badPattern pattern -> ~ globMatches pattern name) /\
  (forall includes name,
     Forall (fun p => HasPrefix_bang p = false /\ badPattern p) includes ->
     selectors.NameSelector.Matches (selectors.NameSelector.Build includes) name
     = false) /\
  (forall before pattern after name,
     badPattern pattern ->
     selectors.NameSelector.Matches
       (selectors.NameSelector.Build (before ++ String "!" pattern :: after))
       name
     = match (before ++ after)%list with
       | [] => true
       | _ => selectors.NameSelector.Matches
                (selectors.NameSelector.Build (before ++ after)) name
       end) /\
  (forall labels e rest value,
     goget labels (metav1.Key e) = Some value ->
     Forall badPattern (metav1.Values e) ->
     (metav1.Operator e = "In" ->
      selectors.LabelSelector.matchExpressionsLoop (e :: rest) labels = false) /\
     (metav1.Operator e = "NotIn" ->
      selectors.LabelSelector.matchExpressionsLoop (e :: rest) labels =
      selectors.LabelSelector.matchExpressionsLoop rest labels)).
Proof.
  split; [|split; [|split; [|split]]].
  - exists EmptyString. unfold badPatternOn. rewrite Match_open_bracket.
    reflexivity.
  - intros pattern name Hbad. apply badPattern_not_globMatches. exact Hbad.
  - intros includes name Hall. rewrite NameSelector_Matches_unfold. simpl.
    rewrite includes_only_id
      by (eapply Forall_impl; [exact Hall | intros ? [? _]; assumption]).
    rewrite globMatch_all_bad.
    + destruct includes; reflexivity.
    + eapply Forall_impl; [exact Hall | intros ? [_ ?]; assumption].
  - intros before pattern after name Hbad.
    rewrite !NameSelector_Matches_unfold. simpl selectors.NameSelector.MatchNames.
    rewrite includePatterns_app, excludePatterns_app.
    change (includePatterns (String "!" pattern :: after))
      with (includePatterns after).
    change (excludePatterns (String "!" pattern :: after))
      with (pattern :: excludePatterns after).
    rewrite <- includePatterns_app.
    rewrite !empty_or_glob, (globMatch_skip_bad _ _ _ _ Hbad).
    rewrite <- excludePatterns_app.
    assert (Hlen : Nat.eqb (length (before ++ String "!" pattern :: after)) 0
                   = false).
    { rewrite length_app. simpl. apply Nat.eqb_neq. lia. }
    rewrite Hlen. destruct (before ++ after)%list eqn:Hba; reflexivity.
  - intros labels e rest value Hkey Hall.
    pose proof (globMatch_all_bad value _ Hall) as Hg.
    split; intros Hop; cbn [selectors.LabelSelector.matchExpressionsLoop];
      rewrite Hkey, Hop, Hg; reflexivity.
Qed.

(** The pattern [[] in a name selector and in label expressions. *)
Example malformed_pattern_examples :
  let present : gomap string := Some {[ "tier" := "web" ]} in
  let requirement op :=
    {| metav1.Key := "tier"; metav1.Operator := op; metav1.Values := ["["] |} in
  selectors.NameSelector.Matches (selectors.NameSelector.Build ["["]) "a" = false /\
  selectors.NameSelector.Matches (selectors.NameSelector.Build ["["]) "[" = false /\
  selectors.NameSelector.Matches (selectors.NameSelector.Build ["!["]) "a" = true /\
  selectors.NameSelector.Matches (selectors.NameSelector.Build ["a*"; "!["]) "ab"
  = true /\
  selectors.LabelSelector.Matches
    (selectors.LabelSelector.Build None [requirement "In"]) present = false /\
  selectors.LabelSelector.Matches
    (selectors.LabelSelector.Build None [requirement "NotIn"]) present = true.
Proof. vm_compute. repeat split. Qed.

(** The pattern [a*[], whose error [filepath.Match] reports for the names
    that start with [a] only, is matched by none, reported or not. *)
Example malformed_later_chunk_examples :
  badPattern "a*[" /\
  ~ badPatternOn "a*[" "x" /\
  selectors.NameSelector.Matches (selectors.NameSelector.Build ["a*["]) "ab"
  = false /\
  selectors.NameSelector.Matches (selectors.NameSelector.Build ["a*["]) "x"
  = false /\
  selectors.NameSelector.Matches (selectors.NameSelector.Build ["!a*["]) "ab"
  = true /\
  selectors.NameSelector.Matches (selectors.NameSelector.Build ["!a*["]) "x"
  = true.
Proof.
  split; [exists "ab"; vm_compute; reflexivity|].
  split; [vm_compute; discriminate|].
  vm_compute. repeat split.
Qed.

(** ** Target namespaces *)

Section TargetNamespacesFacts.
Import selectors.

(** The default selector [NameSelector{[]string{"!kube-*"}}]. *)
Lemma default_NameSelector_Matches name :
  NameSelector.Matches (NameSelector.Build ["!kube-*"]) name =
  negb (fst (filepath.Match "kube-*" name)).
Proof.
  unfold NameSelector.Matches.
  change (NameSelector.splitNames
            (NameSelector.MatchNames (NameSelector.Build ["!kube-*"])) [] [])
    with (["kube-*"], @nil string).
  cbn [NameSelector.MatchNames length Nat.eqb Nat.ltb Nat.leb andb globMatch].
  destruct (fst (filepath.Match "kube-*" name)); reflexivity.
Qed.

(** The four checks of [TargetNamespaces.Matches], as a conjunction. *)
Lemma TargetNamespaces_Matches_unfold s namespace :
  TargetNamespaces.Matches s namespace =
  (if NameSelector.IsEmpty (TargetNamespaces.NameSelector s)
   then NameSelector.Matches (NameSelector.Build ["!kube-*"])
                             (corev1.Namespace.Name namespace)
   else NameSelector.Matches (TargetNamespaces.NameSelector s)
                             (corev1.Namespace.Name namespace))
  && (UIDSelector.IsEmpty (TargetNamespaces.UIDSelector s)
      || UIDSelector.Matches (TargetNamespaces.UIDSelector s)
                             (corev1.Namespace.GetUID namespace))
  && (OwnerSelector.IsEmpty (TargetNamespaces.OwnerSelector s)
      || OwnerSelector.Matches (TargetNamespaces.OwnerSelector s)
           (corev1.Namespace.GetOwnerReferences namespace))
  && (LabelSelector.IsEmpty (TargetNamespaces.LabelSelector s)
      || LabelSelector.Matches (TargetNamespaces.LabelSelector s)
           (corev1.Namespace.GetLabels namespace)).
Proof.
  unfold TargetNamespaces.Matches.
  destruct (NameSelector.IsEmpty _);
    destruct (NameSelector.Matches _ _);
    destruct (UIDSelector.IsEmpty _);
    destruct (UIDSelector.Matches _ _);
    destruct (OwnerSelector.IsEmpty _);
    destruct (OwnerSelector.Matches _ _);
    destruct (LabelSelector.IsEmpty _);
    destruct (LabelSelector.Matches _ _); reflexivity.
Qed.

End TargetNamespacesFacts.


(** Without any selector every namespace is a target but those of the
    system. *)
Example TargetNamespaces_examples :
  let nothing :=
    selectors.TargetNamespaces.Build
      (selectors.NameSelector.Build [])
      (selectors.UIDSelector.Build [])
      (selectors.OwnerSelector.Build [])
      (selectors.LabelSelector.Build None []) in
  selectors.TargetNamespaces.Matches nothing (namespaceNamed "kube-system")
  = false /\
  selectors.TargetNamespaces.Matches nothing (namespaceNamed "kube-public")
  = false /\
  selectors.TargetNamespaces.Matches nothing (namespaceNamed "default") = true /\
  selectors.TargetNamespaces.Matches nothing (namespaceNamed "kubernetes")
  = true.
Proof. vm_compute. repeat split. Qed.

(** ** The copy operation *)

Section CopyFacts.
Import client controller.

Lemma managed_iff secretCopier rule targetSecret :
  targetSecretManagedBySecretCopier secretCopier rule targetSecret = true <->
  ownershipAnnotationsMatch secretCopier rule targetSecret.
Proof.
  unfold targetSecretManagedBySecretCopier, ownershipAnnotationsMatch.
  destruct (String.eqb_spec
              (goindex (corev1.Secret.Annotations targetSecret)
                       annotationSecretCopier)
              (v1beta1.SecretCopier.Name secretCopier));
    destruct (String.eqb_spec
                (goindex (corev1.Secret.Annotations targetSecret)
                         annotationSecretName)
                (sourceSecretName rule)); simpl; intuition congruence.
Qed.

Lemma sourceSecretName_nonempty rule : sourceSecretName rule <> EmptyString.
Proof.
  unfold sourceSecretName.
  destruct (v1beta1.SourceSecret.Namespace _); discriminate.
Qed.

(** For a SecretCopier with a name, as every stored object has one, the
    annotations match exactly when both are present with these values. *)
Lemma ownershipAnnotationsMatch_present secretCopier rule targetSecret :
  v1beta1.SecretCopier.Name secretCopier <> EmptyString ->
  (ownershipAnnotationsMatch secretCopier rule targetSecret <->
   goget (corev1.Secret.Annotations targetSecret) annotationSecretCopier
   = Some (v1beta1.SecretCopier.Name secretCopier) /\
   goget (corev1.Secret.Annotations targetSecret) annotationSecretName
   = Some (sourceSecretName rule)).
Proof.
  intros Hname. pose proof (sourceSecretName_nonempty rule) as Hsrc.
  unfold ownershipAnnotationsMatch, goindex.
  destruct (goget _ annotationSecretCopier), (goget _ annotationSecretName);
    simpl; intuition congruence.
Qed.

Lemma copyLabels_lookup src dst key :
  copyLabels src dst !! key =
  match goget src key with
  | Some value => Some value
  | None => dst !! key
  end.
Proof.
  unfold copyLabels.
  assert (Hgen : forall (entries : list (string * string))
                        (dst : gmap string string),
    NoDup (entries.*1) ->
    foldl (fun m kv => <[kv.1 := kv.2]> m) dst entries !! key =
    match (list_to_map entries : gmap string string) !! key with
    | Some value => Some value
    | None => dst !! key
    end).
  { induction entries as [|[k v] entries IH]; intros dst0 Hnd.
    - simpl. rewrite lookup_empty. reflexivity.
    - rewrite fmap_cons in Hnd. apply NoDup_cons in Hnd as [Hnotin Hnd].
      cbn [fst] in Hnotin. cbn [foldl fst snd]. rewrite (IH _ Hnd).
      change (list_to_map ((k, v) :: entries) : gmap string string)
        with (<[k := v]> (list_to_map entries : gmap string string)).
      destruct (decide (k = key)) as [->|Hne].
      + rewrite !lookup_insert_eq.
        rewrite (not_elem_of_list_to_map_1 _ _ Hnotin). reflexivity.
      + rewrite !lookup_insert_ne by exact Hne. reflexivity. }
  destruct src as [g|]; simpl.
  - rewrite Hgen by apply NoDup_fst_map_to_list.
    rewrite list_to_map_to_list. reflexivity.
  - reflexivity.
Qed.

(** The labels of a copy: the rule's labels win, the labels of the
    source fill in. *)
Lemma targetSecretLabels_lookup rule secret key :
  targetSecretLabels rule secret !! key =
  match goget (v1beta1.TargetSecret.Labels
                 (v1beta1.SecretCopierRule.TargetSecret rule)) key with
  | Some value => Some value
  | None => goget (corev1.Secret.Labels secret) key
  end.
Proof.
  unfold targetSecretLabels. rewrite !copyLabels_lookup, lookup_empty.
  destruct (goget (corev1.Secret.Labels secret) key); reflexivity.
Qed.

(** [copySecretToNamespace] past its guard and its two reads. *)
Lemma copySecretToNamespace_unfold secretCopier rule targetNamespace w :
  copySecretToNamespace secretCopier rule targetNamespace w =
  if String.eqb (sourceNamespaceOf rule) targetNamespace then w
  else
    match Get (sourceKeyOf rule) w with
    | inl _ => w
    | inr secret =>
      match Get (targetNamespace, targetSecretNameOf rule) w with
      | inl err =>
        match IgnoreNotFound err with
        | Some _ => w
        | None =>
          snd (Create (newTargetSecret secretCopier rule
                         (targetSecretNameOf rule) targetNamespace secret) w)
        end
      | inr targetSecret =>
        if negb (targetSecretManagedBySecretCopier secretCopier rule
                                                   targetSecret)
        then w
        else if sourceSecretHasBeenUpdated rule secret targetSecret
        then snd (Update (updatedTargetSecret rule secret targetSecret) w)
        else w
      end
    end.
Proof. reflexivity. Qed.

End CopyFacts.

(** C1. An existing target secret whose two ownership annotations do not
    both carry the SecretCopier's name and [sourceNamespace/sourceName]
    is left as it is by the copy operation: the cluster is unchanged and
    no create or update is sent, whatever the rule and the names. *)
Theorem unmanaged_target_untouched
    (secretCopier : v1beta1.SecretCopier.t) (rule : v1beta1.SecretCopierRule.t)
    (targetNamespace : string) (w : client.World)
    (targetSecret : corev1.Secret.t)
    (Hexists : client.secrets w !! (targetNamespace, targetSecretNameOf rule)
               = Some targetSecret)
    (Hunmanaged : ~ ownershipAnnotationsMatch secretCopier rule targetSecret) :
  controller.copySecretToNamespace secretCopier rule targetNamespace w = w.
Proof.
  rewrite copySecretToNamespace_unfold.
  destruct (String.eqb (sourceNamespaceOf rule) targetNamespace); [reflexivity|].
  destruct (client.Get (sourceKeyOf rule) w) as [err|secret]; [reflexivity|].
  unfold client.Get at 1.
  destruct (client.unavailable w (targetNamespace, targetSecretNameOf rule));
    [reflexivity|].
  rewrite Hexists.
  rewrite <- managed_iff in Hunmanaged.
  apply not_true_is_false in Hunmanaged. rewrite Hunmanaged. reflexivity.
Qed.

(** A secret created by hand under the name of the copy stays as it is. *)
Lemma unmanaged_target_untouched_witness :
  client.secrets (Scenario.worldOf [Scenario.source; Scenario.manual])
    !! ("ns-dst", targetSecretNameOf Scenario.rule) = Some Scenario.manual /\
  ~ ownershipAnnotationsMatch Scenario.copier Scenario.rule Scenario.manual /\
  controller.copySecretToNamespace Scenario.copier Scenario.rule "ns-dst"
    (Scenario.worldOf [Scenario.source; Scenario.manual])
  = Scenario.worldOf [Scenario.source; Scenario.manual].
Proof.
  assert (Hexists :
    client.secrets (Scenario.worldOf [Scenario.source; Scenario.manual])
      !! ("ns-dst", targetSecretNameOf Scenario.rule) = Some Scenario.manual).
  { vm_compute. reflexivity. }
  assert (Hunmanaged :
    ~ ownershipAnnotationsMatch Scenario.copier Scenario.rule Scenario.manual).
  { intros [H _]. vm_compute in H. discriminate H. }
  split; [exact Hexists | split; [exact Hunmanaged |]].
  exact (unmanaged_target_untouched Scenario.copier Scenario.rule "ns-dst"
           _ Scenario.manual Hexists Hunmanaged).
Defined.

(** C7. When no target secret exists, the copy operation sends one
    create.  The secret created is named as the rule says in the target
    namespace; its labels are those of the source secret overlaid with
    the rule's labels, the rule winning on a shared key; its annotations
    are exactly the two ownership annotations; it has the SecretCopier as
    owner reference when the reclaim policy is [Delete] and no owner
    reference otherwise; its type and data are those of the source. *)
Theorem created_target_secret
    (secretCopier : v1beta1.SecretCopier.t) (rule : v1beta1.SecretCopierRule.t)
    (targetNamespace : string) (w : client.World) (secret : corev1.Secret.t)
    (Hns : sourceNamespaceOf rule <> targetNamespace)
    (Hsource : client.Get (sourceKeyOf rule) w = inr secret)
    (Habsent : client.Get (targetNamespace, targetSecretNameOf rule) w
               = inl client.NotFound) :
  exists obj,
    client.issued
      (controller.copySecretToNamespace secretCopier rule targetNamespace w)
    = (client.issued w ++ [client.CreateCall obj])%list /\
    (client.rejected w (targetNamespace, targetSecretNameOf rule) = false ->
     client.secrets
       (controller.copySecretToNamespace secretCopier rule targetNamespace w)
     = <[(targetNamespace, targetSecretNameOf rule) := obj]> (client.secrets w)) /\
    client.keyOf obj = (targetNamespace, targetSecretNameOf rule) /\
    (exists labels,
       corev1.Secret.Labels obj = Some labels /\
       forall key,
         labels !! key =
         match goget (v1beta1.TargetSecret.Labels
                        (v1beta1.SecretCopierRule.TargetSecret rule)) key with
         | Some value => Some value
         | None => goget (corev1.Secret.Labels secret) key
         end) /\
    (forall key,
       goget (corev1.Secret.Annotations obj) key =
       if String.eqb key controller.annotationSecretCopier
       then Some (v1beta1.SecretCopier.Name secretCopier)
       else if String.eqb key controller.annotationSecretName
       then Some (controller.sourceSecretName rule)
       else None) /\
    (v1beta1.SecretCopierRule.ReclaimPolicy rule = "Delete" ->
     metav1.ObjectMeta.OwnerReferences (corev1.Secret.ObjectMeta obj)
     = [metav1.OwnerReference.Build
          (v1beta1.SecretCopier.APIVersion secretCopier)
          (v1beta1.SecretCopier.Kind secretCopier)
          (v1beta1.SecretCopier.Name secretCopier)
          (v1beta1.SecretCopier.UID secretCopier)
          (Some true) (Some true)]) /\
    (v1beta1.SecretCopierRule.ReclaimPolicy rule <> "Delete" ->
     metav1.ObjectMeta.OwnerReferences (corev1.Secret.ObjectMeta obj) = []) /\
    corev1.Secret.Type' obj = corev1.Secret.Type' secret /\
    corev1.Secret.Data obj = corev1.Secret.Data secret.
Proof.
  exists (controller.newTargetSecret secretCopier rule
            (targetSecretNameOf rule) targetNamespace secret).
  rewrite copySecretToNamespace_unfold.
  apply String.eqb_neq in Hns. rewrite Hns, Hsource, Habsent.
  cbn [client.IgnoreNotFound].
  unfold client.Get in Habsent.
  destruct (client.unavailable w (targetNamespace, targetSecretNameOf rule));
    [discriminate|].
  destruct (client.secrets w !! (targetNamespace, targetSecretNameOf rule))
    eqn:Hlookup; [discriminate|].
  unfold client.Create.
  change (client.keyOf (controller.newTargetSecret secretCopier rule
            (targetSecretNameOf rule) targetNamespace secret))
    with (targetNamespace, targetSecretNameOf rule).
  cbn [client.record client.rejected client.secrets].
  rewrite Hlookup.
  split; [|split; [|split; [|split; [|split; [|split; [|split; [|split]]]]]]].
  - destruct (client.rejected w _); reflexivity.
  - intros ->. reflexivity.
  - reflexivity.
  - eexists; split; [reflexivity|]. apply targetSecretLabels_lookup.
  - intros key. cbn.
    destruct (String.eqb_spec key controller.annotationSecretCopier) as [->|Hk1].
    + reflexivity.
    + destruct (String.eqb_spec key controller.annotationSecretName) as [->|Hk2].
      * apply lookup_insert_eq.
      * rewrite !lookup_insert_ne by congruence. apply lookup_empty.
  - intros Hpolicy. cbn. unfold controller.ownerReferencesFor.
    rewrite Hpolicy. reflexivity.
  - intros Hpolicy. cbn. unfold controller.ownerReferencesFor.
    apply String.eqb_neq in Hpolicy.
    unfold v1beta1.ReclaimDelete. rewrite Hpolicy. reflexivity.
  - reflexivity.
  - reflexivity.
Qed.

(** The first copy of the scenario: one create, with the data of the
    source and one owner reference. *)
Lemma created_target_secret_witness :
  exists obj,
    client.issued
      (controller.copySecretToNamespace Scenario.copier Scenario.rule "ns-dst"
         (Scenario.worldOf [Scenario.source]))
    = [client.CreateCall obj] /\
    corev1.Secret.Data obj = Some {[ "k" := "v" ]} /\
    length (metav1.ObjectMeta.OwnerReferences (corev1.Secret.ObjectMeta obj))
    = 1%nat.
Proof.
  assert (Hns : sourceNamespaceOf Scenario.rule <> "ns-dst").
  { vm_compute. intros H. discriminate H. }
  assert (Hsource : client.Get (sourceKeyOf Scenario.rule)
                      (Scenario.worldOf [Scenario.source])
                    = inr Scenario.source).
  { vm_compute. reflexivity. }
  assert (Habsent : client.Get ("ns-dst", targetSecretNameOf Scenario.rule)
                      (Scenario.worldOf [Scenario.source])
                    = inl client.NotFound).
  { vm_compute. reflexivity. }
  destruct (created_target_secret Scenario.copier Scenario.rule "ns-dst"
              (Scenario.worldOf [Scenario.source]) Scenario.source
              Hns Hsource Habsent)
    as (obj & Hissued & _ & _ & _ & _ & Howner & _ & _ & Hdata).
  exists obj. split; [exact Hissued | split; [exact Hdata |]].
  rewrite (Howner eq_refl). reflexivity.
Defined.

(** ** The reconciliation pass *)

Section ReconcileFacts.
Import client controller.

Lemma inner_loop_calls {S : Type}
    (copy : v1beta1.SecretCopier.t -> v1beta1.SecretCopierRule.t ->
            string -> S -> S)
    secretCopier rule targetNamespaces : forall s,
  foldl
    (fun s targetNamespace =>
       if negb (String.eqb targetNamespace (sourceNamespaceOf rule))
       then copy secretCopier rule targetNamespace s
       else s)
    s targetNamespaces
  = foldl (fun s call => copy secretCopier (fst call) (snd call) s) s
      (List.map (pair rule)
         (List.filter
            (fun targetNamespace =>
               negb (String.eqb targetNamespace (sourceNamespaceOf rule)))
            targetNamespaces)).
Proof.
  induction targetNamespaces as [|tn tns IH]; intros s; [reflexivity|].
  cbn [foldl List.filter].
  destruct (negb (String.eqb tn (sourceNamespaceOf rule))); cbn; apply IH.
Qed.

Lemma reconcileRules_calls {S : Type}
    (copy : v1beta1.SecretCopier.t -> v1beta1.SecretCopierRule.t ->
            string -> S -> S)
    secretCopier activeNamespaces s :
  reconcileRules copy secretCopier activeNamespaces s
  = foldl (fun s call => copy secretCopier (fst call) (snd call) s) s
      (List.flat_map (callsOfRule activeNamespaces)
         (v1beta1.SecretCopierSpec.Rules
            (v1beta1.SecretCopier.Spec secretCopier))).
Proof.
  unfold reconcileRules.
  generalize (v1beta1.SecretCopierSpec.Rules
                (v1beta1.SecretCopier.Spec secretCopier)).
  intros rules. revert s.
  induction rules as [|rule rules IH]; intros s; [reflexivity|].
  cbn [foldl List.flat_map]. rewrite foldl_app, IH. f_equal.
  unfold callsOfRule.
  destruct (targetNamespacesOf rule activeNamespaces) as [|tn tns] eqn:Htns;
    [reflexivity|].
  cbn [length Nat.eqb]. apply inner_loop_calls.
Qed.

Lemma foldl_traceCopy secretCopier calls : forall trace,
  foldl (fun s call => traceCopy secretCopier (fst call) (snd call) s)
        trace calls
  = (trace ++ calls)%list.
Proof.
  induction calls as [|[rule tn] calls IH]; intros trace; simpl.
  - rewrite app_nil_r. reflexivity.
  - rewrite IH. unfold traceCopy. rewrite <- app_assoc. reflexivity.
Qed.

(** What [reconcileRules] asks of the copy operation, in order. *)
Lemma reconcileRules_trace secretCopier activeNamespaces :
  reconcileRules traceCopy secretCopier activeNamespaces []
  = List.flat_map (callsOfRule activeNamespaces)
      (v1beta1.SecretCopierSpec.Rules
         (v1beta1.SecretCopier.Spec secretCopier)).
Proof. rewrite reconcileRules_calls. apply foldl_traceCopy. Qed.

Lemma targetNamespacesOf_In rule activeNamespaces targetNamespace :
  In targetNamespace (targetNamespacesOf rule activeNamespaces) ->
  targetNamespace <> sourceNamespaceOf rule.
Proof.
  induction activeNamespaces as [|namespace rest IH]; simpl; [tauto|].
  destruct (String.eqb_spec (corev1.Namespace.Name namespace)
              (v1beta1.SourceSecret.Namespace
                 (v1beta1.SecretCopierRule.SourceSecret rule)))
    as [Heq|Hne]; simpl; [exact IH|].
  destruct (selectors.TargetNamespaces.Matches _ namespace); [|exact IH].
  intros [<-|Hin]; [exact Hne | exact (IH Hin)].
Qed.

End ReconcileFacts.

(** C8. Asked to copy into the rule's own source namespace, the copy
    operation returns the cluster as it found it, with nothing sent.  And
    a reconciliation pass does not ask for it: the calls [Reconcile]
    makes to the copy operation, which determine what it does to the
    cluster, never pair a rule with its source namespace, whatever the
    rule's selector says of that namespace. *)
Theorem same_namespace_never_copied :
  (forall secretCopier rule w,
     controller.copySecretToNamespace secretCopier rule
       (sourceNamespaceOf rule) w = w) /\
  (forall secretCopier activeNamespaces rule targetNamespace,
     In (rule, targetNamespace)
        (controller.reconcileRules traceCopy secretCopier activeNamespaces []) ->
     targetNamespace <> sourceNamespaceOf rule) /\
  (forall secretCopier activeNamespaces w,
     controller.reconcileRules controller.copySecretToNamespace
       secretCopier activeNamespaces w
     = foldl (fun w call =>
                controller.copySecretToNamespace secretCopier
                  (fst call) (snd call) w)
         w (controller.reconcileRules traceCopy secretCopier activeNamespaces [])) /\
  (forall req w,
     snd (controller.Reconcile req w) = w \/
     exists secretCopier items,
       client.GetSecretCopier req w = inr secretCopier /\
       client.namespaces w = inr items /\
       snd (controller.Reconcile req w)
       = controller.reconcileRules controller.copySecretToNamespace
           secretCopier (controller.activeNamespacesOf items) w).
Proof.
  split; [|split; [|split]]; cycle 3.
  - intros req w. unfold controller.Reconcile.
    destruct (client.GetSecretCopier req w) as [err|secretCopier].
    { left. destruct (client.IgnoreNotFound err); reflexivity. }
    destruct (Nat.eqb _ 0); [left; reflexivity|].
    destruct (client.namespaces w) as [err|items]; [left; reflexivity|].
    right. exists secretCopier, items.
    destruct (0 <? _); repeat split; reflexivity.
  - intros secretCopier rule w. rewrite copySecretToNamespace_unfold.
    rewrite String.eqb_refl. reflexivity.
  - intros secretCopier activeNamespaces rule targetNamespace.
    rewrite reconcileRules_trace, in_flat_map.
    intros (rule' & _ & Hin). unfold callsOfRule in Hin.
    apply in_map_iff in Hin as (tn & [= <- <-] & Hin).
    apply filter_In in Hin as [Hin _].
    exact (targetNamespacesOf_In _ _ _ Hin).
  - intros secretCopier activeNamespaces w.
    rewrite reconcileRules_trace. apply reconcileRules_calls.
Qed.

(** The pass of the scenario, whose rule would match its own source
    namespace by name, copies into the other namespace only. *)
Example same_namespace_scenario :
  let rule :=
    v1beta1.SecretCopierRule.Build
      (v1beta1.SourceSecret.Build "db" "ns-src")
      (selectors.TargetNamespaces.Build
         (selectors.NameSelector.Build ["ns-*"])
         (selectors.UIDSelector.Build [])
         (selectors.OwnerSelector.Build [])
         (selectors.LabelSelector.Build None []))
      (v1beta1.TargetSecret.Build EmptyString None)
      v1beta1.ReclaimDelete in
  let copier :=
    v1beta1.SecretCopier.Build
      (v1beta1.SecretCopier.TypeMeta Scenario.copier)
      (v1beta1.SecretCopier.ObjectMeta Scenario.copier)
      (v1beta1.SecretCopierSpec.Build [rule] 0) in
  selectors.TargetNamespaces.Matches
    (v1beta1.SecretCopierRule.TargetNamespaces rule) (namespaceNamed "ns-src")
  = true /\
  controller.reconcileRules traceCopy copier
    [namespaceNamed "ns-src"; namespaceNamed "ns-dst"] []
  = [(rule, "ns-dst")].
Proof. vm_compute. split; reflexivity. Qed.

(** ** Deciding whether a copy is stale *)

Section UpdateFacts.
Import client controller.

Lemma mapEqualLoop_true entries b :
  mapEqualLoop entries b = true <->
  forall key value, In (key, value) entries -> goget b key = Some value.
Proof.
  induction entries as [|[k v] entries IH]; simpl.
  - split; [intros _ ? ? [] | reflexivity].
  - destruct (goget b k) as [valueB|] eqn:Hk.
    + destruct (String.eqb_spec v valueB) as [->|Hne]; simpl.
      * rewrite IH. split.
        -- intros H key value [[= <- <-]|Hin]; auto.
        -- intros H key value Hin. apply H. auto.
      * split; [discriminate|]. intros H.
        specialize (H k v (or_introl eq_refl)). congruence.
    + split; [discriminate|]. intros H.
      specialize (H k v (or_introl eq_refl)). congruence.
Qed.

(** The comparison of the data: equal maps, a nil map being equal to
    nil only. *)
Lemma mapStringBytesEqual_spec a b :
  mapStringBytesEqual a b = true <-> a = b.
Proof.
  unfold mapStringBytesEqual.
  destruct a as [ga|], b as [gb|]; simpl; try (split; congruence).
  destruct (Nat.eqb_spec (size ga) (size gb)) as [Hsize|Hsize]; simpl.
  - rewrite mapEqualLoop_true. split.
    + intros H. f_equal. apply map_subseteq_size_eq; [|lia].
      apply map_subseteq_spec. intros key value Hget.
      apply (H key value), list_elem_of_In, elem_of_map_to_list, Hget.
    + intros [= ->] key value Hin.
      apply list_elem_of_In, elem_of_map_to_list in Hin. exact Hin.
  - split; [discriminate | congruence].
Qed.

Lemma mapStringStringEqual_spec a b :
  mapStringStringEqual a b = true <-> a = b.
Proof. exact (mapStringBytesEqual_spec a b). Qed.

(** What the comparison decides: the type, the data, and the labels of
    the source secret against the labels computed from it. *)
Lemma sourceSecretHasBeenUpdated_spec rule sourceSecret targetSecret :
  sourceSecretHasBeenUpdated rule sourceSecret targetSecret = false <->
  corev1.Secret.Type' sourceSecret = corev1.Secret.Type' targetSecret /\
  corev1.Secret.Data sourceSecret = corev1.Secret.Data targetSecret /\
  corev1.Secret.Labels sourceSecret
  = Some (targetSecretLabels rule sourceSecret).
Proof.
  unfold sourceSecretHasBeenUpdated.
  rewrite <- mapStringBytesEqual_spec, <- mapStringStringEqual_spec.
  destruct (String.eqb_spec (corev1.Secret.Type' sourceSecret)
                            (corev1.Secret.Type' targetSecret));
    destruct (mapStringBytesEqual _ _), (mapStringStringEqual _ _); simpl;
    intuition congruence.
Qed.

(** The labels of the target secret are never read: two targets of the
    same type and data get the same answer. *)
Lemma sourceSecretHasBeenUpdated_target_labels rule sourceSecret t1 t2 :
  corev1.Secret.Type' t1 = corev1.Secret.Type' t2 ->
  corev1.Secret.Data t1 = corev1.Secret.Data t2 ->
  sourceSecretHasBeenUpdated rule sourceSecret t1
  = sourceSecretHasBeenUpdated rule sourceSecret t2.
Proof.
  intros Htype Hdata. unfold sourceSecretHasBeenUpdated.
  rewrite Htype, Hdata. reflexivity.
Qed.

(** A source secret without labels is always found updated: its nil
    label map is compared with a map that was allocated. *)
Lemma sourceSecretHasBeenUpdated_nil_labels rule sourceSecret targetSecret :
  corev1.Secret.Labels sourceSecret = None ->
  sourceSecretHasBeenUpdated rule sourceSecret targetSecret = true.
Proof.
  intros Hnil. unfold sourceSecretHasBeenUpdated.
  destruct (negb (String.eqb _ _)); [reflexivity|].
  destruct (negb (mapStringBytesEqual _ _)); [reflexivity|].
  unfold mapStringStringEqual. rewrite Hnil. reflexivity.
Qed.

(** *** Running the copy operation again *)

Lemma newTargetSecret_managed secretCopier rule name namespace secret :
  targetSecretManagedBySecretCopier secretCopier rule
    (newTargetSecret secretCopier rule name namespace secret) = true.
Proof.
  apply managed_iff. split.
  - unfold goindex. cbn.
    rewrite lookup_insert_ne by discriminate.
    rewrite lookup_insert_eq. reflexivity.
  - unfold goindex. cbn. rewrite lookup_insert_eq. reflexivity.
Qed.

Lemma updatedTargetSecret_managed secretCopier rule secret targetSecret :
  targetSecretManagedBySecretCopier secretCopier rule
    (updatedTargetSecret rule secret targetSecret)
  = targetSecretManagedBySecretCopier secretCopier rule targetSecret.
Proof. reflexivity. Qed.

Lemma updatedTargetSecret_again rule secret targetSecret :
  updatedTargetSecret rule secret (updatedTargetSecret rule secret targetSecret)
  = updatedTargetSecret rule secret targetSecret.
Proof. reflexivity. Qed.

Lemma updatedTargetSecret_new secretCopier rule name namespace secret :
  updatedTargetSecret rule secret
    (newTargetSecret secretCopier rule name namespace secret)
  = newTargetSecret secretCopier rule name namespace secret.
Proof. reflexivity. Qed.

(** The calls already sent do not influence what is stored next. *)
Lemma copySecretToNamespace_record secretCopier rule targetNamespace c w :
  secrets (copySecretToNamespace secretCopier rule targetNamespace (record c w))
  = secrets (copySecretToNamespace secretCopier rule targetNamespace w).
Proof.
  rewrite !copySecretToNamespace_unfold.
  destruct (String.eqb (sourceNamespaceOf rule) targetNamespace); [reflexivity|].
  change (Get (sourceKeyOf rule) (record c w)) with (Get (sourceKeyOf rule) w).
  destruct (Get (sourceKeyOf rule) w) as [err|secret]; [reflexivity|].
  change (Get (targetNamespace, targetSecretNameOf rule) (record c w))
    with (Get (targetNamespace, targetSecretNameOf rule) w).
  destruct (Get (targetNamespace, targetSecretNameOf rule) w)
    as [err|targetSecret].
  - destruct (IgnoreNotFound err); [reflexivity|].
    unfold Create. cbn [record rejected secrets].
    destruct (rejected w _); [reflexivity|].
    destruct (secrets w !! _); reflexivity.
  - destruct (negb _); [reflexivity|].
    destruct (sourceSecretHasBeenUpdated _ _ _); [|reflexivity].
    unfold Update. cbn [record rejected secrets].
    destruct (rejected w _); [reflexivity|].
    destruct (secrets w !! _); reflexivity.
Qed.

(** Once a managed, up-to-date-by-construction copy has been written,
    running the operation again leaves the store as it is. *)
Lemma copySecretToNamespace_after_write
    secretCopier rule targetNamespace secret obj c w :
  String.eqb (sourceNamespaceOf rule) targetNamespace = false ->
  Get (sourceKeyOf rule) w = inr secret ->
  unavailable w (targetNamespace, targetSecretNameOf rule) = false ->
  keyOf obj = (targetNamespace, targetSecretNameOf rule) ->
  targetSecretManagedBySecretCopier secretCopier rule obj = true ->
  updatedTargetSecret rule secret obj = obj ->
  secrets (copySecretToNamespace secretCopier rule targetNamespace
             (store obj (record c w)))
  = secrets (store obj (record c w)).
Proof.
  intros Hns Hsource Havail Hkey Hmanaged Hfix.
  rewrite copySecretToNamespace_unfold, Hns.
  assert (Hsource' : Get (sourceKeyOf rule) (store obj (record c w))
                     = inr secret).
  { unfold Get in *. cbn [store record unavailable secrets].
    destruct (unavailable w (sourceKeyOf rule)); [discriminate|].
    rewrite Hkey, lookup_insert_ne; [exact Hsource|].
    unfold sourceKeyOf. intros [= Heq _].
    apply String.eqb_neq in Hns. congruence. }
  rewrite Hsource'.
  assert (Htarget : Get (targetNamespace, targetSecretNameOf rule)
                      (store obj (record c w)) = inr obj).
  { unfold Get. cbn [store record unavailable secrets].
    rewrite Havail, Hkey, lookup_insert_eq. reflexivity. }
  rewrite Htarget, Hmanaged. cbn [negb].
  destruct (sourceSecretHasBeenUpdated rule secret obj); [|reflexivity].
  rewrite Hfix. unfold Update. cbn [store record rejected secrets].
  rewrite lookup_insert_eq.
  destruct (rejected w (keyOf obj)); [reflexivity|].
  cbn [snd store record secrets]. apply insert_insert_eq.
Qed.

(** The store after a second run is the store after the first, whatever
    the second run sends. *)
Lemma copySecretToNamespace_store_idempotent
    secretCopier rule targetNamespace w :
  wellKeyed w ->
  secrets (copySecretToNamespace secretCopier rule targetNamespace
             (copySecretToNamespace secretCopier rule targetNamespace w))
  = secrets (copySecretToNamespace secretCopier rule targetNamespace w).
Proof.
  intros Hkeyed.
  assert (Hsame : forall w',
    copySecretToNamespace secretCopier rule targetNamespace w = w' ->
    (w' = w \/ exists c, w' = record c w) ->
    secrets (copySecretToNamespace secretCopier rule targetNamespace
               (copySecretToNamespace secretCopier rule targetNamespace w))
    = secrets (copySecretToNamespace secretCopier rule targetNamespace w)).
  { intros w' Hrun Hcase. rewrite Hrun. destruct Hcase as [->|[c ->]].
    - rewrite Hrun. reflexivity.
    - rewrite copySecretToNamespace_record, Hrun. reflexivity. }
  pose proof (copySecretToNamespace_unfold secretCopier rule targetNamespace w)
    as Hrun.
  destruct (String.eqb (sourceNamespaceOf rule) targetNamespace) eqn:Hns;
    [apply (Hsame _ Hrun); auto|].
  destruct (Get (sourceKeyOf rule) w) as [err|secret] eqn:Hsource;
    [apply (Hsame _ Hrun); auto|].
  destruct (Get (targetNamespace, targetSecretNameOf rule) w)
    as [err|targetSecret] eqn:Htarget.
  - destruct (IgnoreNotFound err) eqn:Herr; [apply (Hsame _ Hrun); auto|].
    unfold Get in Htarget.
    destruct (unavailable w (targetNamespace, targetSecretNameOf rule))
      eqn:Havail; [destruct err; discriminate|].
    destruct (secrets w !! (targetNamespace, targetSecretNameOf rule))
      eqn:Hlookup; [discriminate|].
    unfold Create in Hrun.
    change (keyOf (newTargetSecret secretCopier rule
              (targetSecretNameOf rule) targetNamespace secret))
      with (targetNamespace, targetSecretNameOf rule) in Hrun.
    cbn [record rejected secrets] in Hrun. rewrite Hlookup in Hrun.
    destruct (rejected w (targetNamespace, targetSecretNameOf rule));
      [apply (Hsame _ Hrun); eauto|].
    rewrite Hrun. cbn [snd].
    apply (copySecretToNamespace_after_write _ _ _ secret); auto.
    apply newTargetSecret_managed.
  - destruct (targetSecretManagedBySecretCopier secretCopier rule targetSecret)
      eqn:Hmanaged; cbn [negb] in Hrun; [|apply (Hsame _ Hrun); auto].
    destruct (sourceSecretHasBeenUpdated rule secret targetSecret);
      [|apply (Hsame _ Hrun); auto].
    unfold Get in Htarget.
    destruct (unavailable w (targetNamespace, targetSecretNameOf rule))
      eqn:Havail; [discriminate|].
    destruct (secrets w !! (targetNamespace, targetSecretNameOf rule))
      as [stored|] eqn:Hlookup; [|discriminate].
    injection Htarget as ->.
    pose proof (Hkeyed _ _ Hlookup) as Hkey.
    unfold Update in Hrun.
    change (keyOf (updatedTargetSecret rule secret targetSecret))
      with (keyOf targetSecret) in Hrun.
    cbn [record rejected secrets] in Hrun. rewrite Hkey, Hlookup in Hrun.
    destruct (rejected w (targetNamespace, targetSecretNameOf rule));
      [apply (Hsame _ Hrun); eauto|].
    rewrite Hrun. cbn [snd].
    apply (copySecretToNamespace_after_write _ _ _ secret); auto.
Qed.

End UpdateFacts.

(** C2, at a source secret without labels: the first run creates the
    copy, and the second run, with nothing changed in between, sends an
    update of it although the copy it finds is the one it wrote. *)
Theorem second_run_updates_again :
  let w0 := Scenario.worldOf [Scenario.source] in
  let w1 := controller.copySecretToNamespace Scenario.copier Scenario.rule
              "ns-dst" w0 in
  let w2 := controller.copySecretToNamespace Scenario.copier Scenario.rule
              "ns-dst" w1 in
  exists created,
    client.issued w1 = [client.CreateCall created] /\
    client.secrets w1 !! ("ns-dst", "db") = Some created /\
    client.issued w2 = [client.CreateCall created; client.UpdateCall created] /\
    client.secrets w2 = client.secrets w1.
Proof.
  eexists. vm_compute. repeat split.
Qed.

(** C3, at a managed copy whose label differs from the effective label:
    type and data agree, the effective labels [app=v2] differ from the
    copy's [app=v1], and the copy operation sends nothing. *)
Theorem stale_labels_not_updated :
  controller.targetSecretManagedBySecretCopier Scenario.copier Scenario.rule
    Stale.target = true /\
  corev1.Secret.Type' Stale.source = corev1.Secret.Type' Stale.target /\
  corev1.Secret.Data Stale.source = corev1.Secret.Data Stale.target /\
  Some (controller.targetSecretLabels Scenario.rule Stale.source)
  <> corev1.Secret.Labels Stale.target /\
  controller.sourceSecretHasBeenUpdated Scenario.rule Stale.source Stale.target
  = false /\
  controller.copySecretToNamespace Scenario.copier Scenario.rule "ns-dst"
    Stale.world = Stale.world.
Proof.
  split; [vm_compute; reflexivity|].
  split; [reflexivity|].
  split; [reflexivity|].
  split; [|split; vm_compute; reflexivity].
  intros H. apply (f_equal (fun m => goget m "app")) in H.
  vm_compute in H. discriminate H.
Qed.


(** * Further properties of the code *)

(** ** UID and owner selectors *)

(** X1. A UID selector matches a UID exactly when the UID is one of those
    it lists; a selector listing none matches nothing. *)
Theorem UIDSelector_Matches_iff (s : selectors.UIDSelector.t) (uid : string) :
  selectors.UIDSelector.Matches s uid = true <->
  In uid (selectors.UIDSelector.MatchUids s).
Proof.
  unfold selectors.UIDSelector.Matches.
  induction (selectors.UIDSelector.MatchUids s) as [|name uids IH]; simpl.
  - split; [discriminate | tauto].
  - destruct (String.eqb_spec name uid) as [->|Hne].
    + split; auto.
    + rewrite IH. split; [auto | intros [Heq|Hin]; [contradiction | exact Hin]].
Qed.

Section OwnerSelectorFacts.
Import selectors.

Lemma OwnerSelector_innerLoop_iff matchOwners ownerReference :
  OwnerSelector.innerLoop matchOwners ownerReference = true <->
  exists matchOwner, In matchOwner matchOwners /\
                     sameOwner matchOwner ownerReference.
Proof.
  unfold sameOwner. induction matchOwners as [|m rest IH]; simpl.
  - split; [discriminate | intros (? & [] & _)].
  - destruct (String.eqb_spec (OwnerReference.APIVersion m)
                (metav1.OwnerReference.APIVersion ownerReference)) as [H1|H1];
    destruct (String.eqb_spec (OwnerReference.Kind m)
                (metav1.OwnerReference.Kind ownerReference)) as [H2|H2];
    destruct (String.eqb_spec (OwnerReference.Name m)
                (metav1.OwnerReference.Name ownerReference)) as [H3|H3];
    destruct (String.eqb_spec (OwnerReference.UID m)
                (metav1.OwnerReference.UID ownerReference)) as [H4|H4];
    simpl;
    try (split; [intros _; exists m; auto | reflexivity]);
    (rewrite IH; split;
     [ intros (m' & Hin & Hm'); exists m'; auto
     | intros (m' & [<-|Hin] & Hm');
       [ destruct Hm' as (? & ? & ? & ?); contradiction
       | exists m'; auto ] ]).
Qed.

End OwnerSelectorFacts.

(** X2. An owner selector matches a list of owner references exactly
    when one of them has the API version, kind, name and UID of one of
    the owners it lists; the other fields of the reference are not
    looked at, and a namespace without owner is never matched. *)
Theorem OwnerSelector_Matches_iff
    (s : selectors.OwnerSelector.t)
    (ownerReferences : list metav1.OwnerReference.t) :
  selectors.OwnerSelector.Matches s ownerReferences = true <->
  exists ownerReference matchOwner,
    In ownerReference ownerReferences /\
    In matchOwner (selectors.OwnerSelector.MatchOwners s) /\
    sameOwner matchOwner ownerReference.
Proof.
  unfold selectors.OwnerSelector.Matches.
  induction ownerReferences as [|ref rest IH]; simpl.
  - split; [discriminate | intros (? & ? & [] & _)].
  - destruct (selectors.OwnerSelector.innerLoop _ ref) eqn:Hinner.
    + apply OwnerSelector_innerLoop_iff in Hinner as (m & Hin & Hm).
      split; [intros _; exists ref, m; auto | reflexivity].
    + rewrite IH. split.
      * intros (r & m & Hr & Hm & Hsame). exists r, m. auto.
      * intros (r & m & [<-|Hr] & Hm & Hsame).
        -- assert (Ht : selectors.OwnerSelector.innerLoop
                          (selectors.OwnerSelector.MatchOwners s) ref = true)
             by (apply OwnerSelector_innerLoop_iff; exists m; auto).
           congruence.
        -- exists r, m. auto.
Qed.

(** ** The four checks of a target-namespace selector *)

(** X3. A namespace is a target exactly when each configured selector
    accepts it: a selector that lists nothing is skipped, except the name
    selector, in whose place the names glob-matching [kube-*] are
    refused. *)
Theorem TargetNamespaces_Matches_iff
    (s : selectors.TargetNamespaces.t) (namespace : corev1.Namespace.t) :
  selectors.TargetNamespaces.Matches s namespace = true <->
  (selectors.NameSelector.MatchNames (selectors.TargetNamespaces.NameSelector s)
   = [] /\ ~ globMatches "kube-*" (corev1.Namespace.Name namespace)
   \/ selectors.NameSelector.Matches (selectors.TargetNamespaces.NameSelector s)
        (corev1.Namespace.Name namespace) = true) /\
  (selectors.UIDSelector.MatchUids (selectors.TargetNamespaces.UIDSelector s)
   = []
   \/ selectors.UIDSelector.Matches (selectors.TargetNamespaces.UIDSelector s)
        (corev1.Namespace.GetUID namespace) = true) /\
  (selectors.OwnerSelector.MatchOwners
     (selectors.TargetNamespaces.OwnerSelector s) = []
   \/ selectors.OwnerSelector.Matches
        (selectors.TargetNamespaces.OwnerSelector s)
        (corev1.Namespace.GetOwnerReferences namespace) = true) /\
  (selectors.LabelSelector.IsEmpty (selectors.TargetNamespaces.LabelSelector s)
   = true
   \/ selectors.LabelSelector.Matches
        (selectors.TargetNamespaces.LabelSelector s)
        (corev1.Namespace.GetLabels namespace) = true).
Proof.
  rewrite TargetNamespaces_Matches_unfold, !andb_true_iff, !orb_true_iff.
  unfold selectors.UIDSelector.IsEmpty, selectors.OwnerSelector.IsEmpty.
  rewrite !length_zero_bool.
  assert (Hname :
    (if selectors.NameSelector.IsEmpty (selectors.TargetNamespaces.NameSelector s)
     then selectors.NameSelector.Matches
            (selectors.NameSelector.Build ["!kube-*"])
            (corev1.Namespace.Name namespace)
     else selectors.NameSelector.Matches
            (selectors.TargetNamespaces.NameSelector s)
            (corev1.Namespace.Name namespace)) = true <->
    (selectors.NameSelector.MatchNames (selectors.TargetNamespaces.NameSelector s)
     = [] /\ ~ globMatches "kube-*" (corev1.Namespace.Name namespace)
     \/ selectors.NameSelector.Matches (selectors.TargetNamespaces.NameSelector s)
          (corev1.Namespace.Name namespace) = true)).
  { unfold selectors.NameSelector.IsEmpty, globMatches.
    rewrite default_NameSelector_Matches.
    destruct (selectors.NameSelector.MatchNames
                (selectors.TargetNamespaces.NameSelector s)) as [|n names] eqn:Hn.
    - simpl. rewrite negb_true_iff, <- not_true_iff_false.
      unfold selectors.NameSelector.Matches. rewrite Hn. simpl.
      split; [auto | intros [[_ H]|H]; [exact H | discriminate]].
    - simpl. split; [auto | intros [[H _]|H]; [discriminate | exact H]]. }
  rewrite Hname. tauto.
Qed.

(** ** Patterns without metacharacter *)

Section LiteralPatterns.
Import filepath.

Lemma literalByte_cases c :
  literalByte c = true ->
  Ascii.eqb c "*" = false /\ Ascii.eqb c "?" = false /\
  Ascii.eqb c "[" = false /\ Ascii.eqb c "\" = false.
Proof.
  unfold literalByte. rewrite negb_true_iff, !orb_false_iff. tauto.
Qed.

Lemma skipStars_literal p :
  literalPattern p = true -> skipStars p = (false, p).
Proof.
  destruct p as [|c p]; [reflexivity|]. simpl. intros H.
  apply andb_true_iff in H as [Hc _].
  apply literalByte_cases in Hc as (-> & _). reflexivity.
Qed.

Lemma scanIndex_literal p :
  literalPattern p = true -> scanIndex p false = len p.
Proof.
  induction p as [|c p IH]; [reflexivity|]. simpl. intros H.
  apply andb_true_iff in H as [Hc Hp].
  apply literalByte_cases in Hc as (-> & _ & -> & ->).
  destruct (Ascii.eqb c "]"); rewrite (IH Hp); reflexivity.
Qed.

Lemma string_take_all p : string_take (len p) p = p.
Proof. induction p as [|c p IH]; simpl; [|rewrite IH]; reflexivity. Qed.

Lemma string_drop_all p : string_drop (len p) p = EmptyString.
Proof. induction p as [|c p IH]; simpl; [|rewrite IH]; reflexivity. Qed.

Lemma scanChunk_literal p :
  literalPattern p = true -> scanChunk p = (false, p, EmptyString).
Proof.
  intros H. unfold scanChunk.
  rewrite (skipStars_literal _ H), (scanIndex_literal _ H).
  rewrite string_take_all, string_drop_all. reflexivity.
Qed.

(** A chunk of literal bytes is matched byte for byte against the head
    of the name. *)
Lemma matchChunk_loop_literal p : forall fuel s failed,
  literalPattern p = true -> (len p <= fuel)%nat ->
  matchChunk_loop fuel p s failed =
  Some (match (if failed then None else stripPrefix p s) with
        | Some t => (t, true, None)
        | None => (EmptyString, false, None)
        end).
Proof.
  induction p as [|c p IH]; intros fuel s failed Hlit Hlen.
  - destruct fuel, failed; reflexivity.
  - simpl in Hlit, Hlen. apply andb_true_iff in Hlit as [Hc Hp].
    destruct fuel as [|fuel]; [lia|].
    apply literalByte_cases in Hc as (_ & Hq & Hb & Hs).
    cbn [matchChunk_loop]. rewrite Hb, Hq, Hs.
    destruct failed; cbn [negb andb].
    + rewrite (IH fuel s true Hp) by lia. reflexivity.
    + destruct s as [|c' s']; cbn [is_empty negb head_is string_drop stripPrefix].
      * rewrite (IH fuel EmptyString true Hp) by lia. reflexivity.
      * destruct (Ascii.eqb c' c).
        -- rewrite (IH fuel s' false Hp) by lia. reflexivity.
        -- rewrite (IH fuel s' true Hp) by lia. reflexivity.
Qed.

Lemma matchChunk_literal p s :
  literalPattern p = true ->
  matchChunk p s = match stripPrefix p s with
                   | Some t => (t, true, None)
                   | None => (EmptyString, false, None)
                   end.
Proof.
  intros H. unfold matchChunk, matchChunk_opt.
  rewrite (matchChunk_loop_literal p (len p) s false H) by lia. reflexivity.
Qed.

Lemma stripPrefix_empty_eqb p s :
  match stripPrefix p s with
  | Some t => is_empty t
  | None => false
  end = String.eqb p s.
Proof.
  revert s. induction p as [|c p IH]; intros [|c' s]; simpl; try reflexivity.
  rewrite Ascii.eqb_sym. destruct (Ascii.eqb c c'); [apply IH | reflexivity].
Qed.

(** On a literal pattern the matcher is string equality, without error. *)
Lemma Match_literal p name :
  literalPattern p = true -> Match p name = (String.eqb p name, None).
Proof.
  intros Hlit. unfold Match, Match_opt.
  destruct p as [|c p].
  - destruct name; reflexivity.
  - cbn [len String.length Match_loop].
    rewrite (scanChunk_literal _ Hlit). cbn [andb is_empty negb orb].
    rewrite (matchChunk_literal _ _ Hlit).
    pose proof (stripPrefix_empty_eqb (String c p) name) as Heq.
    destruct (stripPrefix (String c p) name) as [t|].
    + rewrite orb_false_r. destruct (is_empty t) eqn:Ht; cbn [andb].
      * destruct t; [|discriminate]. rewrite <- Heq.
        destruct (String.length p); reflexivity.
      * rewrite <- Heq. destruct (String.length p); reflexivity.
    + cbn [andb]. rewrite <- Heq. destruct (String.length p); reflexivity.
Qed.

Lemma globMatch_literal name items :
  Forall (fun p => literalPattern p = true) items ->
  selectors.globMatch name items = true <-> In name items.
Proof.
  induction 1 as [|p items Hp _ IH]; simpl.
  - split; [discriminate | tauto].
  - rewrite (Match_literal _ name Hp). cbn [fst].
    destruct (String.eqb_spec p name) as [->|Hne].
    + split; auto.
    + rewrite IH. split; [auto | intros [Heq|Hin]; [contradiction | exact Hin]].
Qed.

End LiteralPatterns.

(** X4. A pattern without [*], [?], [[] and backslash matches its own
    text and nothing else, and is never reported malformed. *)
Theorem literal_pattern_matches_itself (pattern name : string)
    (Hliteral : literalPattern pattern = true) :
  (globMatches pattern name <-> name = pattern) /\ ~ badPattern pattern.
Proof.
  split.
  - unfold globMatches. rewrite (Match_literal _ _ Hliteral). cbn [fst].
    rewrite String.eqb_eq. split; congruence.
  - intros [name' Hbad]. unfold badPatternOn in Hbad.
    rewrite (Match_literal _ _ Hliteral) in Hbad. discriminate Hbad.
Qed.

(** The name [kube-system] as a pattern. *)
Lemma literal_pattern_matches_itself_witness :
  literalPattern "kube-system" = true /\
  (globMatches "kube-system" "kube-system-2" <-> "kube-system-2" = "kube-system").
Proof.
  split; [reflexivity|].
  exact (proj1 (literal_pattern_matches_itself "kube-system" "kube-system-2"
                  eq_refl)).
Defined.

(** X5. A name selector whose patterns are plain names, some of them
    negated, matches a name exactly when it lists a pattern, the name is
    one of the plain ones if there is any, and the name is not a negated
    one. *)
Theorem NameSelector_plain_names (names : list string) (name : string)
    (Hincludes : Forall (fun p => literalPattern p = true)
                        (includePatterns names))
    (Hexcludes : Forall (fun p => literalPattern p = true)
                        (excludePatterns names)) :
  selectors.NameSelector.Matches (selectors.NameSelector.Build names) name = true
  <->
  names <> [] /\
  (includePatterns names = [] \/ In name (includePatterns names)) /\
  ~ In name (excludePatterns names).
Proof.
  rewrite NameSelector_Matches_unfold. cbn [selectors.NameSelector.MatchNames].
  rewrite !andb_true_iff, !orb_true_iff, !negb_true_iff.
  rewrite <- !not_true_iff_false, !length_zero_bool.
  rewrite (globMatch_literal name _ Hincludes).
  rewrite (globMatch_literal name _ Hexcludes).
  split.
  - intros [[Hne Hinc] [Hemp|Hexc]]; repeat split; auto.
    rewrite Hemp. simpl. tauto.
  - intros (Hne & Hinc & Hexc). auto.
Qed.

(** The selector of the tests with two plain names and a negated one. *)
Lemma NameSelector_plain_names_witness :
  selectors.NameSelector.Matches
    (selectors.NameSelector.Build ["foo"; "!bar"; "baz"]) "baz" = true.
Proof.
  apply (NameSelector_plain_names ["foo"; "!bar"; "baz"] "baz").
  - repeat constructor.
  - repeat constructor.
  - split; [discriminate|]. split.
    + right. simpl. auto.
    + simpl. intros [H|[]]. discriminate H.
Defined.

(** ** The order of the patterns *)

Section PatternSets.
Import selectors.

Lemma members_empty {A} (l l' : list A) :
  (forall x, In x l <-> In x l') ->
  Nat.eqb (length l) 0 = Nat.eqb (length l') 0.
Proof.
  intros H. destruct l as [|a l], l' as [|a' l']; try reflexivity; exfalso.
  - apply (proj2 (H a')). left. reflexivity.
  - apply (proj1 (H a)). left. reflexivity.
Qed.

Lemma members_globMatch name l l' :
  (forall p, In p l <-> In p l') -> globMatch name l = globMatch name l'.
Proof.
  intros H. apply eq_true_iff_eq. rewrite !globMatch_true.
  split; intros (p & Hin & Hp); exists p; split; auto; apply H; exact Hin.
Qed.

Lemma members_includePatterns names names' :
  (forall p, In p names <-> In p names') ->
  forall p, In p (includePatterns names) <-> In p (includePatterns names').
Proof.
  intros H p. unfold includePatterns. rewrite !filter_In, H. reflexivity.
Qed.

Lemma members_excludePatterns names names' :
  (forall p, In p names <-> In p names') ->
  forall p, In p (excludePatterns names) <-> In p (excludePatterns names').
Proof.
  intros H p. unfold excludePatterns. rewrite !in_map_iff.
  split; intros (x & Hx & Hin); exists x; split; auto;
    rewrite filter_In in *; rewrite H in *; exact Hin.
Qed.

End PatternSets.

(** X6. A name selector answers by the set of its patterns: two lists
    with the same patterns, in any order and any number of copies, match
    the same names. *)
Theorem NameSelector_order_irrelevant (names names' : list string) (name : string)
    (Hsame : forall p, In p names <-> In p names') :
  selectors.NameSelector.Matches (selectors.NameSelector.Build names) name
  = selectors.NameSelector.Matches (selectors.NameSelector.Build names') name.
Proof.
  rewrite !NameSelector_Matches_unfold. cbn [selectors.NameSelector.MatchNames].
  rewrite (members_empty _ _ Hsame).
  rewrite (members_empty _ _ (members_includePatterns _ _ Hsame)).
  rewrite (members_empty _ _ (members_excludePatterns _ _ Hsame)).
  rewrite (members_globMatch name _ _ (members_includePatterns _ _ Hsame)).
  rewrite (members_globMatch name _ _ (members_excludePatterns _ _ Hsame)).
  reflexivity.
Qed.

(** A selector and the same patterns reversed, one of them repeated. *)
Lemma NameSelector_order_irrelevant_witness :
  selectors.NameSelector.Matches
    (selectors.NameSelector.Build ["foo-*"; "!foo-x"]) "foo-y"
  = selectors.NameSelector.Matches
      (selectors.NameSelector.Build ["!foo-x"; "foo-*"; "!foo-x"]) "foo-y".
Proof.
  apply (NameSelector_order_irrelevant
           ["foo-*"; "!foo-x"] ["!foo-x"; "foo-*"; "!foo-x"] "foo-y").
  intros p. simpl. tauto.
Defined.

(** ** The labels a selector reads *)

Section LabelReads.
Import selectors.

Lemma matchLabelsLoop_reads entries labels labels' :
  (forall key value, In (key, value) entries ->
                     goget labels key = goget labels' key) ->
  LabelSelector.matchLabelsLoop entries labels
  = LabelSelector.matchLabelsLoop entries labels'.
Proof.
  induction entries as [|[k v] entries IH]; intros H; [reflexivity|].
  cbn [LabelSelector.matchLabelsLoop].
  rewrite <- (H k v (or_introl eq_refl)).
  rewrite IH by (intros key value Hin; apply (H key value); right; exact Hin).
  reflexivity.
Qed.

Lemma matchExpressionsLoop_reads exprs labels labels' :
  (forall e, In e exprs ->
             goget labels (metav1.Key e) = goget labels' (metav1.Key e)) ->
  LabelSelector.matchExpressionsLoop exprs labels
  = LabelSelector.matchExpressionsLoop exprs labels'.
Proof.
  induction exprs as [|e exprs IH]; intros H; [reflexivity|].
  cbn [LabelSelector.matchExpressionsLoop].
  rewrite <- (H e (or_introl eq_refl)).
  rewrite IH by (intros e' Hin; apply H; right; exact Hin).
  reflexivity.
Qed.

End LabelReads.

(** X7. A label selector looks only at the labels whose keys it names: two
    label maps that agree on the keys of its [matchLabels] entries and of
    its expressions get the same answer, whatever other labels they
    carry. *)
Theorem LabelSelector_reads_only_its_keys
    (s : selectors.LabelSelector.t) (labels labels' : gomap string)
    (Hagree : forall key, selectorReads s key ->
                          goget labels key = goget labels' key) :
  selectors.LabelSelector.Matches s labels
  = selectors.LabelSelector.Matches s labels'.
Proof.
  rewrite !LabelSelector_Matches_unfold.
  rewrite (matchLabelsLoop_reads _ labels labels').
  - rewrite (matchExpressionsLoop_reads _ labels labels'); [reflexivity|].
    intros e Hin. apply Hagree. right. exists e. auto.
  - intros key value Hin. apply Hagree. left.
    apply goentries_In in Hin. rewrite Hin. eauto.
Qed.

(** A namespace labelled [app=web] and the same with a second label. *)
Lemma LabelSelector_reads_only_its_keys_witness :
  let s := selectors.LabelSelector.Build (Some {[ "app" := "web" ]}) [] in
  selectors.LabelSelector.Matches s (Some {[ "app" := "web" ]})
  = selectors.LabelSelector.Matches s
      (Some (<[ "team" := "a" ]> {[ "app" := "web" ]})).
Proof.
  intros s.
  apply (LabelSelector_reads_only_its_keys s).
  intros key [[value Hget]|(e & [] & _)].
  destruct (String.eqb_spec key "app") as [->|Hne]; [reflexivity|].
  simpl in Hget. rewrite lookup_singleton_ne in Hget by congruence.
  discriminate Hget.
Defined.

(** X8. For a value without metacharacter, a [matchLabels] entry and an
    [In] expression over that single value select the same label maps,
    as the comment of [MatchLabels] says. *)
Theorem matchLabels_entry_as_In_expression
    (key value : string) (labels : gomap string)
    (Hliteral : literalPattern value = true) :
  selectors.LabelSelector.Matches
    (selectors.LabelSelector.Build (Some {[ key := value ]}) []) labels
  = selectors.LabelSelector.Matches
      (selectors.LabelSelector.Build None
         [ {| metav1.Key := key; metav1.Operator := "In";
              metav1.Values := [value] |} ]) labels.
Proof.
  unfold selectors.LabelSelector.Matches.
  cbn [selectors.LabelSelector.MatchLabels
       selectors.LabelSelector.MatchExpressions golen goentries length].
  rewrite map_size_singleton, map_to_list_singleton.
  cbn [Nat.eqb andb selectors.LabelSelector.matchLabelsLoop
       selectors.LabelSelector.matchExpressionsLoop negb
       metav1.Key metav1.Operator metav1.Values selectors.globMatch].
  destruct (goget labels key) as [label|]; [|reflexivity].
  rewrite (Match_literal _ label Hliteral). cbn [fst].
  rewrite (String.eqb_sym value label).
  change (String.eqb "In" "In") with true. cbv iota.
  destruct (String.eqb label value); reflexivity.
Qed.

(** The entry [app=web]. *)
Lemma matchLabels_entry_as_In_expression_witness :
  selectors.LabelSelector.Matches
    (selectors.LabelSelector.Build (Some {[ "app" := "web" ]}) [])
    (Some {[ "app" := "website" ]})
  = selectors.LabelSelector.Matches
      (selectors.LabelSelector.Build None
         [ {| metav1.Key := "app"; metav1.Operator := "In";
              metav1.Values := ["web"] |} ])
      (Some {[ "app" := "website" ]}).
Proof.
  exact (matchLabels_entry_as_In_expression "app" "web"
           (Some {[ "app" := "website" ]}) eq_refl).
Defined.

(** With a metacharacter in the value the two differ: the entry wants
    the label to be the text [web*], the expression glob-matches it. *)
Example matchLabels_entry_differs_from_In :
  selectors.LabelSelector.Matches
    (selectors.LabelSelector.Build (Some {[ "app" := "web*" ]}) [])
    (Some {[ "app" := "website" ]}) = false /\
  selectors.LabelSelector.Matches
    (selectors.LabelSelector.Build None
       [ {| metav1.Key := "app"; metav1.Operator := "In";
            metav1.Values := ["web*"] |} ])
    (Some {[ "app" := "website" ]}) = true.
Proof. vm_compute. split; reflexivity. Qed.

(** ** What the comparison of source and copy looks at *)

(** X9. The two map comparisons of [sourceSecretHasBeenUpdated] answer
    true exactly on equal maps, a nil map being equal to a nil map only:
    a nil map and an allocated empty one count as different, in both
    directions. *)
Theorem map_comparisons_exact (a b : gomap string) :
  (controller.mapStringBytesEqual a b = true <-> a = b) /\
  (controller.mapStringStringEqual a b = true <-> a = b) /\
  controller.mapStringBytesEqual None (Some ∅) = false /\
  controller.mapStringBytesEqual (Some ∅) None = false.
Proof.
  split; [apply mapStringBytesEqual_spec|].
  split; [apply mapStringStringEqual_spec|].
  split; reflexivity.
Qed.

Section UpdateDecision.
Import client controller.

Lemma labels_fixed_by_overlay rule sourceSecret (g : gmap string string) :
  corev1.Secret.Labels sourceSecret = Some g ->
  (targetSecretLabels rule sourceSecret = g <->
   forall key value,
     goget (v1beta1.TargetSecret.Labels
              (v1beta1.SecretCopierRule.TargetSecret rule)) key = Some value ->
     g !! key = Some value).
Proof.
  intros Hg. split.
  - intros Heq key value Hrule. rewrite <- Heq.
    rewrite targetSecretLabels_lookup, Hrule. reflexivity.
  - intros Hsub. apply map_eq. intros key.
    rewrite targetSecretLabels_lookup, Hg. simpl.
    destruct (goget _ key) as [value|] eqn:Hrule; [|reflexivity].
    symmetry. apply Hsub. exact Hrule.
Qed.

End UpdateDecision.

(** X10. An existing managed copy is judged up to date exactly when its
    type and data are those of the source secret, the source secret has
    a label map, and every label the rule sets is already a label of the
    source secret with that value.  The labels of the copy play no
    part. *)
Theorem sourceSecretHasBeenUpdated_decision
    (rule : v1beta1.SecretCopierRule.t)
    (sourceSecret targetSecret : corev1.Secret.t) :
  controller.sourceSecretHasBeenUpdated rule sourceSecret targetSecret = false
  <->
  corev1.Secret.Type' sourceSecret = corev1.Secret.Type' targetSecret /\
  corev1.Secret.Data sourceSecret = corev1.Secret.Data targetSecret /\
  exists sourceLabels,
    corev1.Secret.Labels sourceSecret = Some sourceLabels /\
    forall key value,
      goget (v1beta1.TargetSecret.Labels
               (v1beta1.SecretCopierRule.TargetSecret rule)) key = Some value ->
      sourceLabels !! key = Some value.
Proof.
  rewrite sourceSecretHasBeenUpdated_spec. split.
  - intros (Htype & Hdata & Hlabels). repeat split; auto.
    destruct (corev1.Secret.Labels sourceSecret) as [g|] eqn:Hg;
      [|discriminate].
    exists g. split; [reflexivity|].
    apply (labels_fixed_by_overlay rule sourceSecret g Hg). congruence.
  - intros (Htype & Hdata & g & Hg & Hsub). repeat split; auto.
    rewrite Hg. f_equal. symmetry.
    apply (labels_fixed_by_overlay rule sourceSecret g Hg). exact Hsub.
Qed.

(** ** What one run of the copy operation does to the cluster *)

Section CopyStep.
Import client controller.

(** One run does nothing, or sends one call for the target key with an
    object carrying the ownership annotations, stored or not. *)
Lemma copySecretToNamespace_step secretCopier rule targetNamespace w :
  wellKeyed w ->
  copySecretToNamespace secretCopier rule targetNamespace w = w \/
  exists c,
    callKey c = (targetNamespace, targetSecretNameOf rule) /\
    ownershipAnnotationsMatch secretCopier rule (callObject c) /\
    (copySecretToNamespace secretCopier rule targetNamespace w = record c w \/
     copySecretToNamespace secretCopier rule targetNamespace w
     = store (callObject c) (record c w)).
Proof.
  intros Hkeyed. rewrite copySecretToNamespace_unfold.
  destruct (String.eqb (sourceNamespaceOf rule) targetNamespace); [auto|].
  destruct (Get (sourceKeyOf rule) w) as [err|secret]; [auto|].
  destruct (Get (targetNamespace, targetSecretNameOf rule) w)
    as [err|targetSecret] eqn:Htarget.
  - destruct (IgnoreNotFound err); [auto|]. right.
    exists (CreateCall (newTargetSecret secretCopier rule
                          (targetSecretNameOf rule) targetNamespace secret)).
    split; [reflexivity|]. split.
    + apply managed_iff, newTargetSecret_managed.
    + unfold Create. cbn [record rejected secrets callObject].
      destruct (rejected w _); [left; reflexivity|].
      destruct (secrets w !! _); [left | right]; reflexivity.
  - destruct (targetSecretManagedBySecretCopier secretCopier rule targetSecret)
      eqn:Hmanaged; cbn [negb]; [|auto].
    destruct (sourceSecretHasBeenUpdated rule secret targetSecret); [|auto].
    right. exists (UpdateCall (updatedTargetSecret rule secret targetSecret)).
    assert (Hlookup : secrets w !! (targetNamespace, targetSecretNameOf rule)
                      = Some targetSecret).
    { unfold Get in Htarget. destruct (unavailable w _); [discriminate|].
      destruct (secrets w !! (targetNamespace, targetSecretNameOf rule));
        [congruence | discriminate]. }
    split; [exact (Hkeyed _ _ Hlookup)|]. split.
    + apply managed_iff. cbn [callObject].
      rewrite updatedTargetSecret_managed. exact Hmanaged.
    + unfold Update. cbn [record rejected secrets callObject].
      change (keyOf (updatedTargetSecret rule secret targetSecret))
        with (keyOf targetSecret).
      rewrite (Hkeyed _ _ Hlookup), Hlookup.
      destruct (rejected w _); [left | right]; reflexivity.
Qed.

Lemma wellKeyed_record c w : wellKeyed w -> wellKeyed (record c w).
Proof. intros H. exact H. Qed.

Lemma wellKeyed_store obj w : wellKeyed w -> wellKeyed (store obj w).
Proof.
  intros H key obj'. cbn [store secrets].
  destruct (decide (keyOf obj = key)) as [<-|Hne].
  - rewrite lookup_insert_eq. intros [= <-]. reflexivity.
  - rewrite lookup_insert_ne by exact Hne. apply H.
Qed.

Lemma copySecretToNamespace_wellKeyed secretCopier rule targetNamespace w :
  wellKeyed w ->
  wellKeyed (copySecretToNamespace secretCopier rule targetNamespace w).
Proof.
  intros H.
  destruct (copySecretToNamespace_step secretCopier rule targetNamespace w H)
    as [->|(c & _ & _ & [->| ->])]; auto using wellKeyed_record, wellKeyed_store.
Qed.

End CopyStep.

(** X11. One run of the copy operation touches nothing but the target
    secret: in a store whose secrets sit under their own names, every
    other secret, the source secret among them, and the SecretCopiers
    and namespaces are as before, and the store keeps that shape. *)
Theorem copySecretToNamespace_frame
    (secretCopier : v1beta1.SecretCopier.t) (rule : v1beta1.SecretCopierRule.t)
    (targetNamespace : string) (w : client.World)
    (Hkeyed : wellKeyed w) :
  let w' := controller.copySecretToNamespace secretCopier rule targetNamespace w in
  (forall key, key <> (targetNamespace, targetSecretNameOf rule) ->
               client.secrets w' !! key = client.secrets w !! key) /\
  client.secrets w' !! sourceKeyOf rule = client.secrets w !! sourceKeyOf rule /\
  client.secretCopiers w' = client.secretCopiers w /\
  client.namespaces w' = client.namespaces w /\
  wellKeyed w'.
Proof.
  intros w'.
  assert (Hothers : forall key,
    key <> (targetNamespace, targetSecretNameOf rule) ->
    client.secrets w' !! key = client.secrets w !! key).
  { intros key Hkey. subst w'.
    destruct (copySecretToNamespace_step secretCopier rule targetNamespace w
                Hkeyed) as [->|(c & Hc & _ & [->| ->])]; try reflexivity.
    cbn [client.store client.record client.secrets].
    destruct c as [obj|obj]; cbn [callObject callKey] in *;
      rewrite Hc, lookup_insert_ne by congruence; reflexivity. }
  split; [exact Hothers|]. split; [|split; [|split]].
  - destruct (String.eqb_spec (sourceNamespaceOf rule) targetNamespace)
      as [Heq|Hne].
    + subst w'. rewrite copySecretToNamespace_unfold.
      apply String.eqb_eq in Heq. rewrite Heq. reflexivity.
    + apply Hothers. unfold sourceKeyOf. congruence.
  - subst w'.
    destruct (copySecretToNamespace_step secretCopier rule targetNamespace w
                Hkeyed) as [->|(c & _ & _ & [->| ->])]; reflexivity.
  - subst w'.
    destruct (copySecretToNamespace_step secretCopier rule targetNamespace w
                Hkeyed) as [->|(c & _ & _ & [->| ->])]; reflexivity.
  - apply copySecretToNamespace_wellKeyed. exact Hkeyed.
Qed.

(** X12. One run of the copy operation sends at most one write, and what
    it sends is a secret under the target name in the target namespace
    that carries the ownership annotations of this SecretCopier and
    rule. *)
Theorem copySecretToNamespace_writes_owned
    (secretCopier : v1beta1.SecretCopier.t) (rule : v1beta1.SecretCopierRule.t)
    (targetNamespace : string) (w : client.World)
    (Hkeyed : wellKeyed w) :
  let w' := controller.copySecretToNamespace secretCopier rule targetNamespace w in
  client.issued w' = client.issued w \/
  exists c,
    client.issued w' = (client.issued w ++ [c])%list /\
    callKey c = (targetNamespace, targetSecretNameOf rule) /\
    ownershipAnnotationsMatch secretCopier rule (callObject c).
Proof.
  intros w'. subst w'.
  destruct (copySecretToNamespace_step secretCopier rule targetNamespace w
              Hkeyed) as [->|(c & Hkey & Howned & [->| ->])].
  - left. reflexivity.
  - right. exists c. auto.
  - right. exists c. auto.
Qed.

Lemma wellKeyed_worldOf objs : wellKeyed (Scenario.worldOf objs).
Proof.
  intros key obj Hlookup. cbn [Scenario.worldOf client.secrets] in Hlookup.
  apply elem_of_list_to_map_2, list_elem_of_In, in_map_iff in Hlookup.
  destruct Hlookup as (obj' & [= <- <-] & _). reflexivity.
Qed.

(** The first copy of the scenario leaves the source secret in place. *)
Lemma copySecretToNamespace_frame_witness :
  client.secrets
    (controller.copySecretToNamespace Scenario.copier Scenario.rule "ns-dst"
       (Scenario.worldOf [Scenario.source]))
  !! ("ns-src", "db") = Some Scenario.source.
Proof.
  pose proof (copySecretToNamespace_frame Scenario.copier Scenario.rule "ns-dst"
                (Scenario.worldOf [Scenario.source])
                (wellKeyed_worldOf [Scenario.source])) as (_ & Hsource & _).
  exact Hsource.
Defined.

(** The first copy of the scenario sends nothing or one owned secret. *)
Lemma copySecretToNamespace_writes_owned_witness :
  let w := Scenario.worldOf [Scenario.source] in
  let w' := controller.copySecretToNamespace Scenario.copier Scenario.rule
              "ns-dst" w in
  client.issued w' = client.issued w \/
  exists c,
    client.issued w' = (client.issued w ++ [c])%list /\
    callKey c = ("ns-dst", targetSecretNameOf Scenario.rule) /\
    ownershipAnnotationsMatch Scenario.copier Scenario.rule (callObject c).
Proof.
  exact (copySecretToNamespace_writes_owned Scenario.copier Scenario.rule
           "ns-dst" (Scenario.worldOf [Scenario.source])
           (wellKeyed_worldOf [Scenario.source])).
Defined.

(** X13. When the source secret cannot be read, be it absent, or when
    reading the target fails otherwise than by its absence, the copy
    operation gives up without a write: the cluster is as before, and a
    copy made earlier stays where it is. *)
Theorem copySecretToNamespace_read_failure
    (secretCopier : v1beta1.SecretCopier.t) (rule : v1beta1.SecretCopierRule.t)
    (targetNamespace : string) (w : client.World)
    (Hfailure :
       client.secrets w !! sourceKeyOf rule = None \/
       client.unavailable w (sourceKeyOf rule) = true \/
       client.unavailable w (targetNamespace, targetSecretNameOf rule) = true) :
  controller.copySecretToNamespace secretCopier rule targetNamespace w = w.
Proof.
  rewrite copySecretToNamespace_unfold.
  destruct (String.eqb (sourceNamespaceOf rule) targetNamespace); [reflexivity|].
  unfold client.Get.
  destruct Hfailure as [Habsent|[Hsource|Htarget]].
  - rewrite Habsent. destruct (client.unavailable w (sourceKeyOf rule));
      reflexivity.
  - rewrite Hsource. reflexivity.
  - rewrite Htarget.
    destruct (client.unavailable w (sourceKeyOf rule)); [reflexivity|].
    destruct (client.secrets w !! sourceKeyOf rule); reflexivity.
Qed.

(** The copy made by hand stays when the source secret is gone. *)
Lemma copySecretToNamespace_read_failure_witness :
  controller.copySecretToNamespace Scenario.copier Scenario.rule "ns-dst"
    (Scenario.worldOf [Stale.target])
  = Scenario.worldOf [Stale.target].
Proof.
  apply copySecretToNamespace_read_failure.
  left. vm_compute. reflexivity.
Defined.

(** X14. When an existing managed copy is judged stale, one update is
    sent.  The object sent keeps the name, namespace, UID, annotations
    and owner references of the copy as it was read, whatever the reclaim
    policy now says, and takes the type and data of the source secret
    and the labels of the source overlaid with the rule's; where the
    write is accepted it replaces the copy. *)
Theorem copySecretToNamespace_update
    (secretCopier : v1beta1.SecretCopier.t) (rule : v1beta1.SecretCopierRule.t)
    (targetNamespace : string) (w : client.World)
    (secret targetSecret : corev1.Secret.t)
    (Hns : sourceNamespaceOf rule <> targetNamespace)
    (Hsource : client.Get (sourceKeyOf rule) w = inr secret)
    (Htarget : client.Get (targetNamespace, targetSecretNameOf rule) w
               = inr targetSecret)
    (Hmanaged : ownershipAnnotationsMatch secretCopier rule targetSecret)
    (Hstale : controller.sourceSecretHasBeenUpdated rule secret targetSecret
              = true) :
  exists obj,
    client.issued
      (controller.copySecretToNamespace secretCopier rule targetNamespace w)
    = (client.issued w ++ [client.UpdateCall obj])%list /\
    metav1.ObjectMeta.Name (corev1.Secret.ObjectMeta obj)
    = metav1.ObjectMeta.Name (corev1.Secret.ObjectMeta targetSecret) /\
    metav1.ObjectMeta.Namespace (corev1.Secret.ObjectMeta obj)
    = metav1.ObjectMeta.Namespace (corev1.Secret.ObjectMeta targetSecret) /\
    metav1.ObjectMeta.UID (corev1.Secret.ObjectMeta obj)
    = metav1.ObjectMeta.UID (corev1.Secret.ObjectMeta targetSecret) /\
    corev1.Secret.Annotations obj = corev1.Secret.Annotations targetSecret /\
    metav1.ObjectMeta.OwnerReferences (corev1.Secret.ObjectMeta obj)
    = metav1.ObjectMeta.OwnerReferences (corev1.Secret.ObjectMeta targetSecret) /\
    corev1.Secret.Type' obj = corev1.Secret.Type' secret /\
    corev1.Secret.Data obj = corev1.Secret.Data secret /\
    (exists labels,
       corev1.Secret.Labels obj = Some labels /\
       forall key,
         labels !! key =
         match goget (v1beta1.TargetSecret.Labels
                        (v1beta1.SecretCopierRule.TargetSecret rule)) key with
         | Some value => Some value
         | None => goget (corev1.Secret.Labels secret) key
         end) /\
    (client.rejected w (client.keyOf targetSecret) = false ->
     client.keyOf targetSecret = (targetNamespace, targetSecretNameOf rule) ->
     client.secrets
       (controller.copySecretToNamespace secretCopier rule targetNamespace w)
     = <[(targetNamespace, targetSecretNameOf rule) := obj]> (client.secrets w)).
Proof.
  exists (controller.updatedTargetSecret rule secret targetSecret).
  rewrite copySecretToNamespace_unfold.
  apply String.eqb_neq in Hns. rewrite Hns, Hsource, Htarget.
  apply managed_iff in Hmanaged. rewrite Hmanaged, Hstale. cbn [negb].
  unfold client.Update.
  change (client.keyOf (controller.updatedTargetSecret rule secret targetSecret))
    with (client.keyOf targetSecret).
  cbn [client.record client.rejected client.secrets].
  repeat split.
  - destruct (client.rejected w _); [reflexivity|].
    destruct (client.secrets w !! _); reflexivity.
  - eexists. split; [reflexivity|]. apply targetSecretLabels_lookup.
  - intros Haccepted Hkey. rewrite Haccepted, Hkey.
    unfold client.Get in Htarget.
    destruct (client.unavailable w _); [discriminate|].
    destruct (client.secrets w !! (targetNamespace, targetSecretNameOf rule));
      [|discriminate].
    cbn [snd client.store client.record client.secrets].
    change (client.keyOf (controller.updatedTargetSecret rule secret targetSecret))
      with (client.keyOf targetSecret).
    rewrite Hkey. reflexivity.
Qed.

(** The managed copy of the scenario, updated from the source secret. *)
Lemma copySecretToNamespace_update_witness :
  exists obj,
    client.issued
      (controller.copySecretToNamespace Scenario.copier Scenario.rule "ns-dst"
         (Scenario.worldOf [Scenario.source; Stale.target]))
    = [client.UpdateCall obj] /\
    corev1.Secret.Annotations obj = corev1.Secret.Annotations Stale.target /\
    corev1.Secret.Data obj = corev1.Secret.Data Scenario.source.
Proof.
  assert (Hns : sourceNamespaceOf Scenario.rule <> "ns-dst").
  { vm_compute. intros H. discriminate H. }
  assert (Hsource : client.Get (sourceKeyOf Scenario.rule)
                      (Scenario.worldOf [Scenario.source; Stale.target])
                    = inr Scenario.source).
  { vm_compute. reflexivity. }
  assert (Htarget : client.Get ("ns-dst", targetSecretNameOf Scenario.rule)
                      (Scenario.worldOf [Scenario.source; Stale.target])
                    = inr Stale.target).
  { vm_compute. reflexivity. }
  assert (Hmanaged : ownershipAnnotationsMatch Scenario.copier Scenario.rule
                       Stale.target).
  { split; vm_compute; reflexivity. }
  assert (Hstale : controller.sourceSecretHasBeenUpdated Scenario.rule
                     Scenario.source Stale.target = true).
  { vm_compute. reflexivity. }
  destruct (copySecretToNamespace_update Scenario.copier Scenario.rule "ns-dst"
              _ Scenario.source Stale.target
              Hns Hsource Htarget Hmanaged Hstale)
    as (obj & Hissued & _ & _ & _ & Hann & _ & _ & Hdata & _).
  exists obj. split; [exact Hissued | split; [exact Hann | exact Hdata]].
Defined.

(** X15. After a run in which the source secret is read and nothing
    fails for the target, a target that was absent or managed holds a
    secret with the type and the data of the source secret and the
    ownership annotations of the SecretCopier and rule. *)
Theorem copySecretToNamespace_converges
    (secretCopier : v1beta1.SecretCopier.t) (rule : v1beta1.SecretCopierRule.t)
    (targetNamespace : string) (w : client.World) (secret : corev1.Secret.t)
    (Hkeyed : wellKeyed w)
    (Hns : sourceNamespaceOf rule <> targetNamespace)
    (Hsource : client.Get (sourceKeyOf rule) w = inr secret)
    (Hreadable : client.unavailable w (targetNamespace, targetSecretNameOf rule)
                 = false)
    (Hwritable : client.rejected w (targetNamespace, targetSecretNameOf rule)
                 = false)
    (Hours : forall targetSecret,
               client.secrets w !! (targetNamespace, targetSecretNameOf rule)
               = Some targetSecret ->
               ownershipAnnotationsMatch secretCopier rule targetSecret) :
  exists obj,
    client.secrets
      (controller.copySecretToNamespace secretCopier rule targetNamespace w)
    !! (targetNamespace, targetSecretNameOf rule) = Some obj /\
    corev1.Secret.Type' obj = corev1.Secret.Type' secret /\
    corev1.Secret.Data obj = corev1.Secret.Data secret /\
    ownershipAnnotationsMatch secretCopier rule obj.
Proof.
  rewrite copySecretToNamespace_unfold.
  apply String.eqb_neq in Hns. rewrite Hns, Hsource.
  unfold client.Get at 1. rewrite Hreadable.
  destruct (client.secrets w !! (targetNamespace, targetSecretNameOf rule))
    as [targetSecret|] eqn:Hlookup.
  - pose proof (Hours _ eq_refl) as Hmanaged.
    pose proof (Hkeyed _ _ Hlookup) as Hkey.
    pose proof Hmanaged as Hbool. apply managed_iff in Hbool.
    rewrite Hbool. cbn [negb].
    destruct (controller.sourceSecretHasBeenUpdated rule secret targetSecret)
      eqn:Hstale.
    + exists (controller.updatedTargetSecret rule secret targetSecret).
      unfold client.Update.
      change (client.keyOf
                (controller.updatedTargetSecret rule secret targetSecret))
        with (client.keyOf targetSecret).
      cbn [client.record client.rejected client.secrets].
      rewrite Hkey, Hwritable, Hlookup.
      cbn [snd client.store client.record client.secrets].
      change (client.keyOf
                (controller.updatedTargetSecret rule secret targetSecret))
        with (client.keyOf targetSecret).
      rewrite Hkey, lookup_insert_eq. repeat split; apply Hmanaged.
    + exists targetSecret.
      apply sourceSecretHasBeenUpdated_spec in Hstale as (Htype & Hdata & _).
      repeat split; auto; apply Hmanaged.
  - cbn [client.IgnoreNotFound].
    exists (controller.newTargetSecret secretCopier rule
              (targetSecretNameOf rule) targetNamespace secret).
    unfold client.Create.
    change (client.keyOf (controller.newTargetSecret secretCopier rule
              (targetSecretNameOf rule) targetNamespace secret))
      with (targetNamespace, targetSecretNameOf rule).
    cbn [client.record client.rejected client.secrets].
    rewrite Hwritable, Hlookup.
    cbn [snd client.store client.record client.secrets].
    change (client.keyOf (controller.newTargetSecret secretCopier rule
              (targetSecretNameOf rule) targetNamespace secret))
      with (targetNamespace, targetSecretNameOf rule).
    rewrite lookup_insert_eq. split; [reflexivity|]. split; [reflexivity|].
    split; [reflexivity|].
    apply managed_iff, newTargetSecret_managed.
Qed.

(** The stale copy of the scenario, whose labels are behind, still has
    the type and data of the source after a run. *)
Lemma copySecretToNamespace_converges_witness :
  exists obj,
    client.secrets
      (controller.copySecretToNamespace Scenario.copier Scenario.rule "ns-dst"
         Stale.world)
    !! ("ns-dst", targetSecretNameOf Scenario.rule) = Some obj /\
    corev1.Secret.Type' obj = corev1.Secret.Type' Stale.source /\
    corev1.Secret.Data obj = corev1.Secret.Data Stale.source.
Proof.
  assert (Hns : sourceNamespaceOf Scenario.rule <> "ns-dst").
  { vm_compute. intros H. discriminate H. }
  assert (Hsource : client.Get (sourceKeyOf Scenario.rule) Stale.world
                    = inr Stale.source).
  { vm_compute. reflexivity. }
  assert (Hours : forall targetSecret,
            client.secrets Stale.world
              !! ("ns-dst", targetSecretNameOf Scenario.rule)
            = Some targetSecret ->
            ownershipAnnotationsMatch Scenario.copier Scenario.rule
              targetSecret).
  { intros targetSecret Hlookup. vm_compute in Hlookup.
    injection Hlookup as <-. split; vm_compute; reflexivity. }
  destruct (copySecretToNamespace_converges Scenario.copier Scenario.rule
              "ns-dst" Stale.world Stale.source
              (wellKeyed_worldOf _) Hns Hsource eq_refl eq_refl Hours)
    as (obj & Hobj & Htype & Hdata & _).
  exists obj. auto.
Defined.

(** ** What a reconciliation pass asks for and writes *)

Section PassFacts.
Import client controller.

Lemma activeNamespacesOf_In namespace items :
  In namespace (activeNamespacesOf items) <->
  In namespace items /\
  corev1.Namespace.Phase namespace <> corev1.NamespaceTerminating.
Proof.
  induction items as [|n items IH]; simpl; [tauto|].
  destruct (String.eqb_spec (corev1.Namespace.Phase n)
                            corev1.NamespaceTerminating) as [Heq|Hne]; simpl.
  - rewrite IH. split.
    + intros [Hin Hp]. auto.
    + intros [[<-|Hin] Hp]; [contradiction | auto].
  - rewrite IH. split.
    + intros [<-|[Hin Hp]]; auto.
    + intros [[<-|Hin] Hp]; auto.
Qed.

Lemma targetNamespacesOf_In_iff rule activeNamespaces targetNamespace :
  In targetNamespace (targetNamespacesOf rule activeNamespaces) <->
  exists namespace,
    In namespace activeNamespaces /\
    corev1.Namespace.Name namespace = targetNamespace /\
    targetNamespace <> sourceNamespaceOf rule /\
    selectors.TargetNamespaces.Matches
      (v1beta1.SecretCopierRule.TargetNamespaces rule) namespace = true.
Proof.
  unfold sourceNamespaceOf.
  induction activeNamespaces as [|n rest IH]; simpl.
  - split; [tauto | intros (? & [] & _)].
  - destruct (String.eqb_spec (corev1.Namespace.Name n)
                (v1beta1.SourceSecret.Namespace
                   (v1beta1.SecretCopierRule.SourceSecret rule)))
      as [Heq|Hne]; simpl.
    + rewrite IH. split.
      * intros (ns & Hin & Hrest). exists ns. auto.
      * intros (ns & [<-|Hin] & Hname & Hsrc & Hm);
          [congruence | exists ns; auto].
    + destruct (selectors.TargetNamespaces.Matches _ n) eqn:Hmatch; simpl.
      * rewrite IH. split.
        -- intros [<-|(ns & Hin & Hrest)]; [exists n; auto | exists ns; auto].
        -- intros (ns & [<-|Hin] & Hname & Hrest); [auto|].
           right. exists ns. auto.
      * rewrite IH. split.
        -- intros (ns & Hin & Hrest). exists ns. auto.
        -- intros (ns & [<-|Hin] & Hname & Hsrc & Hm);
             [congruence | exists ns; auto].
Qed.

Lemma callsOfRule_In_iff activeNamespaces rule rule' targetNamespace :
  In (rule', targetNamespace) (callsOfRule activeNamespaces rule) <->
  rule' = rule /\
  In targetNamespace (targetNamespacesOf rule activeNamespaces).
Proof.
  unfold callsOfRule. rewrite in_map_iff. split.
  - intros (tn & [= <- <-] & Hin). apply filter_In in Hin as [Hin _]. auto.
  - intros [-> Hin]. exists targetNamespace. split; [reflexivity|].
    apply filter_In. split; [exact Hin|].
    apply targetNamespacesOf_In in Hin.
    apply negb_true_iff, String.eqb_neq. exact Hin.
Qed.

(** The calls of a pass, as the rules and the listed namespaces give
    them. *)
Lemma pass_calls_iff secretCopier items rule targetNamespace :
  In (rule, targetNamespace)
     (List.flat_map (callsOfRule (activeNamespacesOf items))
        (v1beta1.SecretCopierSpec.Rules
           (v1beta1.SecretCopier.Spec secretCopier))) <->
  In rule (v1beta1.SecretCopierSpec.Rules
             (v1beta1.SecretCopier.Spec secretCopier)) /\
  exists namespace,
    In namespace items /\
    corev1.Namespace.Phase namespace <> corev1.NamespaceTerminating /\
    corev1.Namespace.Name namespace = targetNamespace /\
    targetNamespace <> sourceNamespaceOf rule /\
    selectors.TargetNamespaces.Matches
      (v1beta1.SecretCopierRule.TargetNamespaces rule) namespace = true.
Proof.
  rewrite in_flat_map. split.
  - intros (rule' & Hrule & Hin).
    apply callsOfRule_In_iff in Hin as [-> Hin]. split; [exact Hrule|].
    apply targetNamespacesOf_In_iff in Hin as (ns & Hns & Hrest).
    apply activeNamespacesOf_In in Hns as [Hns Hphase].
    exists ns. tauto.
  - intros (Hrule & ns & Hns & Hphase & Hrest).
    exists rule. split; [exact Hrule|].
    apply callsOfRule_In_iff. split; [reflexivity|].
    apply targetNamespacesOf_In_iff. exists ns. split; [|exact Hrest].
    apply activeNamespacesOf_In. auto.
Qed.

(** What a sequence of copy calls leaves behind. *)
Lemma foldl_copy_effect secretCopier calls : forall w,
  wellKeyed w ->
  let w' := foldl (fun w call =>
                     copySecretToNamespace secretCopier (fst call) (snd call) w)
                  w calls in
  wellKeyed w' /\
  secretCopiers w' = secretCopiers w /\
  namespaces w' = namespaces w /\
  (forall key,
     (forall rule targetNamespace,
        In (rule, targetNamespace) calls ->
        key <> (targetNamespace, targetSecretNameOf rule)) ->
     secrets w' !! key = secrets w !! key) /\
  exists sent,
    issued w' = (issued w ++ sent)%list /\
    Forall (fun c =>
              exists rule targetNamespace,
                In (rule, targetNamespace) calls /\
                callKey c = (targetNamespace, targetSecretNameOf rule) /\
                ownershipAnnotationsMatch secretCopier rule (callObject c))
           sent.
Proof.
  induction calls as [|[rule tn] calls IH]; intros w Hkeyed.
  - simpl. repeat split; auto. exists []. rewrite app_nil_r. auto.
  - cbn [foldl fst snd].
    pose proof (copySecretToNamespace_wellKeyed secretCopier rule tn w Hkeyed)
      as Hkeyed1.
    destruct (IH _ Hkeyed1) as (Hk & Hc & Hn & Hframe & sent & Hsent & Hall).
    clear IH. cbv zeta in *.
    set (w1 := copySecretToNamespace secretCopier rule tn w) in *.
    assert (Hlater : Forall (fun c =>
              exists rule0 targetNamespace,
                In (rule0, targetNamespace) ((rule, tn) :: calls) /\
                callKey c = (targetNamespace, targetSecretNameOf rule0) /\
                ownershipAnnotationsMatch secretCopier rule0 (callObject c))
             sent).
    { eapply Forall_impl; [exact Hall|].
      intros c (r & t & Hin & Hrest). exists r, t. split; [right|]; auto. }
    assert (Hstep :
      secretCopiers w1 = secretCopiers w /\ namespaces w1 = namespaces w /\
      (forall key, key <> (tn, targetSecretNameOf rule) ->
                   secrets w1 !! key = secrets w !! key) /\
      (issued w1 = issued w \/
       exists c, issued w1 = (issued w ++ [c])%list /\
                 callKey c = (tn, targetSecretNameOf rule) /\
                 ownershipAnnotationsMatch secretCopier rule (callObject c))).
    { subst w1.
      destruct (copySecretToNamespace_step secretCopier rule tn w Hkeyed)
        as [->|(c & Hkey & Howned & [->| ->])].
      - repeat split; auto.
      - repeat split; auto. right. exists c. auto.
      - repeat split; auto.
        + intros key Hne. cbn [store record secrets].
          destruct c; cbn [callObject callKey] in *;
            rewrite Hkey, lookup_insert_ne by congruence; reflexivity.
        + right. exists c. auto. }
    destruct Hstep as (Hc1 & Hn1 & Hframe1 & Hissued1).
    split; [exact Hk|]. split; [congruence|]. split; [congruence|]. split.
    + intros key Hkey. rewrite Hframe.
      * apply Hframe1. apply (Hkey rule tn). left. reflexivity.
      * intros r t Hin. apply Hkey. right. exact Hin.
    + destruct Hissued1 as [Heq|(c & Heq & Hkey & Howned)].
      * exists sent. rewrite Hsent, Heq. auto.
      * exists (c :: sent). rewrite Hsent, Heq, <- app_assoc. split; [reflexivity|].
        constructor; [|exact Hlater].
        exists rule, tn. split; [left; reflexivity | auto].
Qed.

End PassFacts.

(** X16. In a pass over a SecretCopier and a listing of namespaces, the
    copy operation is called for a rule and a namespace name exactly
    when the rule is one of the SecretCopier's and a listed namespace of
    that name is not terminating, is not the rule's source namespace and
    is matched by the rule's selector. *)
Theorem Reconcile_calls_iff
    (secretCopier : v1beta1.SecretCopier.t) (items : list corev1.Namespace.t)
    (rule : v1beta1.SecretCopierRule.t) (targetNamespace : string) :
  In (rule, targetNamespace)
     (controller.reconcileRules traceCopy secretCopier
        (controller.activeNamespacesOf items) []) <->
  In rule (v1beta1.SecretCopierSpec.Rules
             (v1beta1.SecretCopier.Spec secretCopier)) /\
  exists namespace,
    In namespace items /\
    corev1.Namespace.Phase namespace <> corev1.NamespaceTerminating /\
    corev1.Namespace.Name namespace = targetNamespace /\
    targetNamespace <> sourceNamespaceOf rule /\
    selectors.TargetNamespaces.Matches
      (v1beta1.SecretCopierRule.TargetNamespaces rule) namespace = true.
Proof.
  rewrite reconcileRules_trace. apply pass_calls_iff.
Qed.

(** X17. A pass writes only copies it owns, and only into active target
    namespaces.  In a store whose secrets sit under their own names,
    every write [Reconcile] sends is a secret carrying the ownership
    annotations of the SecretCopier and of one of its rules, under that
    rule's target name, in a listed namespace that is not terminating, is
    not the rule's source namespace and is matched by the rule's
    selector.  Secrets of namespaces that are not listed as active, the
    SecretCopiers and the namespaces are left as they are. *)
Theorem Reconcile_writes (req : string) (w : client.World)
    (Hkeyed : wellKeyed w) :
  let w' := snd (controller.Reconcile req w) in
  client.secretCopiers w' = client.secretCopiers w /\
  client.namespaces w' = client.namespaces w /\
  wellKeyed w' /\
  (exists sent,
     client.issued w' = (client.issued w ++ sent)%list /\
     Forall
       (fun c =>
          exists secretCopier items rule namespace,
            client.GetSecretCopier req w = inr secretCopier /\
            client.namespaces w = inr items /\
            In rule (v1beta1.SecretCopierSpec.Rules
                       (v1beta1.SecretCopier.Spec secretCopier)) /\
            In namespace items /\
            corev1.Namespace.Phase namespace <> corev1.NamespaceTerminating /\
            corev1.Namespace.Name namespace <> sourceNamespaceOf rule /\
            selectors.TargetNamespaces.Matches
              (v1beta1.SecretCopierRule.TargetNamespaces rule) namespace = true /\
            callKey c = (corev1.Namespace.Name namespace, targetSecretNameOf rule) /\
            ownershipAnnotationsMatch secretCopier rule (callObject c))
       sent) /\
  (forall key,
     (forall items namespace,
        client.namespaces w = inr items ->
        In namespace items ->
        corev1.Namespace.Phase namespace <> corev1.NamespaceTerminating ->
        corev1.Namespace.Name namespace <> fst key) ->
     client.secrets w' !! key = client.secrets w !! key).
Proof.
  intros w'.
  assert (Hidle : w' = w ->
    client.secretCopiers w' = client.secretCopiers w /\
    client.namespaces w' = client.namespaces w /\
    wellKeyed w' /\
    (exists sent,
       client.issued w' = (client.issued w ++ sent)%list /\
       Forall
         (fun c =>
            exists secretCopier items rule namespace,
              client.GetSecretCopier req w = inr secretCopier /\
              client.namespaces w = inr items /\
              In rule (v1beta1.SecretCopierSpec.Rules
                         (v1beta1.SecretCopier.Spec secretCopier)) /\
              In namespace items /\
              corev1.Namespace.Phase namespace <> corev1.NamespaceTerminating /\
              corev1.Namespace.Name namespace <> sourceNamespaceOf rule /\
              selectors.TargetNamespaces.Matches
                (v1beta1.SecretCopierRule.TargetNamespaces rule) namespace
              = true /\
              callKey c
              = (corev1.Namespace.Name namespace, targetSecretNameOf rule) /\
              ownershipAnnotationsMatch secretCopier rule (callObject c))
         sent) /\
    (forall key,
       (forall items namespace,
          client.namespaces w = inr items ->
          In namespace items ->
          corev1.Namespace.Phase namespace <> corev1.NamespaceTerminating ->
          corev1.Namespace.Name namespace <> fst key) ->
       client.secrets w' !! key = client.secrets w !! key)).
  { intros ->. repeat split; auto. exists []. rewrite app_nil_r. auto. }
  subst w'. unfold controller.Reconcile in *.
  destruct (client.GetSecretCopier req w) as [err|secretCopier] eqn:Hget.
  { apply Hidle. destruct (client.IgnoreNotFound err); reflexivity. }
  destruct (Nat.eqb _ 0); [apply Hidle; reflexivity|].
  destruct (client.namespaces w) as [err|items] eqn:Hlist;
    [apply Hidle; reflexivity|].
  clear Hidle.
  assert (Hsnd :
    snd (if 0 <? v1beta1.SecretCopierSpec.SyncPeriod
                   (v1beta1.SecretCopier.Spec secretCopier)
         then
           ((v1beta1.SecretCopierSpec.SyncPeriod
               (v1beta1.SecretCopier.Spec secretCopier), @None client.error),
            controller.reconcileRules controller.copySecretToNamespace
              secretCopier (controller.activeNamespacesOf items) w)
         else
           ((0, @None client.error),
            controller.reconcileRules controller.copySecretToNamespace
              secretCopier (controller.activeNamespacesOf items) w))
    = controller.reconcileRules controller.copySecretToNamespace
        secretCopier (controller.activeNamespacesOf items) w).
  { destruct (0 <? _); reflexivity. }
  rewrite Hsnd, reconcileRules_calls.
  destruct (foldl_copy_effect secretCopier
              (List.flat_map (callsOfRule (controller.activeNamespacesOf items))
                 (v1beta1.SecretCopierSpec.Rules
                    (v1beta1.SecretCopier.Spec secretCopier))) w Hkeyed)
    as (Hk & Hc & Hn & Hframe & sent & Hsent & Hall).
  split; [exact Hc|]. split; [congruence|]. split; [exact Hk|]. split.
  - exists sent. split; [exact Hsent|].
    eapply Forall_impl; [exact Hall|].
    intros c (rule & tn & Hin & Hkey & Howned).
    apply pass_calls_iff in Hin
      as (Hrule & ns & Hns & Hphase & Hname & Hsrc & Hmatch).
    exists secretCopier, items, rule, ns. subst tn.
    repeat split; auto; apply Howned.
  - intros key Hkey. apply Hframe. intros rule tn Hin.
    apply pass_calls_iff in Hin
      as (Hrule & ns & Hns & Hphase & Hname & Hsrc & Hmatch).
    intros ->. apply (Hkey items ns eq_refl Hns Hphase). exact Hname.
Qed.

(** The pass of the scenario leaves the namespace [kube-system] alone. *)
Lemma Reconcile_writes_witness :
  client.secrets
    (snd (controller.Reconcile "copier-1" (Scenario.worldOf [Scenario.source])))
  !! ("kube-system", "db") = None.
Proof.
  pose proof (Reconcile_writes "copier-1" (Scenario.worldOf [Scenario.source])
                (wellKeyed_worldOf [Scenario.source]))
    as (_ & _ & _ & _ & Hframe).
  rewrite Hframe; [reflexivity|].
  intros items namespace [= <-] [<-|[<-|[]]] _; discriminate.
Defined.

(** ** The watch handlers *)

Section HandlerFacts.
Import client handlers.

Lemma sourceRulesLoop_existsb rules secretCopier secret requests :
  sourceRulesLoop rules secretCopier secret requests =
  if existsb
       (fun rule =>
          String.eqb
            (v1beta1.SourceSecret.Name
               (v1beta1.SecretCopierRule.SourceSecret rule)) (GetName secret)
          && String.eqb
               (v1beta1.SourceSecret.Namespace
                  (v1beta1.SecretCopierRule.SourceSecret rule))
               (GetNamespace secret))
       rules
  then (requests ++ [requestFor secretCopier])%list
  else requests.
Proof.
  induction rules as [|rule rules IH]; [reflexivity|].
  cbn [sourceRulesLoop existsb].
  destruct (String.eqb _ (GetName secret) && String.eqb _ (GetNamespace secret));
    [reflexivity | exact IH].
Qed.

Lemma targetRulesLoop_existsb rules secretCopier namespace requests :
  targetRulesLoop rules secretCopier namespace requests =
  if existsb
       (fun rule =>
          negb (String.eqb
                  (v1beta1.SourceSecret.Namespace
                     (v1beta1.SecretCopierRule.SourceSecret rule))
                  (corev1.Namespace.Name namespace))
          && selectors.TargetNamespaces.Matches
               (v1beta1.SecretCopierRule.TargetNamespaces rule) namespace)
       rules
  then (requests ++ [requestFor secretCopier])%list
  else requests.
Proof.
  induction rules as [|rule rules IH]; [reflexivity|].
  cbn [targetRulesLoop existsb].
  destruct (negb _ && selectors.TargetNamespaces.Matches _ namespace);
    [reflexivity | exact IH].
Qed.

(** A loop that appends one request for each item chosen by [choose]. *)
Lemma foldl_requests (choose : v1beta1.SecretCopier.t -> bool) items :
  forall requests,
    foldl (fun requests secretCopier =>
             if choose secretCopier
             then (requests ++ [requestFor secretCopier])%list
             else requests)
          requests items
    = (requests ++ List.map requestFor (List.filter choose items))%list.
Proof.
  induction items as [|sc items IH]; intros requests; cbn [foldl List.filter].
  - rewrite app_nil_r. reflexivity.
  - rewrite IH. destruct (choose sc); [|reflexivity].
    cbn [List.map]. rewrite <- app_assoc. reflexivity.
Qed.

Lemma foldl_ext_requests {A} (f g : list (string * string) -> A ->
                                    list (string * string)) items :
  (forall requests x, f requests x = g requests x) ->
  forall requests, foldl f requests items = foldl g requests items.
Proof.
  intros H. induction items as [|x items IH]; intros requests; simpl;
    [reflexivity|]. rewrite H. apply IH.
Qed.

End HandlerFacts.

(** X18. A changed secret enqueues the listed SecretCopiers that have a
    rule whose source is that secret, by name and namespace: each of
    them once, however many of its rules name the secret, in the order
    of the listing.  When the listing fails nothing is enqueued. *)
Theorem findSecretCopiersMatchingSourceSecret_requests
    (items : list v1beta1.SecretCopier.t) (secret : handlers.Object) :
  (forall err,
     handlers.findSecretCopiersMatchingSourceSecret (inl err) secret = []) /\
  (exists selected,
     handlers.findSecretCopiersMatchingSourceSecret (inr items) secret
     = List.map handlers.requestFor selected /\
     sublist selected items /\
     forall secretCopier,
       In secretCopier selected <->
       In secretCopier items /\
       hasSourceRule secretCopier (handlers.GetName secret)
                     (handlers.GetNamespace secret)).
Proof.
  split; [reflexivity|].
  set (choose := fun secretCopier =>
    existsb
      (fun rule =>
         String.eqb
           (v1beta1.SourceSecret.Name
              (v1beta1.SecretCopierRule.SourceSecret rule))
           (handlers.GetName secret)
         && String.eqb
              (v1beta1.SourceSecret.Namespace
                 (v1beta1.SecretCopierRule.SourceSecret rule))
              (handlers.GetNamespace secret))
      (v1beta1.SecretCopierSpec.Rules (v1beta1.SecretCopier.Spec secretCopier))).
  exists (List.filter choose items). split; [|split].
  - unfold handlers.findSecretCopiersMatchingSourceSecret.
    rewrite <- (app_nil_l (List.map _ _)), <- foldl_requests.
    apply foldl_ext_requests. intros requests sc.
    apply sourceRulesLoop_existsb.
  - clear. induction items as [|sc items IH]; simpl; [constructor|].
    destruct (choose sc); [apply sublist_skip | apply sublist_cons]; exact IH.
  - intros sc. rewrite filter_In. unfold choose, hasSourceRule.
    rewrite existsb_exists. split.
    + intros [Hin (rule & Hrule & Hcond)]. split; [exact Hin|].
      apply andb_true_iff in Hcond as [Hn Hns].
      apply String.eqb_eq in Hn, Hns. exists rule. auto.
    + intros [Hin (rule & Hrule & Hn & Hns)]. split; [exact Hin|].
      exists rule. split; [exact Hrule|].
      rewrite Hn, Hns, !String.eqb_refl. reflexivity.
Qed.

(** X19. A changed namespace enqueues the listed SecretCopiers that have
    a rule whose selector matches the namespace and whose source
    namespace is another one, each of them once, in the order of the
    listing; these are the SecretCopiers whose pass, with that namespace
    listed as active, calls the copy operation for it.  An object that
    is not a namespace, or a failed listing, enqueues nothing. *)
Theorem findSecretCopiersMatchingTargetNamespace_requests
    (items : list v1beta1.SecretCopier.t) :
  (forall listing obj,
     handlers.findSecretCopiersMatchingTargetNamespace listing
       (handlers.SecretObject obj) = []) /\
  (forall err object,
     handlers.findSecretCopiersMatchingTargetNamespace (inl err) object = []) /\
  (forall namespace,
     exists selected,
       handlers.findSecretCopiersMatchingTargetNamespace (inr items)
         (handlers.NamespaceObject namespace)
       = List.map handlers.requestFor selected /\
       sublist selected items /\
       forall secretCopier,
         In secretCopier selected <->
         In secretCopier items /\ hasTargetRule secretCopier namespace) /\
  (forall secretCopier namespace,
     hasTargetRule secretCopier namespace <->
     exists rule,
       In (rule, corev1.Namespace.Name namespace)
          (controller.reconcileRules traceCopy secretCopier [namespace] [])).
Proof.
  split; [reflexivity|]. split; [intros err []; reflexivity|]. split.
  - intros namespace.
    set (choose := fun secretCopier =>
      existsb
        (fun rule =>
           negb (String.eqb
                   (v1beta1.SourceSecret.Namespace
                      (v1beta1.SecretCopierRule.SourceSecret rule))
                   (corev1.Namespace.Name namespace))
           && selectors.TargetNamespaces.Matches
                (v1beta1.SecretCopierRule.TargetNamespaces rule) namespace)
        (v1beta1.SecretCopierSpec.Rules
           (v1beta1.SecretCopier.Spec secretCopier))).
    exists (List.filter choose items). split; [|split].
    + unfold handlers.findSecretCopiersMatchingTargetNamespace.
      rewrite <- (app_nil_l (List.map _ _)), <- foldl_requests.
      apply foldl_ext_requests. intros requests sc.
      apply targetRulesLoop_existsb.
    + clear. induction items as [|sc items IH]; simpl; [constructor|].
      destruct (choose sc); [apply sublist_skip | apply sublist_cons]; exact IH.
    + intros sc. rewrite filter_In. unfold choose, hasTargetRule.
      rewrite existsb_exists. unfold sourceNamespaceOf. split.
      * intros [Hin (rule & Hrule & Hcond)]. split; [exact Hin|].
        apply andb_true_iff in Hcond as [Hns Hm].
        apply negb_true_iff, String.eqb_neq in Hns. exists rule. auto.
      * intros [Hin (rule & Hrule & Hns & Hm)]. split; [exact Hin|].
        exists rule. split; [exact Hrule|].
        apply String.eqb_neq in Hns. rewrite Hns, Hm. reflexivity.
  - intros secretCopier namespace. unfold hasTargetRule.
    rewrite reconcileRules_trace. split.
    + intros (rule & Hrule & Hns & Hm). exists rule.
      apply in_flat_map. exists rule. split; [exact Hrule|].
      apply callsOfRule_In_iff. split; [reflexivity|].
      apply targetNamespacesOf_In_iff. exists namespace.
      repeat split; auto. left. reflexivity.
    + intros (rule & Hin). apply in_flat_map in Hin as (rule' & Hrule & Hin).
      apply callsOfRule_In_iff in Hin as [-> Hin].
      apply targetNamespacesOf_In_iff in Hin
        as (ns & [<-|[]] & _ & Hsrc & Hm).
      exists rule'. auto.
Qed.

(** ** A second run *)

Section SecondRun.
Import client controller.

(** After a copy that is its own update has been stored, the next run
    changes nothing or sends that copy again as an update. *)
Lemma copySecretToNamespace_rerun
    secretCopier rule targetNamespace secret obj c w :
  String.eqb (sourceNamespaceOf rule) targetNamespace = false ->
  Get (sourceKeyOf rule) w = inr secret ->
  unavailable w (targetNamespace, targetSecretNameOf rule) = false ->
  rejected w (targetNamespace, targetSecretNameOf rule) = false ->
  keyOf obj = (targetNamespace, targetSecretNameOf rule) ->
  targetSecretManagedBySecretCopier secretCopier rule obj = true ->
  updatedTargetSecret rule secret obj = obj ->
  let w1 := store obj (record c w) in
  copySecretToNamespace secretCopier rule targetNamespace w1 = w1 \/
  copySecretToNamespace secretCopier rule targetNamespace w1
  = store obj (record (UpdateCall obj) w1).
Proof.
  intros Hns Hsource Havail Hwritable Hkey Hmanaged Hfix w1. subst w1.
  rewrite copySecretToNamespace_unfold, Hns.
  assert (Hsource' : Get (sourceKeyOf rule) (store obj (record c w))
                     = inr secret).
  { unfold Get in *. cbn [store record unavailable secrets].
    destruct (unavailable w (sourceKeyOf rule)); [discriminate|].
    rewrite Hkey, lookup_insert_ne; [exact Hsource|].
    unfold sourceKeyOf. intros [= Heq _].
    apply String.eqb_neq in Hns. congruence. }
  rewrite Hsource'.
  assert (Htarget : Get (targetNamespace, targetSecretNameOf rule)
                      (store obj (record c w)) = inr obj).
  { unfold Get. cbn [store record unavailable secrets].
    rewrite Havail, Hkey, lookup_insert_eq. reflexivity. }
  rewrite Htarget, Hmanaged. cbn [negb].
  destruct (sourceSecretHasBeenUpdated rule secret obj); [|left; reflexivity].
  right. rewrite Hfix. unfold Update. cbn [store record rejected secrets].
  rewrite Hkey, Hwritable, lookup_insert_eq. reflexivity.
Qed.

End SecondRun.

(** X20. Run again on the cluster it has just left, with writes to the
    target accepted, the copy operation changes no stored secret: it
    sends nothing, or one update whose object is the copy already
    stored. *)
Theorem copySecretToNamespace_second_run
    (secretCopier : v1beta1.SecretCopier.t) (rule : v1beta1.SecretCopierRule.t)
    (targetNamespace : string) (w : client.World)
    (Hkeyed : wellKeyed w)
    (Hwritable : client.rejected w (targetNamespace, targetSecretNameOf rule)
                 = false) :
  let w1 := controller.copySecretToNamespace secretCopier rule targetNamespace w in
  let w2 := controller.copySecretToNamespace secretCopier rule targetNamespace w1 in
  client.secrets w2 = client.secrets w1 /\
  (client.issued w2 = client.issued w1 \/
   exists obj,
     client.issued w2 = (client.issued w1 ++ [client.UpdateCall obj])%list /\
     client.secrets w1 !! (targetNamespace, targetSecretNameOf rule) = Some obj).
Proof.
  intros w1 w2.
  assert (Hidle : w1 = w ->
    client.secrets w2 = client.secrets w1 /\
    (client.issued w2 = client.issued w1 \/
     exists obj,
       client.issued w2 = (client.issued w1 ++ [client.UpdateCall obj])%list /\
       client.secrets w1 !! (targetNamespace, targetSecretNameOf rule)
       = Some obj)).
  { intros Hw. subst w2. rewrite Hw. fold w1. rewrite Hw. auto. }
  assert (Hwritten : forall secret obj c,
    String.eqb (sourceNamespaceOf rule) targetNamespace = false ->
    client.Get (sourceKeyOf rule) w = inr secret ->
    client.unavailable w (targetNamespace, targetSecretNameOf rule) = false ->
    client.keyOf obj = (targetNamespace, targetSecretNameOf rule) ->
    controller.targetSecretManagedBySecretCopier secretCopier rule obj = true ->
    controller.updatedTargetSecret rule secret obj = obj ->
    w1 = client.store obj (client.record c w) ->
    client.secrets w2 = client.secrets w1 /\
    (client.issued w2 = client.issued w1 \/
     exists obj0,
       client.issued w2 = (client.issued w1 ++ [client.UpdateCall obj0])%list /\
       client.secrets w1 !! (targetNamespace, targetSecretNameOf rule)
       = Some obj0)).
  { intros secret obj c Hns Hsource Havail Hkey Hmanaged Hfix Hw.
    subst w2. rewrite Hw.
    destruct (copySecretToNamespace_rerun secretCopier rule targetNamespace
                secret obj c w Hns Hsource Havail Hwritable Hkey Hmanaged Hfix)
      as [-> | ->].
    - auto.
    - cbn [client.store client.record client.secrets client.issued].
      rewrite Hkey. split; [apply insert_insert_eq|].
      right. exists obj. split; [reflexivity | apply lookup_insert_eq]. }
  pose proof (copySecretToNamespace_unfold secretCopier rule targetNamespace w)
    as Hrun. fold w1 in Hrun.
  destruct (String.eqb (sourceNamespaceOf rule) targetNamespace) eqn:Hns;
    [auto|].
  destruct (client.Get (sourceKeyOf rule) w) as [err|secret] eqn:Hsource;
    [auto|].
  unfold client.Get in Hrun at 1.
  destruct (client.unavailable w (targetNamespace, targetSecretNameOf rule))
    eqn:Havail; [auto|].
  destruct (client.secrets w !! (targetNamespace, targetSecretNameOf rule))
    as [targetSecret|] eqn:Hlookup.
  - destruct (controller.targetSecretManagedBySecretCopier secretCopier rule
                targetSecret) eqn:Hmanaged; cbn [negb] in Hrun; [|auto].
    destruct (controller.sourceSecretHasBeenUpdated rule secret targetSecret);
      [|auto].
    pose proof (Hkeyed _ _ Hlookup) as Hkey.
    unfold client.Update in Hrun.
    change (client.keyOf (controller.updatedTargetSecret rule secret targetSecret))
      with (client.keyOf targetSecret) in Hrun.
    cbn [client.record client.rejected client.secrets] in Hrun.
    rewrite Hkey, Hwritable, Hlookup in Hrun. cbn [snd] in Hrun.
    apply (Hwritten secret
             (controller.updatedTargetSecret rule secret targetSecret)
             (client.UpdateCall
                (controller.updatedTargetSecret rule secret targetSecret))
             eq_refl eq_refl eq_refl Hkey Hmanaged eq_refl Hrun).
  - cbn [client.IgnoreNotFound] in Hrun. unfold client.Create in Hrun.
    change (client.keyOf (controller.newTargetSecret secretCopier rule
              (targetSecretNameOf rule) targetNamespace secret))
      with (targetNamespace, targetSecretNameOf rule) in Hrun.
    cbn [client.record client.rejected client.secrets] in Hrun.
    rewrite Hwritable, Hlookup in Hrun. cbn [snd] in Hrun.
    apply (Hwritten secret
             (controller.newTargetSecret secretCopier rule
                (targetSecretNameOf rule) targetNamespace secret)
             (client.CreateCall
                (controller.newTargetSecret secretCopier rule
                   (targetSecretNameOf rule) targetNamespace secret))
             eq_refl eq_refl eq_refl eq_refl
             (newTargetSecret_managed _ _ _ _ _) eq_refl Hrun).
Qed.

(** The scenario run twice: the second run rewrites the copy as it is. *)
Lemma copySecretToNamespace_second_run_witness :
  let w1 := controller.copySecretToNamespace Scenario.copier Scenario.rule
              "ns-dst" (Scenario.worldOf [Scenario.source]) in
  let w2 := controller.copySecretToNamespace Scenario.copier Scenario.rule
              "ns-dst" w1 in
  client.secrets w2 = client.secrets w1.
Proof.
  exact (proj1 (copySecretToNamespace_second_run Scenario.copier Scenario.rule
                  "ns-dst" (Scenario.worldOf [Scenario.source])
                  (wellKeyed_worldOf [Scenario.source]) eq_refl)).
Defined.

(** ** Selectors only narrow *)

(** X21. The UID, owner and label selectors only narrow the targets: a
    namespace matched by a selector is still matched when one of these
    three is emptied. *)
Theorem TargetNamespaces_selectors_narrow
    (s : selectors.TargetNamespaces.t) (namespace : corev1.Namespace.t)
    (Hmatch : selectors.TargetNamespaces.Matches s namespace = true) :
  selectors.TargetNamespaces.Matches
    (selectors.TargetNamespaces.Build
       (selectors.TargetNamespaces.NameSelector s)
       (selectors.UIDSelector.Build [])
       (selectors.TargetNamespaces.OwnerSelector s)
       (selectors.TargetNamespaces.LabelSelector s)) namespace = true /\
  selectors.TargetNamespaces.Matches
    (selectors.TargetNamespaces.Build
       (selectors.TargetNamespaces.NameSelector s)
       (selectors.TargetNamespaces.UIDSelector s)
       (selectors.OwnerSelector.Build [])
       (selectors.TargetNamespaces.LabelSelector s)) namespace = true /\
  selectors.TargetNamespaces.Matches
    (selectors.TargetNamespaces.Build
       (selectors.TargetNamespaces.NameSelector s)
       (selectors.TargetNamespaces.UIDSelector s)
       (selectors.TargetNamespaces.OwnerSelector s)
       (selectors.LabelSelector.Build None [])) namespace = true.
Proof.
  rewrite TargetNamespaces_Matches_unfold in Hmatch.
  apply andb_true_iff in Hmatch as [Hmatch Hlabel].
  apply andb_true_iff in Hmatch as [Hmatch Howner].
  apply andb_true_iff in Hmatch as [Hname Huid].
  rewrite !TargetNamespaces_Matches_unfold.
  cbn [selectors.TargetNamespaces.NameSelector
       selectors.TargetNamespaces.UIDSelector
       selectors.TargetNamespaces.OwnerSelector
       selectors.TargetNamespaces.LabelSelector].
  rewrite Hname, Huid, Howner, Hlabel.
  repeat split; reflexivity.
Qed.

(** A selector by name and UID, and the same without the UIDs. *)
Lemma TargetNamespaces_selectors_narrow_witness :
  selectors.TargetNamespaces.Matches
    (selectors.TargetNamespaces.Build
       (selectors.NameSelector.Build ["ns-*"])
       (selectors.UIDSelector.Build [])
       (selectors.OwnerSelector.Build [])
       (selectors.LabelSelector.Build None []))
    (corev1.Namespace.Build
       (metav1.ObjectMeta.Build "ns-dst" EmptyString "uid-7" None None [])
       "Active") = true.
Proof.
  apply (proj1 (TargetNamespaces_selectors_narrow
                  (selectors.TargetNamespaces.Build
                     (selectors.NameSelector.Build ["ns-*"])
                     (selectors.UIDSelector.Build ["uid-7"])
                     (selectors.OwnerSelector.Build [])
                     (selectors.LabelSelector.Build None []))
                  (corev1.Namespace.Build
                     (metav1.ObjectMeta.Build "ns-dst" EmptyString "uid-7"
                        None None [])
                     "Active")
                  eq_refl)).
Defined.

(** Emptying the name selector is another matter: the names it allowed
    fall back under the default refusal of [kube-*]. *)
Example NameSelector_emptied_loses_match :
  let byName names :=
    selectors.TargetNamespaces.Build
      (selectors.NameSelector.Build names)
      (selectors.UIDSelector.Build [])
      (selectors.OwnerSelector.Build [])
      (selectors.LabelSelector.Build None []) in
  selectors.TargetNamespaces.Matches (byName ["kube-system"])
    (namespaceNamed "kube-system") = true /\
  selectors.TargetNamespaces.Matches (byName [])
    (namespaceNamed "kube-system") = false.
Proof. vm_compute. split; reflexivity. Qed.
